(** * SharkBand backend: check-in ledger and analytics

    A shallow embedding of the in-memory data store ([data/store.ts]), the
    check-in route ([routes/checkins.ts]), the wallet and registration
    routes ([routes/cards.ts], [routes/auth.ts]) and the analytics routes
    ([routes/analytics.ts]), followed by the properties of the ledger and of
    the aggregation code.

    Conventions of the embedding.
    - A [Date] is its epoch value in milliseconds, a [Z].  Every
      [new Date()] of the source is an explicit argument of the function
      that performs it, in the order in which the source reads the clock.
    - [uuidv4()] is an explicit argument as well.
    - A JS [Map] is an association list in insertion order ([JsMap]): the
      analytics code iterates over [Map.values()], so the order is part of
      the behaviour.
    - [points], [pointsEarned] and the counters are integers ([Z]); the
      only quotient of the code, [avgCheckInsPerUser], is computed in [Q].
    - The process time zone is UTC, so that [setHours(0,0,0,0)] and
      [setDate], which act in the time zone of the process, act on the
      same calendar day as [toISOString]; what is proved of the ranges of
      dates is proved of a server in UTC.
    - The libraries that are not part of the repository are parameters:
      the test of [z.string().uuid()], [bcrypt.compare], [jwt.sign] and
      [jwt.verify].
    - A route runs in one step of the server, but for the registration,
      which awaits [bcrypt.hash] between its lookup and its write: other
      steps can run in between. *)

From Stdlib Require Import ZArith QArith Qround Lia.
From stdpp Require Import base decidable option list strings gmap pretty sorting.

#[local] Open Scope string_scope.
#[local] Open Scope list_scope.
#[local] Open Scope Z_scope.

(* ===================================================================== *)
(** * JS [Map]: association lists in insertion order *)
(* ===================================================================== *)

Module JsMap.
Section jsmap.
Context {K V : Type} `{EqDecision K}.

Definition t : Type := list (K * V).

Definition empty : t := [].

(** [Map.prototype.get] *)
Fixpoint get (k : K) (m : t) : option V :=
  match m with
  | [] => None
  | (k', v) :: m' => if decide (k = k') then Some v else get k m'
  end.

(** [Map.prototype.has] *)
Definition has (k : K) (m : t) : bool :=
  match get k m with Some _ => true | None => false end.

(** [Map.prototype.set]: an existing key keeps its position, a new key
    goes last. *)
Fixpoint set (k : K) (v : V) (m : t) : t :=
  match m with
  | [] => [(k, v)]
  | (k', v') :: m' =>
      if decide (k = k') then (k, v) :: m' else (k', v') :: set k v m'
  end.

(** [Map.prototype.delete]: the flag tells whether a key was removed. *)
Fixpoint delete (k : K) (m : t) : bool * t :=
  match m with
  | [] => (false, [])
  | (k', v') :: m' =>
      if decide (k = k') then (true, m')
      else let '(b, r) := delete k m' in (b, (k', v') :: r)
  end.

Definition keys (m : t) : list K := m.*1.

(** [Array.from(map.values())] *)
Definition values (m : t) : list V := m.*2.

(** [Array.from(map.entries())] *)
Definition entries (m : t) : list (K * V) := m.

End jsmap.
#[global] Arguments t : clear implicits.
End JsMap.

(* ===================================================================== *)
(** * Data model ([types.ts]) *)
(* ===================================================================== *)

(** A [Date], as milliseconds since the epoch. *)
Definition Date : Type := Z.

(** [Record<string, any>]: the store never inspects it. *)
Definition Metadata : Type := string.

Inductive Role : Type := RoleUser | RoleAdmin | RoleBusiness.

#[global] Instance Role_eq_dec : EqDecision Role.
Proof. solve_decision. Defined.

Module User.
Record t : Type := mk {
  id : string;
  email : string;
  password : string;
  name : string;
  role : Role;
  points : Z;
  createdAt : Date;
  updatedAt : Date;
}.
End User.

Module Card.
Record t : Type := mk {
  id : string;
  businessId : string;
  name : string;
  description : option string;
  logo : option string;
  backgroundColor : option string;
  isActive : bool;
  metadata : option Metadata;
  createdAt : Date;
  updatedAt : Date;
}.
End Card.

Module UserCard.
Record t : Type := mk {
  id : string;
  userId : string;
  cardId : string;
  addedAt : Date;
  lastCheckIn : option Date;
}.
End UserCard.

Module CheckIn.
Record t : Type := mk {
  id : string;
  userId : string;
  cardId : string;
  businessId : string;
  pointsEarned : Z;
  timestamp : Date;
  location : option string;
  metadata : option Metadata;
}.
End CheckIn.

Module Business.
Record t : Type := mk {
  id : string;
  name : string;
  email : string;
  ownerId : string;
  logo : option string;
  createdAt : Date;
  updatedAt : Date;
}.
End Business.

(** [Partial<User>]: [None] is an absent property. *)
Module PartialUser.
Record t : Type := mk {
  id : option string;
  email : option string;
  password : option string;
  name : option string;
  role : option Role;
  points : option Z;
  createdAt : option Date;
  updatedAt : option Date;
}.
Definition none : t := mk None None None None None None None None.
End PartialUser.

(** [Partial<Card>] *)
Module PartialCard.
Record t : Type := mk {
  id : option string;
  businessId : option string;
  name : option string;
  description : option (option string);
  logo : option (option string);
  backgroundColor : option (option string);
  isActive : option bool;
  metadata : option (option Metadata);
  createdAt : option Date;
  updatedAt : option Date;
}.
End PartialCard.

(** [Partial<UserCard>] *)
Module PartialUserCard.
Record t : Type := mk {
  id : option string;
  userId : option string;
  cardId : option string;
  addedAt : option Date;
  lastCheckIn : option (option Date);
}.
Definition none : t := mk None None None None None.
End PartialUserCard.

(** [JwtPayload]: the authenticated principal. *)
Module JwtPayload.
Record t : Type := mk {
  userId : string;
  email : string;
  role : Role;
}.
End JwtPayload.

(** The body accepted by [checkInSchema]. *)
Module CheckInRequest.
Record t : Type := mk {
  cardId : string;
  location : option string;
  metadata : option Metadata;
}.
End CheckInRequest.

Module CheckInResponse.
Record t : Type := mk {
  checkIn : CheckIn.t;
  totalPoints : Z;
  message : string;
}.
End CheckInResponse.

(** [{ ...a, ...b }] on one property. *)
Definition spread {A : Type} (a : A) (b : option A) : A := default a b.

(* ===================================================================== *)
(** * The data store ([data/store.ts]) *)
(* ===================================================================== *)

Record DataStore : Type := mkStore {
  users : JsMap.t string User.t;
  cards : JsMap.t string Card.t;
  userCards : JsMap.t string UserCard.t;
  checkIns : list CheckIn.t;
  businesses : JsMap.t string Business.t;
}.

Definition withUsers (m : JsMap.t string User.t) (s : DataStore) : DataStore :=
  mkStore m (cards s) (userCards s) (checkIns s) (businesses s).
Definition withCards (m : JsMap.t string Card.t) (s : DataStore) : DataStore :=
  mkStore (users s) m (userCards s) (checkIns s) (businesses s).
Definition withUserCards (m : JsMap.t string UserCard.t) (s : DataStore) : DataStore :=
  mkStore (users s) (cards s) m (checkIns s) (businesses s).
Definition withCheckIns (l : list CheckIn.t) (s : DataStore) : DataStore :=
  mkStore (users s) (cards s) (userCards s) l (businesses s).
Definition withBusinesses (m : JsMap.t string Business.t) (s : DataStore) : DataStore :=
  mkStore (users s) (cards s) (userCards s) (checkIns s) m.

(** ** User operations *)

Definition createUser (user : User.t) (s : DataStore) : User.t * DataStore :=
  (user, withUsers (JsMap.set (User.id user) user (users s)) s).

Definition getUserById (id : string) (s : DataStore) : option User.t :=
  JsMap.get id (users s).

Definition getUserByEmail (email : string) (s : DataStore) : option User.t :=
  find (λ u, bool_decide (User.email u = email)) (JsMap.values (users s)).

Definition getAllUsers (s : DataStore) : list User.t :=
  JsMap.values (users s).

(** [{ ...user, ...updates, updatedAt: new Date() }] *)
Definition mergeUser (user : User.t) (updates : PartialUser.t) (now : Date) : User.t :=
  User.mk (spread (User.id user) (PartialUser.id updates))
          (spread (User.email user) (PartialUser.email updates))
          (spread (User.password user) (PartialUser.password updates))
          (spread (User.name user) (PartialUser.name updates))
          (spread (User.role user) (PartialUser.role updates))
          (spread (User.points user) (PartialUser.points updates))
          (spread (User.createdAt user) (PartialUser.createdAt updates))
          now.

Definition updateUser (id : string) (updates : PartialUser.t) (now : Date)
    (s : DataStore) : option User.t * DataStore :=
  match JsMap.get id (users s) with
  | None => (None, s)
  | Some user =>
      let updated := mergeUser user updates now in
      (Some updated, withUsers (JsMap.set id updated (users s)) s)
  end.

(** ** Card operations *)

Definition createCard (card : Card.t) (s : DataStore) : Card.t * DataStore :=
  (card, withCards (JsMap.set (Card.id card) card (cards s)) s).

Definition getCardById (id : string) (s : DataStore) : option Card.t :=
  JsMap.get id (cards s).

Definition getAllCards (s : DataStore) : list Card.t :=
  JsMap.values (cards s).

Definition getCardsByBusinessId (businessId : string) (s : DataStore) : list Card.t :=
  filter (λ c, Card.businessId c = businessId) (JsMap.values (cards s)).

(** [{ ...card, ...updates, updatedAt: new Date() }] *)
Definition mergeCard (card : Card.t) (updates : PartialCard.t) (now : Date) : Card.t :=
  Card.mk (spread (Card.id card) (PartialCard.id updates))
          (spread (Card.businessId card) (PartialCard.businessId updates))
          (spread (Card.name card) (PartialCard.name updates))
          (spread (Card.description card) (PartialCard.description updates))
          (spread (Card.logo card) (PartialCard.logo updates))
          (spread (Card.backgroundColor card) (PartialCard.backgroundColor updates))
          (spread (Card.isActive card) (PartialCard.isActive updates))
          (spread (Card.metadata card) (PartialCard.metadata updates))
          (spread (Card.createdAt card) (PartialCard.createdAt updates))
          now.

Definition updateCard (id : string) (updates : PartialCard.t) (now : Date)
    (s : DataStore) : option Card.t * DataStore :=
  match JsMap.get id (cards s) with
  | None => (None, s)
  | Some card =>
      let updated := mergeCard card updates now in
      (Some updated, withCards (JsMap.set id updated (cards s)) s)
  end.

Definition deleteCard (id : string) (s : DataStore) : bool * DataStore :=
  let '(b, m) := JsMap.delete id (cards s) in (b, withCards m s).

(** ** UserCard operations *)

(** The key [`${userId}-${cardId}`]. *)
Definition userCardKey (userId cardId : string) : string :=
  userId +:+ "-" +:+ cardId.

Definition addCardToUser (userCard : UserCard.t) (s : DataStore)
    : UserCard.t * DataStore :=
  let key := userCardKey (UserCard.userId userCard) (UserCard.cardId userCard) in
  (userCard, withUserCards (JsMap.set key userCard (userCards s)) s).

Definition getUserCards (userId : string) (s : DataStore) : list UserCard.t :=
  filter (λ uc, UserCard.userId uc = userId) (JsMap.values (userCards s)).

Definition getUserCard (userId cardId : string) (s : DataStore) : option UserCard.t :=
  JsMap.get (userCardKey userId cardId) (userCards s).

(** [{ ...userCard, ...updates }] *)
Definition mergeUserCard (userCard : UserCard.t) (updates : PartialUserCard.t)
    : UserCard.t :=
  UserCard.mk (spread (UserCard.id userCard) (PartialUserCard.id updates))
              (spread (UserCard.userId userCard) (PartialUserCard.userId updates))
              (spread (UserCard.cardId userCard) (PartialUserCard.cardId updates))
              (spread (UserCard.addedAt userCard) (PartialUserCard.addedAt updates))
              (spread (UserCard.lastCheckIn userCard) (PartialUserCard.lastCheckIn updates)).

Definition updateUserCard (userId cardId : string) (updates : PartialUserCard.t)
    (s : DataStore) : option UserCard.t * DataStore :=
  let key := userCardKey userId cardId in
  match JsMap.get key (userCards s) with
  | None => (None, s)
  | Some userCard =>
      let updated := mergeUserCard userCard updates in
      (Some updated, withUserCards (JsMap.set key updated (userCards s)) s)
  end.

Definition removeCardFromUser (userId cardId : string) (s : DataStore)
    : bool * DataStore :=
  let '(b, m) := JsMap.delete (userCardKey userId cardId) (userCards s) in
  (b, withUserCards m s).

(** ** Check-in operations *)

Definition createCheckIn (checkIn : CheckIn.t) (s : DataStore)
    : CheckIn.t * DataStore :=
  (checkIn, withCheckIns (checkIns s ++ [checkIn]) s).

Definition getCheckInsByUserId (userId : string) (s : DataStore) : list CheckIn.t :=
  filter (λ c, CheckIn.userId c = userId) (checkIns s).


Definition getCheckInsByBusinessId (businessId : string) (s : DataStore)
    : list CheckIn.t :=
  filter (λ c, CheckIn.businessId c = businessId) (checkIns s).

Definition getAllCheckIns (s : DataStore) : list CheckIn.t := checkIns s.

Definition getCheckInsInDateRange (startDate endDate : Date) (s : DataStore)
    : list CheckIn.t :=
  filter (λ c, startDate ≤ CheckIn.timestamp c ∧ CheckIn.timestamp c ≤ endDate)
         (checkIns s).

(** ** Business operations *)

Definition createBusiness (business : Business.t) (s : DataStore)
    : Business.t * DataStore :=
  (business, withBusinesses (JsMap.set (Business.id business) business (businesses s)) s).

Definition getBusinessById (id : string) (s : DataStore) : option Business.t :=
  JsMap.get id (businesses s).

Definition getAllBusinesses (s : DataStore) : list Business.t :=
  JsMap.values (businesses s).

(** ** Mock data, construction and reset *)

Definition emptyStore : DataStore :=
  mkStore JsMap.empty JsMap.empty JsMap.empty [] JsMap.empty.

Definition demoBusiness (now : Date) : Business.t :=
  Business.mk "business-1" "SharkBand Demo Business" "demo@sharkband.com"
              "admin-1" (Some "https://via.placeholder.com/150") now now.

Definition demoCards (now : Date) : list Card.t :=
  [ Card.mk "card-1" "business-1" "Coffee Loyalty Card"
            (Some "Buy 10 coffees, get 1 free!") (Some "☕") (Some "#6F4E37")
            true None now now;
    Card.mk "card-2" "business-1" "Gym Membership"
            (Some "Track your gym visits and earn rewards") (Some "💪")
            (Some "#FF6B6B") true None now now;
    Card.mk "card-3" "business-1" "VIP Access Pass"
            (Some "Exclusive access to premium events") (Some "⭐")
            (Some "#4ECDC4") true None now now ].

(** [initializeMockData]; the clock is read once per [new Date()], all
    readings are taken as the same instant [now]. *)
Definition initializeMockData (now : Date) (s : DataStore) : DataStore :=
  let s1 := (createBusiness (demoBusiness now) s).2 in
  foldl (λ acc card, (createCard card acc).2) s1 (demoCards now).

(** [new DataStore()] *)
Definition newDataStore (now : Date) : DataStore :=
  initializeMockData now emptyStore.


(* ===================================================================== *)
(** * HTTP responses *)
(* ===================================================================== *)

(** [res.status(code).json(body)]; an error body is [{ error: msg }]. *)
Inductive Response (A : Type) : Type :=
| Json (status : Z) (body : A)
| Err (status : Z) (error : string).
#[global] Arguments Json {A} status body.
#[global] Arguments Err {A} status error.

Definition statusOf {A : Type} (r : Response A) : Z :=
  match r with Json st _ => st | Err st _ => st end.

(** The typed failures of the check-in route, as the route reports them. *)
Definition NotAuthenticated {A} : Response A := Err 401 "Not authenticated".
Definition ValidationFailed {A} : Response A := Err 400 "Validation failed".
Definition CardNotFound {A} : Response A := Err 404 "Card not found".
Definition CardInactive {A} : Response A := Err 400 "Card is not active".
Definition NotInWallet {A} : Response A :=
  Err 400 "Card not in your wallet. Please add it first.".
Definition UserNotFound {A} : Response A := Err 404 "User not found".
Definition AlreadyInWallet {A} : Response A := Err 400 "Card already in wallet".
Definition CardNotInWallet {A} : Response A := Err 404 "Card not in wallet".
Definition EmailTaken {A} : Response A := Err 400 "Email already registered".

(* ===================================================================== *)
(** * Middleware ([middleware/auth.ts]) *)
(* ===================================================================== *)

(** [s.split(sep)] for a separator of one character. *)
Fixpoint jsSplit (sep : Ascii.ascii) (s : string) : list string :=
  match s with
  | EmptyString => [EmptyString]
  | String c s' =>
      if decide (c = sep) then EmptyString :: jsSplit sep s'
      else match jsSplit sep s' with
           | [] => [String c EmptyString]
           | w :: ws => String c w :: ws
           end
  end.

(** The separator [' ']. *)
Definition space : Ascii.ascii := Ascii.Ascii false false false false false true false false.

(** [authHeader && authHeader.split(' ')[1]]; an absent header, a header
    of one word and an empty second word are all falsy. *)
Definition bearerToken (authHeader : option string) : option string :=
  match authHeader with
  | None => None
  | Some h =>
      if decide (h = "") then None
      else match jsSplit space h !! 1%nat with
           | Some token => if decide (token = "") then None else Some token
           | None => None
           end
  end.

(** [authenticateToken]: [Inr] is [req.user] as handed to [next()].
    [jwtVerify] is [jwt.verify(token, jwtSecret)], [None] when it throws. *)
Definition authenticateToken {A : Type} (jwtVerify : string → option JwtPayload.t)
    (authHeader : option string) : Response A + JwtPayload.t :=
  match bearerToken authHeader with
  | None => inl (Err 401 "Access token required")
  | Some token =>
      match jwtVerify token with
      | Some payload => inr payload
      | None => inl (Err 403 "Invalid or expired token")
      end
  end.

(** [requireRole(...roles)]: [None] is [next()]. *)
Definition requireRole {A : Type} (roles : list Role) (reqUser : option JwtPayload.t)
    : option (Response A) :=
  match reqUser with
  | None => Some (Err 401 "Authentication required")
  | Some user =>
      if bool_decide (JwtPayload.role user ∈ roles) then None
      else Some (Err 403 "Insufficient permissions")
  end.

(* ===================================================================== *)
(** * Check-in route ([routes/checkins.ts]) *)
(* ===================================================================== *)

(** Points earned for a check-in: the base points. *)
Definition calculatePoints (cardId userId : string) : Z :=
  let basePoints := 10 in
  basePoints.

(** What [POST /checkins] takes from its environment, in program order. *)
Module CheckInEnv.
Record t : Type := mk {
  uuid : string;          (* [uuidv4()], the event id *)
  now1 : Date;            (* [timestamp: new Date()] *)
  now2 : Date;            (* [updatedAt: new Date()] in [updateUser] *)
  now3 : Date;            (* [lastCheckIn: new Date()] *)
}.
End CheckInEnv.

(** [z.string().uuid()].  The validation library is not part of the
    repository: its test of a text is a parameter of the routes that
    parse with it. *)
Class UuidCheck : Type := isUuid : string → bool.

(** [checkInSchema.parse(req.body)].  [body] is [req.body] when it is an
    object with a string [cardId], a [location] that is a string when
    present and a [metadata] that is a record when present, [None]
    otherwise.  The result is [None] when [parse] throws a [ZodError]. *)
Definition checkInSchema {V : UuidCheck} (body : option CheckInRequest.t)
    : option CheckInRequest.t :=
  match body with
  | None => None
  | Some b => if isUuid (CheckInRequest.cardId b) then Some b else None
  end.

(** [POST /checkins].  [reqUser] is [req.user] as left by
    [authenticateToken]; [body] is [req.body], as for [checkInSchema]. *)
Definition postCheckIn {V : UuidCheck} (env : CheckInEnv.t)
    (reqUser : option JwtPayload.t) (body : option CheckInRequest.t)
    (s : DataStore) : Response CheckInResponse.t * DataStore :=
  match reqUser with
  | None => (NotAuthenticated, s)
  | Some user =>
  match checkInSchema body with
  | None => (ValidationFailed, s)
  | Some validated =>
  let userId := JwtPayload.userId user in
  let cardId := CheckInRequest.cardId validated in
  match getCardById cardId s with
  | None => (CardNotFound, s)
  | Some card =>
  if negb (Card.isActive card) then (CardInactive, s) else
  match getUserCard userId cardId s with
  | None => (NotInWallet, s)
  | Some userCard =>
      let pointsEarned := calculatePoints cardId userId in
      let checkIn :=
        CheckIn.mk (CheckInEnv.uuid env) userId cardId (Card.businessId card)
                   pointsEarned (CheckInEnv.now1 env)
                   (CheckInRequest.location validated)
                   (CheckInRequest.metadata validated) in
      let s1 := (createCheckIn checkIn s).2 in
      match getUserById userId s1 with
      | Some u =>
          let newPoints := User.points u + pointsEarned in
          let s2 :=
            (updateUser userId
               (PartialUser.mk None None None None None (Some newPoints) None None)
               (CheckInEnv.now2 env) s1).2 in
          let s3 :=
            (updateUserCard userId cardId
               (PartialUserCard.mk None None None None
                  (Some (Some (CheckInEnv.now3 env)))) s2).2 in
          (Json 201
             (CheckInResponse.mk checkIn newPoints
                ("Check-in successful! You earned " +:+ pretty pointsEarned
                   +:+ " points.")),
           s3)
      | None => (UserNotFound, s1)
      end
  end end end end.

(* ===================================================================== *)
(** * Wallet routes ([routes/cards.ts]) *)
(* ===================================================================== *)

Module AddCardEnv.
Record t : Type := mk {
  uuid : string;          (* [uuidv4()], the wallet entry id *)
  now : Date;             (* [addedAt: new Date()] *)
}.
End AddCardEnv.

(** [POST /cards/:id/add]; the body is [{ ...created, card }]. *)
Definition postAddCard (env : AddCardEnv.t) (reqUser : option JwtPayload.t)
    (id : string) (s : DataStore)
    : Response (UserCard.t * Card.t) * DataStore :=
  match reqUser with
  | None => (NotAuthenticated, s)
  | Some user =>
  match getCardById id s with
  | None => (CardNotFound, s)
  | Some card =>
  if negb (Card.isActive card) then (CardInactive, s) else
  match getUserCard (JwtPayload.userId user) id s with
  | Some existing => (AlreadyInWallet, s)
  | None =>
      let userCard :=
        UserCard.mk (AddCardEnv.uuid env) (JwtPayload.userId user) id
                    (AddCardEnv.now env) None in
      let '(created, s1) := addCardToUser userCard s in
      (Json 201 (created, card), s1)
  end end end.

(** [DELETE /cards/:id/remove] *)
Definition deleteRemoveCard (reqUser : option JwtPayload.t) (id : string)
    (s : DataStore) : Response string * DataStore :=
  match reqUser with
  | None => (NotAuthenticated, s)
  | Some user =>
      let '(removed, s1) := removeCardFromUser (JwtPayload.userId user) id s in
      if negb removed then (CardNotInWallet, s1)
      else (Json 200 "Card removed from wallet", s1)
  end.

(* ===================================================================== *)
(** * Card routes ([routes/cards.ts]) *)
(* ===================================================================== *)

(** The body accepted by [createCardSchema]. *)
Module CreateCardRequest.
Record t : Type := mk {
  name : string;
  description : option string;
  logo : option string;
  backgroundColor : option string;
  metadata : option Metadata;
}.
End CreateCardRequest.

(** The body accepted by [updateCardSchema]: the keys of the body that
    the schema knows. *)
Module UpdateCardRequest.
Record t : Type := mk {
  name : option string;
  description : option string;
  logo : option string;
  backgroundColor : option string;
  isActive : option bool;
  metadata : option Metadata;
}.
Definition none : t := mk None None None None None None.
End UpdateCardRequest.

(** The validated body as the [Partial<Card>] given to [updateCard]. *)
Definition cardUpdates (validated : UpdateCardRequest.t) : PartialCard.t :=
  PartialCard.mk None None
    (UpdateCardRequest.name validated)
    (Some <$> UpdateCardRequest.description validated)
    (Some <$> UpdateCardRequest.logo validated)
    (Some <$> UpdateCardRequest.backgroundColor validated)
    (UpdateCardRequest.isActive validated)
    (Some <$> UpdateCardRequest.metadata validated)
    None None.

(** [`business-${userId}`] *)
Definition businessIdOf (userId : string) : string := "business-" +:+ userId.


(** [GET /cards/:id] *)
Definition getCard (id : string) (s : DataStore) : Response Card.t :=
  match getCardById id s with
  | None => CardNotFound
  | Some card => Json 200 card
  end.

Module CreateCardEnv.
Record t : Type := mk {
  uuid : string;          (* [uuidv4()], the card id *)
  now1 : Date;            (* [createdAt: new Date()] *)
  now2 : Date;            (* [updatedAt: new Date()] *)
}.
End CreateCardEnv.

(** [validated.backgroundColor || '#4ECDC4'] *)
Definition backgroundOr (c : option string) : string :=
  match c with
  | Some c => if decide (c = "") then "#4ECDC4" else c
  | None => "#4ECDC4"
  end.

(** [POST /cards], behind [requireRole('admin', 'business')]; [body] is
    the result of [createCardSchema.parse(req.body)], [None] when it
    throws. *)
Definition postCard (env : CreateCardEnv.t) (reqUser : option JwtPayload.t)
    (body : option CreateCardRequest.t) (s : DataStore)
    : Response Card.t * DataStore :=
  match requireRole [RoleAdmin; RoleBusiness] reqUser with
  | Some refusal => (refusal, s)
  | None =>
  match body with
  | None => (ValidationFailed, s)
  | Some validated =>
      let businessId :=
        match reqUser with
        | Some user =>
            if bool_decide (JwtPayload.role user = RoleBusiness)
            then businessIdOf (JwtPayload.userId user)
            else "business-1"
        | None => "business-1"
        end in
      let newCard :=
        Card.mk (CreateCardEnv.uuid env) businessId
                (CreateCardRequest.name validated)
                (CreateCardRequest.description validated)
                (CreateCardRequest.logo validated)
                (Some (backgroundOr (CreateCardRequest.backgroundColor validated)))
                true
                (CreateCardRequest.metadata validated)
                (CreateCardEnv.now1 env) (CreateCardEnv.now2 env) in
      let '(created, s1) := createCard newCard s in
      (Json 201 created, s1)
  end end.

(** [req.user?.role === 'business' && card.businessId !== `business-${req.user.userId}`] *)
Definition foreignCard (reqUser : option JwtPayload.t) (card : Card.t) : bool :=
  match reqUser with
  | Some user =>
      bool_decide (JwtPayload.role user = RoleBusiness) &&
      negb (bool_decide (Card.businessId card = businessIdOf (JwtPayload.userId user)))
  | None => false
  end.

(** [PUT /cards/:id], behind [requireRole('admin', 'business')]; [body]
    is the result of [updateCardSchema.parse(req.body)], [None] when it
    throws, and [now] is the reading of the clock made by [updateCard]. *)
Definition putCard (now : Date) (reqUser : option JwtPayload.t) (id : string)
    (body : option UpdateCardRequest.t) (s : DataStore)
    : Response (option Card.t) * DataStore :=
  match requireRole [RoleAdmin; RoleBusiness] reqUser with
  | Some refusal => (refusal, s)
  | None =>
  match body with
  | None => (ValidationFailed, s)
  | Some validated =>
  match getCardById id s with
  | None => (CardNotFound, s)
  | Some card =>
      if foreignCard reqUser card
      then (Err 403 "You can only update your own cards", s)
      else
        let '(updated, s1) := updateCard id (cardUpdates validated) now s in
        (Json 200 updated, s1)
  end end end.

(** [DELETE /cards/:id], behind [requireRole('admin')]. *)
Definition deleteCardRoute (reqUser : option JwtPayload.t) (id : string)
    (s : DataStore) : Response string * DataStore :=
  match requireRole [RoleAdmin] reqUser with
  | Some refusal => (refusal, s)
  | None =>
      let '(deleted, s1) := deleteCard id s in
      if negb deleted then (CardNotFound, s1)
      else (Json 200 "Card deleted successfully", s1)
  end.

(** [GET /cards/my/wallet]: each entry with its card, when the card is
    still in the store. *)
Definition getMyWallet (reqUser : option JwtPayload.t) (s : DataStore)
    : Response (list (UserCard.t * option Card.t)) :=
  match reqUser with
  | None => NotAuthenticated
  | Some user =>
      let userCards := getUserCards (JwtPayload.userId user) s in
      Json 200 ((λ uc, (uc, getCardById (UserCard.cardId uc) s)) <$> userCards)
  end.

(* ===================================================================== *)
(** * Registration route ([routes/auth.ts]) *)
(* ===================================================================== *)

(** The body accepted by [registerSchema], the role already defaulted. *)
Module RegisterRequest.
Record t : Type := mk {
  email : string;
  password : string;
  name : string;
  role : Role;
}.
End RegisterRequest.

Module RegisterEnv.
Record t : Type := mk {
  hashedPassword : string;  (* [await bcrypt.hash(password, 10)] *)
  uuid : string;            (* [uuidv4()], the user id *)
  now1 : Date;              (* [createdAt: new Date()] *)
  now2 : Date;              (* [updatedAt: new Date()] *)
  token : string;           (* [jwt.sign(payload, jwtSecret, ...)] *)
}.
End RegisterEnv.

(** [POST /auth/register] up to its [await]: the body is parsed and the
    email looked up.  [body] is the result of
    [registerSchema.parse(req.body)] (an email, a password of six
    characters or more, a name of two or more, the role defaulted),
    [None] when it throws.  [inl] is the answer of a request that ends
    here, [inr] the validated body with which the route goes on once
    [bcrypt.hash] has resolved. *)
Definition registerLookup (body : option RegisterRequest.t) (s : DataStore)
    : Response (string * User.t) + RegisterRequest.t :=
  match body with
  | None => inl ValidationFailed
  | Some validated =>
  match getUserByEmail (RegisterRequest.email validated) s with
  | Some existingUser => inl EmailTaken
  | None => inr validated
  end end.

(** [POST /auth/register] from its [await] on; [s] is the store as the
    requests served during the [await] have left it.  The body is
    [{ token, user }], the user without its password in the source. *)
Definition registerCreate (env : RegisterEnv.t) (validated : RegisterRequest.t)
    (s : DataStore) : Response (string * User.t) * DataStore :=
  let newUser :=
    User.mk (RegisterEnv.uuid env) (RegisterRequest.email validated)
            (RegisterEnv.hashedPassword env) (RegisterRequest.name validated)
            (RegisterRequest.role validated) 0
            (RegisterEnv.now1 env) (RegisterEnv.now2 env) in
  let s1 := (createUser newUser s).2 in
  (Json 201 (RegisterEnv.token env, newUser), s1).

(** [POST /auth/register] when no other request is served during its
    [await]: the two parts run on the same store. *)
Definition postRegister (env : RegisterEnv.t) (body : option RegisterRequest.t)
    (s : DataStore) : Response (string * User.t) * DataStore :=
  match registerLookup body s with
  | inl failure => (failure, s)
  | inr validated => registerCreate env validated s
  end.

(* ===================================================================== *)
(** * Login and profile routes ([routes/auth.ts]) *)
(* ===================================================================== *)

(** [Omit<User, 'password'>] *)
Module PublicUser.
Record t : Type := mk {
  id : string;
  email : string;
  name : string;
  role : Role;
  points : Z;
  createdAt : Date;
  updatedAt : Date;
}.
End PublicUser.

(** [const { password, ...userWithoutPassword } = user] *)
Definition userWithoutPassword (user : User.t) : PublicUser.t :=
  PublicUser.mk (User.id user) (User.email user) (User.name user) (User.role user)
                (User.points user) (User.createdAt user) (User.updatedAt user).

(** The body accepted by [loginSchema]. *)
Module LoginRequest.
Record t : Type := mk {
  email : string;
  password : string;
}.
End LoginRequest.

(** [POST /auth/login].  [body] is the result of
    [loginSchema.parse(req.body)], [None] when it throws;
    [bcryptCompare password hash] is [await bcrypt.compare(password, hash)]
    and [jwtSign payload] is [jwt.sign(payload, jwtSecret, { expiresIn })].
    The route writes nothing after its [await]: its answer is made of the
    account that the lookup returned. *)
Definition postLogin (bcryptCompare : string → string → bool)
    (jwtSign : JwtPayload.t → string)
    (body : option LoginRequest.t) (s : DataStore)
    : Response (string * PublicUser.t) :=
  match body with
  | None => ValidationFailed
  | Some validated =>
  match getUserByEmail (LoginRequest.email validated) s with
  | None => Err 401 "Invalid email or password"
  | Some user =>
      if negb (bcryptCompare (LoginRequest.password validated) (User.password user))
      then Err 401 "Invalid email or password"
      else
        let payload := JwtPayload.mk (User.id user) (User.email user) (User.role user) in
        Json 200 (jwtSign payload, userWithoutPassword user)
  end end.

(** [GET /auth/me] *)
Definition getMe (reqUser : option JwtPayload.t) (s : DataStore)
    : Response PublicUser.t :=
  match reqUser with
  | None => NotAuthenticated
  | Some principal =>
      match getUserById (JwtPayload.userId principal) s with
      | None => UserNotFound
      | Some user => Json 200 (userWithoutPassword user)
      end
  end.

(* ===================================================================== *)
(** * JS array and number helpers used by the analytics routes *)
(* ===================================================================== *)

(** [Array.prototype.sort(cmp)].  The language requires the sort to be
    stable; with a consistent comparator every stable sort returns the same
    array, here computed by insertion.  [x] comes from the left of [l] in
    the source array, so it stays in front of the elements it ties with. *)
Fixpoint jsInsert {A : Type} (cmp : A → A → Z) (x : A) (l : list A) : list A :=
  match l with
  | [] => [x]
  | y :: l' => if decide (cmp x y ≤ 0) then x :: y :: l' else y :: jsInsert cmp x l'
  end.

Definition jsSort {A : Type} (cmp : A → A → Z) (l : list A) : list A :=
  foldr (jsInsert cmp) [] l.

(** [Array.prototype.slice(0, end)]: a negative [end] counts from the end
    of the array. *)
Definition jsSlice0 {A : Type} (end_ : Z) (l : list A) : list A :=
  let len := Z.of_nat (length l) in
  let k := if decide (end_ < 0) then Z.max (len + end_) 0 else Z.min end_ len in
  take (Z.to_nat k) l.

(** [parseInt(q) || dflt]: [None] is [NaN]; [NaN] and [0] are falsy. *)
Definition parseIntOr (q : option Z) (dflt : Z) : Z :=
  match q with
  | None => dflt
  | Some n => if decide (n = 0) then dflt else n
  end.

(** [new Set(l).size] *)
Definition newSetSize (l : list string) : nat :=
  size (list_to_set l : gset string).

(** [Math.round]: the nearest integer, a tie going up. *)
Definition mathRound (q : Q) : Z := Qfloor (q + (1 # 2))%Q.

(** [Math.round(x * 10) / 10] *)
Definition roundTo1 (x : Q) : Q := (inject_Z (mathRound (x * 10)) / 10)%Q.

(* ===================================================================== *)
(** * Analytics routes ([routes/analytics.ts]) *)
(* ===================================================================== *)

Definition msPerDay : Z := 24 * 60 * 60 * 1000.

(** [date.toISOString().split('T')[0]].  The text [YYYY-MM-DD] is
    represented by the number of the UTC day it names; the text of two
    dates is equal exactly when the day numbers are, and [localeCompare]
    on the texts is the order of the day numbers. *)
Definition formatDate (date : Date) : Z := date / msPerDay.

(** [d.setHours(0, 0, 0, 0)] and [d.setHours(23, 59, 59, 999)], in a
    process whose time zone is UTC. *)
Definition startOfDay (d : Date) : Date := (d / msPerDay) * msPerDay.
Definition endOfDay (d : Date) : Date := (d / msPerDay) * msPerDay + (msPerDay - 1).

(** [d.setDate(d.getDate() + n)], in a process whose time zone is UTC. *)
Definition addDays (d : Date) (n : Z) : Date := d + n * msPerDay.

(** [getDateRange(days)]; [nowEnd] and [nowStart] are its two readings of
    the clock, in that order. *)
Definition getDateRange (nowEnd nowStart : Date) (days : Z) : Date * Date :=
  let end_ := nowEnd in
  let start := nowStart in
  let start := addDays start (- days) in
  let start := startOfDay start in
  let end_ := endOfDay end_ in
  (start, end_).

Module CheckInStats.
Record t : Type := mk {
  cardId : string;
  cardName : string;
  totalCheckIns : nat;
  uniqueUsers : nat;
}.
End CheckInStats.

Module DailyCheckIn.
Record t : Type := mk {
  date : Z;
  count : nat;
}.
End DailyCheckIn.

Module UserLeaderboard.
Record t : Type := mk {
  userId : string;
  userName : string;
  userEmail : string;
  points : Z;
  rank : nat;
}.
End UserLeaderboard.

Module AnalyticsResponse.
Record t : Type := mk {
  totalUsers : nat;
  totalCards : nat;
  totalCheckIns : nat;
  activeUsers : nat;
  cardStats : list CheckInStats.t;
  dailyCheckIns : list DailyCheckIn.t;
  topUsers : list UserLeaderboard.t;
}.
End AnalyticsResponse.

(** [u => u.role === 'user'] *)
Definition isUserRole (u : User.t) : Prop := User.role u = RoleUser.

(** [(a, b) => b.points - a.points] *)
Definition byPointsDesc (a b : User.t) : Z := User.points b - User.points a.

(** [(user, index) => ({ userId, userName, userEmail, points, rank: index + 1 })] *)
Definition toLeaderboardEntry (index : nat) (user : User.t) : UserLeaderboard.t :=
  UserLeaderboard.mk (User.id user) (User.name user) (User.email user)
                     (User.points user) (index + 1)%nat.

(** The chain [filter, sort, slice, map] shared by the leaderboard and the
    overview. *)
Definition rankUsers (limit : Z) (allUsers : list User.t) : list UserLeaderboard.t :=
  imap toLeaderboardEntry
       (jsSlice0 limit (jsSort byPointsDesc (filter isUserRole allUsers))).

(** [GET /analytics/leaderboard]; [limitQuery] is
    [parseInt(req.query.limit)]. *)
Definition getLeaderboard (limitQuery : option Z) (s : DataStore)
    : list UserLeaderboard.t :=
  let limit := parseIntOr limitQuery 10 in
  let users := getAllUsers s in
  rankUsers limit users.

(** [cards.map(card => ...)] of the overview. *)
Definition cardStatsOf (allCheckIns : list CheckIn.t) (card : Card.t) : CheckInStats.t :=
  let cardCheckIns := filter (λ ci, CheckIn.cardId ci = Card.id card) allCheckIns in
  let uniqueUsers := newSetSize (CheckIn.userId <$> cardCheckIns) in
  CheckInStats.mk (Card.id card) (Card.name card) (length cardCheckIns) uniqueUsers.

(** [recentCheckIns.forEach(ci => dailyMap.set(dateKey, (dailyMap.get(dateKey) || 0) + 1))] *)
Definition buildDailyMap (recentCheckIns : list CheckIn.t) : JsMap.t Z nat :=
  foldl (λ dailyMap ci,
           let dateKey := formatDate (CheckIn.timestamp ci) in
           JsMap.set dateKey (default 0%nat (JsMap.get dateKey dailyMap) + 1)%nat dailyMap)
        JsMap.empty recentCheckIns.

(** [for (let d = new Date(start); d <= end; d.setDate(d.getDate() + 1))].
    [None] when the fuel runs out before the loop condition fails. *)
Fixpoint dailyLoop (fuel : nat) (d end_ : Date) (dailyMap : JsMap.t Z nat)
    : option (list DailyCheckIn.t) :=
  match fuel with
  | O => None
  | S fuel' =>
      if decide (d ≤ end_) then
        let dateKey := formatDate d in
        let entry := DailyCheckIn.mk dateKey (default 0%nat (JsMap.get dateKey dailyMap)) in
        cons entry <$> dailyLoop fuel' (addDays d 1) end_ dailyMap
      else Some []
  end.

(** Iterations the loop can need between [start] and [end_]: one per day
    of the range, none when [end_] is before [start], and the one on which
    the condition fails. *)
Definition dailyFuel (start end_ : Date) : nat :=
  S (Z.to_nat ((end_ - start) / msPerDay + 1)).

(** The [dailyCheckIns] series of the overview. *)
Definition dailySeries (start end_ : Date) (allCheckIns : list CheckIn.t)
    : option (list DailyCheckIn.t) :=
  let recentCheckIns :=
    filter (λ ci, start ≤ CheckIn.timestamp ci ∧ CheckIn.timestamp ci ≤ end_)
           allCheckIns in
  let dailyMap := buildDailyMap recentCheckIns in
  dailyLoop (dailyFuel start end_) start end_ dailyMap.

(** The clock readings of [GET /analytics/overview], in program order. *)
Module OverviewEnv.
Record t : Type := mk {
  now1 : Date;            (* [thirtyDaysAgo = new Date()] *)
  now2 : Date;            (* [end = new Date()] in [getDateRange] *)
  now3 : Date;            (* [start = new Date()] in [getDateRange] *)
}.
End OverviewEnv.

(** [GET /analytics/overview] *)
Definition getOverview (env : OverviewEnv.t) (s : DataStore)
    : option AnalyticsResponse.t :=
  let users := getAllUsers s in
  let cards := getAllCards s in
  let allCheckIns := getAllCheckIns s in
  let thirtyDaysAgo := addDays (OverviewEnv.now1 env) (-30) in
  let activeUserIds :=
    CheckIn.userId <$> filter (λ ci, thirtyDaysAgo ≤ CheckIn.timestamp ci) allCheckIns in
  let cardStats := cardStatsOf allCheckIns <$> cards in
  let '(start, end_) := getDateRange (OverviewEnv.now2 env) (OverviewEnv.now3 env) 30 in
  dailyCheckIns ← dailySeries start end_ allCheckIns;
  let topUsers := rankUsers 10 users in
  Some (AnalyticsResponse.mk
          (length (filter isUserRole users))
          (length cards)
          (length allCheckIns)
          (newSetSize activeUserIds)
          cardStats dailyCheckIns topUsers).

Module CardStats.
Record t : Type := mk {
  totalCheckIns : nat;
  uniqueUsers : nat;
  avgCheckInsPerUser : Q;
  last7Days : nat;
  totalPointsEarned : Z;
}.
End CardStats.

(** [a / b] on two counts. *)
Definition divCounts (a b : nat) : Q :=
  (inject_Z (Z.of_nat a) / inject_Z (Z.of_nat b))%Q.

(** [cards.map(card => ...)] of [GET /analytics/cards]; [now] is the
    [new Date()] of this call of the callback.  The unused binding
    [userCards = dataStore.getAllCards()] has no effect. *)
Definition cardAnalyticsOf (now : Date) (allCheckIns : list CheckIn.t) (card : Card.t)
    : Card.t * CardStats.t :=
  let cardCheckIns := filter (λ ci, CheckIn.cardId ci = Card.id card) allCheckIns in
  let uniqueUsers := newSetSize (CheckIn.userId <$> cardCheckIns) in
  let avgCheckInsPerUser :=
    if decide (0 < uniqueUsers)%nat
    then divCounts (length cardCheckIns) uniqueUsers
    else 0%Q in
  let sevenDaysAgo := addDays now (-7) in
  let recentCheckIns := filter (λ ci, sevenDaysAgo ≤ CheckIn.timestamp ci) cardCheckIns in
  (card,
   CardStats.mk (length cardCheckIns) uniqueUsers (roundTo1 avgCheckInsPerUser)
                (length recentCheckIns)
                (foldl (λ sum ci, sum + CheckIn.pointsEarned ci) 0 cardCheckIns)).

(** [GET /analytics/cards]; [clock i] is the reading of the clock made
    for the card of index [i]. *)
Definition getCardAnalytics (clock : nat → Date) (s : DataStore)
    : list (Card.t * CardStats.t) :=
  let cards := getAllCards s in
  let allCheckIns := getAllCheckIns s in
  imap (λ i card, cardAnalyticsOf (clock i) allCheckIns card) cards.

Module DailyTrend.
Record t : Type := mk {
  date : Z;
  total : nat;
  byCard : JsMap.t string nat;   (* [Object.fromEntries(cards)] *)
}.
End DailyTrend.

(** [card?.name || 'Unknown'] *)
Definition cardNameOr (card : option Card.t) : string :=
  match card with
  | Some c => if decide (Card.name c = "") then "Unknown" else Card.name c
  | None => "Unknown"
  end.

(** The [checkIns.forEach] of [GET /analytics/daily].  [dayMap] is the map
    stored under [dateKey]: writing to it is writing to that entry. *)
Definition groupByDateAndCard (s : DataStore) (checkIns : list CheckIn.t)
    : JsMap.t Z (JsMap.t string nat) :=
  foldl (λ dailyByCard ci,
           let dateKey := formatDate (CheckIn.timestamp ci) in
           let card := getCardById (CheckIn.cardId ci) s in
           let dailyByCard :=
             if negb (JsMap.has dateKey dailyByCard)
             then JsMap.set dateKey JsMap.empty dailyByCard
             else dailyByCard in
           let dayMap := default JsMap.empty (JsMap.get dateKey dailyByCard) in
           let cardName := cardNameOr card in
           JsMap.set dateKey
             (JsMap.set cardName (default 0%nat (JsMap.get cardName dayMap) + 1)%nat dayMap)
             dailyByCard)
        JsMap.empty checkIns.

(** [([date, cards]) => ({ date, total, byCard })] *)
Definition toDailyTrend (e : Z * JsMap.t string nat) : DailyTrend.t :=
  let '(date, cards) := e in
  DailyTrend.mk date (foldl (λ sum count, sum + count)%nat 0%nat (JsMap.values cards)) cards.

Module DailyEnv.
Record t : Type := mk {
  now1 : Date;            (* [end = new Date()] in [getDateRange] *)
  now2 : Date;            (* [start = new Date()] in [getDateRange] *)
}.
End DailyEnv.

(** [GET /analytics/daily]; [daysQuery] is [parseInt(req.query.days)]. *)
Definition getDaily (env : DailyEnv.t) (daysQuery : option Z) (s : DataStore)
    : list DailyTrend.t :=
  let days := parseIntOr daysQuery 30 in
  let '(start, end_) := getDateRange (DailyEnv.now1 env) (DailyEnv.now2 env) days in
  let checkIns := getCheckInsInDateRange start end_ s in
  let dailyByCard := groupByDateAndCard s checkIns in
  let result := toDailyTrend <$> JsMap.entries dailyByCard in
  jsSort (λ a b, DailyTrend.date a - DailyTrend.date b) result.

Module UserActivity.
Record t : Type := mk {
  totalUsers : nat;
  usersWithCheckIns : nat;
  activeLastWeek : nat;
  activeLastMonth : nat;
  avgCheckInsPerUser : Q;
}.
End UserActivity.

(** [GET /analytics/user-activity]; [now] is its one reading of the clock. *)
Definition getUserActivity (now : Date) (s : DataStore) : UserActivity.t :=
  let users := filter isUserRole (getAllUsers s) in
  let allCheckIns := getAllCheckIns s in
  let last7Days := now - 7 * 24 * 60 * 60 * 1000 in
  let last30Days := now - 30 * 24 * 60 * 60 * 1000 in
  UserActivity.mk
    (length users)
    (newSetSize (CheckIn.userId <$> allCheckIns))
    (newSetSize (CheckIn.userId <$>
                   filter (λ ci, last7Days ≤ CheckIn.timestamp ci) allCheckIns))
    (newSetSize (CheckIn.userId <$>
                   filter (λ ci, last30Days ≤ CheckIn.timestamp ci) allCheckIns))
    (if decide (0 < length users)%nat
     then roundTo1 (divCounts (length allCheckIns) (length users))
     else 0%Q).

(* ===================================================================== *)
(** * Read routes that sort ([routes/checkins.ts]) *)
(* ===================================================================== *)

(** An array of events held by a route: the array of the store itself, as
    [getAllCheckIns] returns it, or an array of its own, as [filter]
    builds it. *)
Inductive CheckInArray : Type :=
| StoreArray
| FreshArray (items : list CheckIn.t).

Definition readArray (a : CheckInArray) (s : DataStore) : list CheckIn.t :=
  match a with
  | StoreArray => checkIns s
  | FreshArray items => items
  end.

(** [a.sort(cmp)] sorts [a] in place: sorting the array of the store
    rewrites the log. *)
Definition sortArray (cmp : CheckIn.t → CheckIn.t → Z) (a : CheckInArray)
    (s : DataStore) : CheckInArray * DataStore :=
  match a with
  | StoreArray => (StoreArray, withCheckIns (jsSort cmp (checkIns s)) s)
  | FreshArray items => (FreshArray (jsSort cmp items), s)
  end.

(** The getters, with the array they hand out. *)
Definition getAllCheckInsArray (s : DataStore) : CheckInArray := StoreArray.
Definition getCheckInsByUserIdArray (userId : string) (s : DataStore) : CheckInArray :=
  FreshArray (getCheckInsByUserId userId s).

(** [Array.prototype.slice(start, end)] *)
Definition jsSlice {A : Type} (start end_ : Z) (l : list A) : list A :=
  let len := Z.of_nat (length l) in
  let rel := λ i, if decide (i < 0) then Z.max (len + i) 0 else Z.min i len in
  let k := rel start in
  let final := rel end_ in
  take (Z.to_nat (final - k)) (drop (Z.to_nat k) l).

(** [(a, b) => b.timestamp.getTime() - a.timestamp.getTime()] *)
Definition byTimestampDesc (a b : CheckIn.t) : Z :=
  CheckIn.timestamp b - CheckIn.timestamp a.

Module EnrichedCheckIn.
Record t : Type := mk {
  checkIn : CheckIn.t;
  cardName : option string;
  cardLogo : option string;
}.
End EnrichedCheckIn.

Module Pagination.
Record t : Type := mk {
  total : nat;
  limit : Z;
  offset : Z;
  hasMore : bool;
}.
End Pagination.

(** [GET /checkins/my] *)
Definition getMyCheckIns (reqUser : option JwtPayload.t)
    (limitQuery offsetQuery : option Z) (s : DataStore)
    : Response (list EnrichedCheckIn.t * Pagination.t) * DataStore :=
  match reqUser with
  | None => (NotAuthenticated, s)
  | Some user =>
      let limit := parseIntOr limitQuery 50 in
      let offset := parseIntOr offsetQuery 0 in
      let checkIns := getCheckInsByUserIdArray (JwtPayload.userId user) s in
      let '(checkIns, s) := sortArray byTimestampDesc checkIns s in
      let total := length (readArray checkIns s) in
      let page := jsSlice offset (offset + limit) (readArray checkIns s) in
      let enrichedCheckIns :=
        (λ ci, let card := getCardById (CheckIn.cardId ci) s in
               EnrichedCheckIn.mk ci (Card.name <$> card) (card ≫= Card.logo))
          <$> page in
      (Json 200
         (enrichedCheckIns,
          Pagination.mk total limit offset
                        (bool_decide (offset + limit < Z.of_nat total))),
       s)
  end.

Module CheckInWithUser.
Record t : Type := mk {
  checkIn : CheckIn.t;
  userName : option string;
  userEmail : option string;
}.
End CheckInWithUser.


(* ===================================================================== *)
(** * The operations of the store as data *)
(* ===================================================================== *)




(** The steps of the routes that write to the store, in the order in
    which the server runs them.  Every route but the registration runs in
    one step.  A registration during whose [await] nothing else runs is
    the step [ReqRegister]; of a registration that other steps overlap,
    the part before the [await] writes nothing, and the part after it is
    the step [ReqRegisterCreate], run where the server resumes it.  The
    sequences of steps of the server are among the sequences of this
    type, which do not record that the lookup of a [ReqRegisterCreate]
    found its email free at an earlier step. *)
Inductive Request : Type :=
| ReqRegister (env : RegisterEnv.t) (body : option RegisterRequest.t)
| ReqRegisterCreate (env : RegisterEnv.t) (validated : RegisterRequest.t)
| ReqAddCard (env : AddCardEnv.t) (reqUser : option JwtPayload.t) (id : string)
| ReqRemoveCard (reqUser : option JwtPayload.t) (id : string)
| ReqCheckIn (env : CheckInEnv.t) (reqUser : option JwtPayload.t)
             (body : option CheckInRequest.t).

Definition handle {V : UuidCheck} (r : Request) (s : DataStore) : DataStore :=
  match r with
  | ReqRegister env body => (postRegister env body s).2
  | ReqRegisterCreate env validated => (registerCreate env validated s).2
  | ReqAddCard env reqUser id => (postAddCard env reqUser id s).2
  | ReqRemoveCard reqUser id => (deleteRemoveCard reqUser id s).2
  | ReqCheckIn env reqUser body => (postCheckIn env reqUser body s).2
  end.

Definition handleAll {V : UuidCheck} (rs : list Request) (s : DataStore)
    : DataStore :=
  foldl (λ acc r, handle r acc) s rs.

(** The requests of the routes that write: the ledger requests and the
    management of the cards. *)
Inductive ApiRequest : Type :=
| ApiLedger (r : Request)
| ApiPostCard (env : CreateCardEnv.t) (reqUser : option JwtPayload.t)
              (body : option CreateCardRequest.t)
| ApiPutCard (now : Date) (reqUser : option JwtPayload.t) (id : string)
             (body : option UpdateCardRequest.t)
| ApiDeleteCard (reqUser : option JwtPayload.t) (id : string).

Definition serve {V : UuidCheck} (r : ApiRequest) (s : DataStore) : DataStore :=
  match r with
  | ApiLedger r => handle r s
  | ApiPostCard env reqUser body => (postCard env reqUser body s).2
  | ApiPutCard now reqUser id body => (putCard now reqUser id body s).2
  | ApiDeleteCard reqUser id => (deleteCardRoute reqUser id s).2
  end.

Definition serveAll {V : UuidCheck} (rs : list ApiRequest) (s : DataStore)
    : DataStore :=
  foldl (λ acc r, serve r acc) s rs.

(** The second part of a registration that other steps overlap. *)
Definition resumesRegistration (r : ApiRequest) : bool :=
  match r with
  | ApiLedger (ReqRegisterCreate _ _) => true
  | _ => false
  end.

(** A sequence in which no registration is overlapped by another step. *)
Definition noOverlap (rs : list ApiRequest) : bool :=
  forallb (λ r, negb (resumesRegistration r)) rs.

(** ** Ledger quantities *)

(** [sum(e.pointsEarned for e in listByUser(userId))] *)
Definition earnedBy (userId : string) (s : DataStore) : Z :=
  foldr (λ e acc, CheckIn.pointsEarned e + acc) 0 (getCheckInsByUserId userId s).

(** The stored balance of [userId], when the account exists. *)
Definition balanceOf (userId : string) (s : DataStore) : option Z :=
  User.points <$> getUserById userId s.

(** The stored [lastCheckIn] of a wallet entry. *)
Definition lastCheckInOf (userId cardId : string) (s : DataStore) : option Date :=
  getUserCard userId cardId s ≫= UserCard.lastCheckIn.

(** The event that a check-in of [userId] on [card] appends. *)
Definition checkInEvent (env : CheckInEnv.t) (userId : string)
    (validated : CheckInRequest.t) (card : Card.t) : CheckIn.t :=
  CheckIn.mk (CheckInEnv.uuid env) userId (CheckInRequest.cardId validated)
             (Card.businessId card)
             (calculatePoints (CheckInRequest.cardId validated) userId)
             (CheckInEnv.now1 env)
             (CheckInRequest.location validated)
             (CheckInRequest.metadata validated).

(** The validation failure that the route reports for a request, if any:
    the checks are made in this order. *)
Definition validationFailure {A : Type} (userId cardId : string) (s : DataStore)
    : option (Response A) :=
  match getCardById cardId s with
  | None => Some CardNotFound
  | Some card =>
      if negb (Card.isActive card) then Some CardInactive
      else match getUserCard userId cardId s with
           | None => Some NotInWallet
           | Some _ => None
           end
  end.

(** ** A small scenario *)

(** The test of the schema in the runs below: the texts that [uuidv4()]
    returns, made of 8, 4, 4, 4 and 12 lower-case hexadecimal digits
    separated by [-], the third group starting with [4] and the fourth
    with [8], [9], [a] or [b].  The ids on which the runs below apply the
    test are such a text or the id of a demo card, which is not made of
    five groups of hexadecimal digits. *)
Inductive UuidChar : Type := UHex | UDash | UFour | UVariant.

Definition uuidV4Pattern : list UuidChar :=
  replicate 8 UHex ++ [UDash] ++ replicate 4 UHex ++ [UDash; UFour]
    ++ replicate 3 UHex ++ [UDash; UVariant] ++ replicate 3 UHex ++ [UDash]
    ++ replicate 12 UHex.

Definition matchesChar (p : UuidChar) (c : Ascii.ascii) : bool :=
  let n := Ascii.nat_of_ascii c in
  match p with
  | UHex => (48 <=? n)%nat && (n <=? 57)%nat || (97 <=? n)%nat && (n <=? 102)%nat
  | UDash => (n =? 45)%nat
  | UFour => (n =? 52)%nat
  | UVariant => (n =? 56)%nat || (n =? 57)%nat || (n =? 97)%nat || (n =? 98)%nat
  end.

Fixpoint matchesPattern (ps : list UuidChar) (s : string) : bool :=
  match ps, s with
  | [], EmptyString => true
  | p :: ps', String c s' => matchesChar p c && matchesPattern ps' s'
  | _, _ => false
  end.

Definition uuidV4Text : UuidCheck := matchesPattern uuidV4Pattern.

(** The store of a server started at 2023-11-14T22:13:20Z. *)
Definition store0 : DataStore := newDataStore 1700000000000.

Definition alice : JwtPayload.t :=
  JwtPayload.mk "user-a" "alice@example.com" RoleUser.

(** Alice registers. *)
Definition storeAlice : DataStore :=
  (postRegister
     (RegisterEnv.mk "$2b$10$hash-a" "user-a" 1700000001000 1700000001000 "jwt-a")
     (Some (RegisterRequest.mk "alice@example.com" "secret-a" "Alice" RoleUser))
     store0).2.

(** A shop creates a card of its own; the route draws the id of the
    card. *)
Definition shop : JwtPayload.t :=
  JwtPayload.mk "user-s" "shop@example.com" RoleBusiness.

Definition teaId : string := "7d9f3c1a-2b4e-4f6a-8c5d-0e1f2a3b4c5d".

Definition teaEnv : CreateCardEnv.t :=
  CreateCardEnv.mk teaId 1700000001500 1700000001500.

Definition teaRequest : CreateCardRequest.t :=
  CreateCardRequest.mk "Tea Card" None None None None.

Definition teaCard : Card.t :=
  Card.mk teaId "business-user-s" "Tea Card" None None (Some "#4ECDC4") true None
          1700000001500 1700000001500.

(** The card on the new store, and on the store with Alice's account. *)
Definition storeShop : DataStore :=
  (postCard teaEnv (Some shop) (Some teaRequest) store0).2.

Definition storeTea : DataStore :=
  (postCard teaEnv (Some shop) (Some teaRequest) storeAlice).2.

(** Alice adds the tea card to her wallet. *)
Definition storeWallet : DataStore :=
  (postAddCard (AddCardEnv.mk "wallet-a-1" 1700000002000) (Some alice) teaId
     storeTea).2.

(** The requests that lead from the new store to [storeWallet]. *)
Definition walletRequests : list ApiRequest :=
  [ApiLedger (ReqRegister
     (RegisterEnv.mk "$2b$10$hash-a" "user-a" 1700000001000 1700000001000 "jwt-a")
     (Some (RegisterRequest.mk "alice@example.com" "secret-a" "Alice" RoleUser)));
   ApiPostCard teaEnv (Some shop) (Some teaRequest);
   ApiLedger (ReqAddCard (AddCardEnv.mk "wallet-a-1" 1700000002000) (Some alice) teaId)].

Definition tea : CheckInRequest.t := CheckInRequest.mk teaId None None.

(** A body that names a demo card. *)
Definition coffee : CheckInRequest.t := CheckInRequest.mk "card-1" None None.

Definition checkInEnv1 : CheckInEnv.t :=
  CheckInEnv.mk "event-1" 1700000003000 1700000003000 1700000003000.
Definition checkInEnv2 : CheckInEnv.t :=
  CheckInEnv.mk "event-2" 1700000004000 1700000004000 1700000004000.
Definition checkInEnv3 : CheckInEnv.t :=
  CheckInEnv.mk "event-3" 1700000005000 1700000005000 1700000005000.

(** A principal whose token verifies and whose account is not in the
    store: the store lives in memory, a token stays valid for seven days. *)
Definition ghost : JwtPayload.t :=
  JwtPayload.mk "user-g" "ghost@example.com" RoleUser.

(** The ghost adds the tea card to its wallet. *)
Definition storeGhostWallet : DataStore :=
  (postAddCard (AddCardEnv.mk "wallet-g-1" 1700000002000) (Some ghost) teaId
     storeShop).2.

(** A check-in during which the clock advances by one millisecond between
    the creation of the event and the update of the wallet entry. *)
Definition checkInEnvTick : CheckInEnv.t :=
  CheckInEnv.mk "event-1" 1700000003000 1700000003000 1700000003001.

(** The accounts of the store satisfy the ledger equation. *)
Definition ledgerOk (s : DataStore) : Prop :=
  ∀ id u, getUserById id s = Some u → User.points u = earnedBy id s.

(** No event is recorded for the id that a registration draws. *)
Definition freshId (r : Request) (s : DataStore) : Prop :=
  match r with
  | ReqRegister env _ | ReqRegisterCreate env _ =>
      getCheckInsByUserId (RegisterEnv.uuid env) s = []
  | _ => True
  end.

(** Freshness of the drawn ids along a sequence of requests. *)
Fixpoint freshIds {V : UuidCheck} (rs : list Request) (s : DataStore) : Prop :=
  match rs with
  | [] => True
  | r :: rs' => freshId r s ∧ freshIds rs' (handle r s)
  end.

(** Alice after her first check-in. *)
Definition storeOneEvent : DataStore :=
  (postCheckIn (V := uuidV4Text) checkInEnv1 (Some alice) (Some tea) storeWallet).2.


(** Bob registers after Alice; both have no points. *)
Definition storeTwo : DataStore :=
  (postRegister
     (RegisterEnv.mk "$2b$10$hash-b" "user-b" 1700000006000 1700000006000 "jwt-b")
     (Some (RegisterRequest.mk "bob@example.com" "secret-b" "Bob" RoleUser))
     storeAlice).2.

(** An administrator registers; once the shop has created its card, she
    adds the card to her wallet and checks in. *)
Definition root : JwtPayload.t :=
  JwtPayload.mk "user-r" "root@example.com" RoleAdmin.

Definition rootRequests : list ApiRequest :=
  [ApiLedger (ReqRegister
     (RegisterEnv.mk "$2b$10$hash-r" "user-r" 1700000001000 1700000001000 "jwt-r")
     (Some (RegisterRequest.mk "root@example.com" "secret-r" "Root" RoleAdmin)));
   ApiPostCard teaEnv (Some shop) (Some teaRequest);
   ApiLedger (ReqAddCard (AddCardEnv.mk "wallet-r-1" 1700000002000) (Some root) teaId);
   ApiLedger (ReqCheckIn checkInEnv1 (Some root) (Some tea))].

Definition storeRoot : DataStore :=
  serveAll (V := uuidV4Text) rootRequests store0.

(** The events of the accounts of role [user]. *)
Definition checkInsOfUsers (s : DataStore) : list CheckIn.t :=
  filter (λ ci, User.role <$> getUserById (CheckIn.userId ci) s = Some RoleUser)
         (checkIns s).

(** The count of the events of a card, event by event. *)
Fixpoint eventsOfCard (cardId : string) (events : list CheckIn.t) : nat :=
  match events with
  | [] => 0
  | e :: events' =>
      ((if decide (CheckIn.cardId e = cardId) then 1 else 0)
       + eventsOfCard cardId events')%nat
  end.

(** One entry per day, for [n] days from the day of [d]: what a series
    without gaps is. *)
Fixpoint seriesFrom (count : Z → nat) (d : Date) (n : nat) : list DailyCheckIn.t :=
  match n with
  | O => []
  | S n' => DailyCheckIn.mk (formatDate d) (count (formatDate d))
              :: seriesFrom count (addDays d 1) n'
  end.

(** The number of events of the day [day] between [start] and [end_]. *)
Definition eventsOfDay (start end_ : Date) (events : list CheckIn.t) (day : Z) : nat :=
  length (filter (λ ci, formatDate (CheckIn.timestamp ci) = day)
            (filter (λ ci, start ≤ CheckIn.timestamp ci ∧ CheckIn.timestamp ci ≤ end_)
                    events)).

(* ===================================================================== *)
(** * Facts about [JsMap] *)
(* ===================================================================== *)

Section jsmap_facts.
Context {K V : Type} `{EqDecision K}.
Implicit Types (k : K) (v : V) (m : JsMap.t K V).

Lemma JsMap_get_set_eq k v m : JsMap.get k (JsMap.set k v m) = Some v.
Proof.
  induction m as [|[k' v'] m IH]; simpl.
  - by rewrite decide_True.
  - destruct (decide (k = k')) as [->|Hne]; simpl.
    + by rewrite decide_True.
    + by rewrite decide_False.
Qed.

Lemma JsMap_get_set_ne k k' v m :
  k ≠ k' → JsMap.get k' (JsMap.set k v m) = JsMap.get k' m.
Proof.
  intros Hne. induction m as [|[k0 v0] m IH]; simpl.
  - by rewrite decide_False.
  - destruct (decide (k = k0)) as [->|Hne0]; simpl.
    + by rewrite !decide_False.
    + destruct (decide (k' = k0)); [done | apply IH].
Qed.

Lemma JsMap_keys_set_present k v m :
  is_Some (JsMap.get k m) → JsMap.keys (JsMap.set k v m) = JsMap.keys m.
Proof.
  unfold JsMap.keys. induction m as [|[k0 v0] m IH]; simpl.
  - by intros [? ?].
  - destruct (decide (k = k0)) as [->|Hne]; simpl; [done|].
    intros Hs. f_equal. by apply IH.
Qed.

Lemma JsMap_set_absent k v m :
  JsMap.get k m = None → JsMap.set k v m = m ++ [(k, v)].
Proof.
  induction m as [|[k0 v0] m IH]; simpl; [done|].
  destruct (decide (k = k0)); [done|].
  intros Hn. f_equal. by apply IH.
Qed.

Lemma JsMap_get_Some_elem k v m : JsMap.get k m = Some v → (k, v) ∈ m.
Proof.
  induction m as [|[k0 v0] m IH]; simpl; [done|].
  destruct (decide (k = k0)) as [->|Hne].
  - intros [= ->]. apply list_elem_of_here.
  - intros Hg. apply list_elem_of_further. by apply IH.
Qed.

Lemma JsMap_get_None_keys k m : JsMap.get k m = None ↔ k ∉ JsMap.keys m.
Proof.
  unfold JsMap.keys. induction m as [|[k0 v0] m IH]; simpl.
  - split; [intros _; apply not_elem_of_nil | done].
  - rewrite not_elem_of_cons. destruct (decide (k = k0)) as [->|Hne].
    + split; [done | intros [? _]; done].
    + rewrite IH. tauto.
Qed.

Lemma JsMap_delete_absent k m :
  JsMap.get k m = None → JsMap.delete k m = (false, m).
Proof.
  induction m as [|[k0 v0] m IH]; simpl; [done|].
  destruct (decide (k = k0)); [done|].
  intros Hn. by rewrite (IH Hn).
Qed.

Lemma JsMap_get_delete_ne k k' m :
  k ≠ k' → JsMap.get k' (JsMap.delete k m).2 = JsMap.get k' m.
Proof.
  intros Hne. induction m as [|[k0 v0] m IH]; simpl; [done|].
  destruct (decide (k = k0)) as [->|Hne0]; simpl.
  - by rewrite decide_False.
  - destruct (JsMap.delete k m) as [b r] eqn:E; simpl in *.
    destruct (decide (k' = k0)); [done | apply IH].
Qed.

(** Writing to a key that is present changes the value at that position
    only. *)
Lemma JsMap_set_present_lookup k v v0 m :
  JsMap.get k m = Some v0 →
  ∃ i, m !! i = Some (k, v0) ∧ JsMap.set k v m = <[i := (k, v)]> m.
Proof.
  induction m as [|[k1 v1] m IH]; simpl; [done|].
  destruct (decide (k = k1)) as [->|Hne].
  - intros [= ->]. by exists 0%nat.
  - intros Hg. destruct (IH Hg) as (i & Hi & Hset).
    exists (S i). simpl. by rewrite Hset.
Qed.

End jsmap_facts.

(* ===================================================================== *)
(** * The store: updates *)
(* ===================================================================== *)

Lemma updateUser_absent id updates now s :
  getUserById id s = None → updateUser id updates now s = (None, s).
Proof. unfold updateUser, getUserById. by intros ->. Qed.

Lemma updateUser_present id updates now s user :
  getUserById id s = Some user →
  updateUser id updates now s =
    (Some (mergeUser user updates now),
     withUsers (JsMap.set id (mergeUser user updates now) (users s)) s).
Proof. unfold updateUser, getUserById. by intros ->. Qed.

Lemma updateUserCard_absent userId cardId updates s :
  getUserCard userId cardId s = None →
  updateUserCard userId cardId updates s = (None, s).
Proof. unfold updateUserCard, getUserCard. by intros ->. Qed.

Lemma updateUserCard_present userId cardId updates s userCard :
  getUserCard userId cardId s = Some userCard →
  updateUserCard userId cardId updates s =
    (Some (mergeUserCard userCard updates),
     withUserCards (JsMap.set (userCardKey userId cardId)
                      (mergeUserCard userCard updates) (userCards s)) s).
Proof. unfold updateUserCard, getUserCard. by intros ->. Qed.

(** C10.  Updating a user or a wallet entry that does not exist returns
    [undefined] ([None]) and leaves the whole store as it was.  An update
    of an existing record returns the merged record, stores it under the
    same key at the same position of the map, leaves every other key of
    that map and every other collection untouched, and, for a user, sets
    [updatedAt] to the reading of the clock made by the update. *)
Theorem update_missing_is_noop_update_present_is_local (s : DataStore) :
  (∀ id updates now,
     match getUserById id s with
     | None => updateUser id updates now s = (None, s)
     | Some user =>
         ∃ updated s',
           updateUser id updates now s = (Some updated, s') ∧
           updated = mergeUser user updates now ∧
           User.updatedAt updated = now ∧
           getUserById id s' = Some updated ∧
           (∀ id', id' ≠ id → getUserById id' s' = getUserById id' s) ∧
           JsMap.keys (users s') = JsMap.keys (users s) ∧
           cards s' = cards s ∧ userCards s' = userCards s ∧
           checkIns s' = checkIns s ∧ businesses s' = businesses s
     end) ∧
  (∀ userId cardId updates,
     let key := userCardKey userId cardId in
     match getUserCard userId cardId s with
     | None => updateUserCard userId cardId updates s = (None, s)
     | Some userCard =>
         ∃ updated s',
           updateUserCard userId cardId updates s = (Some updated, s') ∧
           updated = mergeUserCard userCard updates ∧
           JsMap.get key (userCards s') = Some updated ∧
           (∀ key', key' ≠ key →
              JsMap.get key' (userCards s') = JsMap.get key' (userCards s)) ∧
           JsMap.keys (userCards s') = JsMap.keys (userCards s) ∧
           users s' = users s ∧ cards s' = cards s ∧
           checkIns s' = checkIns s ∧ businesses s' = businesses s
     end).
Proof.
  split.
  - intros id updates now.
    destruct (getUserById id s) as [user|] eqn:Hu.
    + eexists _, _. rewrite (updateUser_present _ _ _ _ _ Hu).
      split; [reflexivity|]. split; [reflexivity|]. split; [reflexivity|].
      unfold getUserById in *; simpl.
      split; [apply JsMap_get_set_eq|].
      split; [intros id' Hne; by apply JsMap_get_set_ne|].
      split; [apply JsMap_keys_set_present; by rewrite Hu|done].
    + by apply updateUser_absent.
  - intros userId cardId updates key.
    destruct (getUserCard userId cardId s) as [userCard|] eqn:Hu.
    + eexists _, _. rewrite (updateUserCard_present _ _ _ _ _ Hu).
      split; [reflexivity|]. split; [reflexivity|].
      unfold getUserCard in *; simpl.
      split; [apply JsMap_get_set_eq|].
      split; [intros key' Hne; by apply JsMap_get_set_ne|].
      split; [apply JsMap_keys_set_present; by rewrite Hu|done].
    + by apply updateUserCard_absent.
Qed.

(* ===================================================================== *)
(** * The check-in route *)
(* ===================================================================== *)

(** Membership in a list given by its elements. *)
Ltac elem_of_listed :=
  repeat first [ apply list_elem_of_here | apply list_elem_of_further ].

(** The schema lets through the bodies whose [cardId] passes the test of
    the library, as they are. *)
Lemma checkInSchema_Some {V : UuidCheck} body validated :
  checkInSchema body = Some validated ↔
  body = Some validated ∧ isUuid (CheckInRequest.cardId validated) = true.
Proof.
  unfold checkInSchema. destruct body as [b|]; [|by split; [|intros []]].
  destruct (isUuid (CheckInRequest.cardId b)) eqn:Hb.
  - split; [by intros [= <-] | by intros [[= ->] _]].
  - split; [done | intros [[= ->] Hv]; congruence].
Qed.

(** A body that the schema refuses is answered [400 Validation failed],
    before any lookup. *)
Lemma postCheckIn_invalid {V : UuidCheck} env user body s :
  checkInSchema body = None →
  postCheckIn env (Some user) body s = (ValidationFailed, s).
Proof. unfold postCheckIn. by intros ->. Qed.

(** The store after an accepted check-in of an existing account. *)
Lemma postCheckIn_accepted {V : UuidCheck} env user validated s card userCard :
  let userId := JwtPayload.userId user in
  let cardId := CheckInRequest.cardId validated in
  let ev := checkInEvent env userId validated card in
  isUuid cardId = true →
  getCardById cardId s = Some card →
  Card.isActive card = true →
  getUserCard userId cardId s = Some userCard →
  postCheckIn env (Some user) (Some validated) s =
    match getUserById userId s with
    | Some u =>
        (Json 201
           (CheckInResponse.mk ev (User.points u + 10)
              "Check-in successful! You earned 10 points."),
         mkStore
           (JsMap.set userId
              (mergeUser u
                 (PartialUser.mk None None None None None
                    (Some (User.points u + 10)) None None)
                 (CheckInEnv.now2 env))
              (users s))
           (cards s)
           (JsMap.set (userCardKey userId cardId)
              (mergeUserCard userCard
                 (PartialUserCard.mk None None None None
                    (Some (Some (CheckInEnv.now3 env)))))
              (userCards s))
           (checkIns s ++ [ev])
           (businesses s))
    | None => (UserNotFound, withCheckIns (checkIns s ++ [ev]) s)
    end.
Proof.
  intros userId cardId ev Hv Hc Ha Hw. unfold postCheckIn.
  rewrite (proj2 (checkInSchema_Some (Some validated) validated) (conj eq_refl Hv)).
  fold userId cardId. rewrite Hc, Ha, Hw. simpl.
  unfold getUserById at 1. simpl.
  change (JsMap.get userId (users s)) with (getUserById userId s).
  destruct (getUserById userId s) as [u|] eqn:Hu; [|done].
  unfold updateUser. simpl.
  change (JsMap.get userId (users s)) with (getUserById userId s). rewrite Hu.
  unfold updateUserCard. simpl.
  change (JsMap.get (userCardKey userId cardId) (userCards s))
    with (getUserCard userId cardId s).
  rewrite Hw. reflexivity.
Qed.

(** A request that passes the schema and fails a check of the card or of
    the wallet is answered by the failure of the first check it fails,
    from the store it found. *)
Lemma postCheckIn_rejected {V : UuidCheck} env user validated s
    (failure : Response CheckInResponse.t) :
  isUuid (CheckInRequest.cardId validated) = true →
  validationFailure (JwtPayload.userId user) (CheckInRequest.cardId validated) s
    = Some failure →
  postCheckIn env (Some user) (Some validated) s = (failure, s).
Proof.
  intros Hv. unfold validationFailure, postCheckIn.
  rewrite (proj2 (checkInSchema_Some (Some validated) validated) (conj eq_refl Hv)).
  destruct (getCardById _ s) as [card|]; [|by intros [= <-]].
  destruct (Card.isActive card); simpl; [|by intros [= <-]].
  destruct (getUserCard _ _ s); [done | by intros [= <-]].
Qed.

(** C2.  A check-in request that fails validation, because the card id is
    unknown, the card is not active or the wallet has no entry for the
    user and the card, is answered by a failure, and the store is returned
    as it was found: no event is appended, and the balance and the wallet
    entries are unchanged.  When the request has passed the schema (its
    [cardId] has the form of a UUID: the validated request), the failure
    is that of the first failed check (Card not found, Card is not active,
    Card not in your wallet); a request that the schema refuses is
    answered [400 Validation failed] before any check. *)
Theorem checkin_validation_failure_changes_nothing {V : UuidCheck}
    (env : CheckInEnv.t) (user : JwtPayload.t) (validated : CheckInRequest.t)
    (s : DataStore) :
  let userId := JwtPayload.userId user in
  let cardId := CheckInRequest.cardId validated in
  (getCardById cardId s = None ∨
   (∃ card, getCardById cardId s = Some card ∧ Card.isActive card = false) ∨
   getUserCard userId cardId s = None) →
  ∃ failure s',
    postCheckIn env (Some user) (Some validated) s = (failure, s') ∧
    s' = s ∧
    checkIns s' = checkIns s ∧
    (∀ u, balanceOf u s' = balanceOf u s) ∧
    userCards s' = userCards s ∧
    (isUuid cardId = false → failure = ValidationFailed) ∧
    (isUuid cardId = true →
       failure ∈ [CardNotFound; CardInactive; NotInWallet] ∧
       (getCardById cardId s = None → failure = CardNotFound) ∧
       (∀ card, getCardById cardId s = Some card → Card.isActive card = false →
          failure = CardInactive) ∧
       (∀ card, getCardById cardId s = Some card → Card.isActive card = true →
          failure = NotInWallet)).
Proof.
  intros userId cardId Hfail.
  destruct (isUuid cardId) eqn:Hv.
  2:{ exists ValidationFailed, s. split.
      - apply postCheckIn_invalid. unfold checkInSchema. fold cardId. by rewrite Hv.
      - by repeat split. }
  assert (∃ failure : Response CheckInResponse.t,
             validationFailure userId cardId s = Some failure) as [failure Hf].
  { unfold validationFailure.
    destruct Hfail as [-> | [(card & -> & ->) | Hw]]; simpl; eauto.
    destruct (getCardById cardId s) as [card|]; eauto.
    destruct (Card.isActive card); simpl; eauto. rewrite Hw. eauto. }
  exists failure, s. split; [by apply postCheckIn_rejected|].
  do 4 (split; [done|]). split; [done|]. intros _.
  unfold validationFailure in Hf.
  destruct (getCardById cardId s) as [card|] eqn:Hc.
  - destruct (Card.isActive card) eqn:Ha; simpl in Hf.
    + destruct (getUserCard userId cardId s); [done|].
      injection Hf as <-. repeat split; try done.
      * elem_of_listed.
      * intros c [= <-]. congruence.
    + injection Hf as <-. repeat split; try done.
      * elem_of_listed.
      * intros c [= <-]. congruence.
  - injection Hf as <-. repeat split; try done. elem_of_listed.
Qed.

(** Alice checks in on the tea card before she has added it to her
    wallet. *)
Lemma checkin_validation_failure_witness :
  postCheckIn (V := uuidV4Text) checkInEnv1 (Some alice) (Some tea) storeTea
    = (NotInWallet, storeTea).
Proof.
  destruct (checkin_validation_failure_changes_nothing (V := uuidV4Text)
              checkInEnv1 alice tea storeTea)
    as (failure & s' & Hrun & -> & _ & _ & _ & _ & Htyped).
  - right; right. vm_compute. reflexivity.
  - destruct (Htyped eq_refl) as (_ & _ & _ & Hw).
    rewrite Hrun. f_equal. apply (Hw teaCard); reflexivity.
Defined.

(** The route either leaves with an error, from the store it found, or
    has passed the schema and the three checks of the card and of the
    wallet. *)
Lemma postCheckIn_cases {V : UuidCheck} env reqUser body s :
  (∃ status error, postCheckIn env reqUser body s = (Err status error, s)) ∨
  (∃ user validated card userCard,
     reqUser = Some user ∧ body = Some validated ∧
     isUuid (CheckInRequest.cardId validated) = true ∧
     getCardById (CheckInRequest.cardId validated) s = Some card ∧
     Card.isActive card = true ∧
     getUserCard (JwtPayload.userId user) (CheckInRequest.cardId validated) s
       = Some userCard).
Proof.
  destruct reqUser as [user|]; [|left; by eexists _, _].
  destruct (checkInSchema body) as [validated|] eqn:Hparse;
    [|left; eexists _, _; by apply postCheckIn_invalid].
  pose proof Hparse as Hparsed. apply checkInSchema_Some in Hparsed as [-> Hv].
  destruct (getCardById (CheckInRequest.cardId validated) s) as [card|] eqn:Hc.
  - destruct (Card.isActive card) eqn:Ha.
    + destruct (getUserCard (JwtPayload.userId user)
                  (CheckInRequest.cardId validated) s) as [userCard|] eqn:Hw.
      * right. by exists user, validated, card, userCard.
      * left. eexists _, _. unfold postCheckIn. by rewrite Hparse, Hc, Ha, Hw.
    + left. eexists _, _. unfold postCheckIn. by rewrite Hparse, Hc, Ha.
  - left. eexists _, _. unfold postCheckIn. by rewrite Hparse, Hc.
Qed.

(** A [201] is the answer to an accepted check-in of a stored account. *)
Lemma postCheckIn_created_inv {V : UuidCheck} env reqUser body s st r s' :
  postCheckIn env reqUser body s = (Json st r, s') →
  ∃ user validated card userCard u,
    reqUser = Some user ∧ body = Some validated ∧
    isUuid (CheckInRequest.cardId validated) = true ∧
    getCardById (CheckInRequest.cardId validated) s = Some card ∧
    Card.isActive card = true ∧
    getUserCard (JwtPayload.userId user) (CheckInRequest.cardId validated) s
      = Some userCard ∧
    getUserById (JwtPayload.userId user) s = Some u.
Proof.
  intros Hrun.
  destruct (postCheckIn_cases env reqUser body s)
    as [(status & error & Hf)
       | (user & validated & card & userCard & -> & -> & Hv & Hc & Ha & Hw)].
  - rewrite Hf in Hrun. discriminate.
  - destruct (getUserById (JwtPayload.userId user) s) as [u|] eqn:Hu.
    + by exists user, validated, card, userCard, u.
    + rewrite (postCheckIn_accepted _ _ _ _ _ _ Hv Hc Ha Hw), Hu in Hrun.
      discriminate.
Qed.

(** One accepted check-in of a stored account with balance [b]: the answer
    carries [b + 10], and the next check-in finds the card, the wallet
    entry and the account with balance [b + 10]. *)
Lemma postCheckIn_step {V : UuidCheck} env user validated s card userCard u :
  let userId := JwtPayload.userId user in
  let cardId := CheckInRequest.cardId validated in
  isUuid cardId = true →
  getCardById cardId s = Some card →
  Card.isActive card = true →
  getUserCard userId cardId s = Some userCard →
  getUserById userId s = Some u →
  ∃ r s' userCard' u',
    postCheckIn env (Some user) (Some validated) s = (Json 201 r, s') ∧
    CheckInResponse.checkIn r = checkInEvent env userId validated card ∧
    CheckInResponse.totalPoints r = User.points u + 10 ∧
    checkIns s' = checkIns s ++ [CheckInResponse.checkIn r] ∧
    getCardById cardId s' = Some card ∧
    getUserCard userId cardId s' = Some userCard' ∧
    UserCard.lastCheckIn userCard' = Some (CheckInEnv.now3 env) ∧
    getUserById userId s' = Some u' ∧
    User.points u' = User.points u + 10.
Proof.
  intros userId cardId Hv Hc Ha Hw Hu.
  pose proof (postCheckIn_accepted env user validated s card userCard Hv Hc Ha Hw)
    as Hrun.
  cbv zeta in Hrun. fold userId cardId in Hrun. rewrite Hu in Hrun.
  eexists _, _, _, _. split; [exact Hrun|]. simpl.
  split; [done|]. split; [done|]. split; [done|]. split; [exact Hc|].
  unfold getUserCard, getUserById; simpl.
  split; [apply JsMap_get_set_eq|]. split; [done|].
  split; [apply JsMap_get_set_eq|]. done.
Qed.

Lemma calculatePoints_base cardId userId : calculatePoints cardId userId = 10.
Proof. reflexivity. Qed.

(** A registration leaves the log as it is. *)
Lemma postRegister_checkIns env body s :
  checkIns (postRegister env body s).2 = checkIns s.
Proof.
  unfold postRegister, registerLookup. destruct body; [|done].
  by destruct (getUserByEmail _ s).
Qed.

(** A request appends at most one event, with ten points. *)
Lemma handle_checkIns {V : UuidCheck} r s :
  checkIns (handle r s) = checkIns s ∨
  ∃ e, checkIns (handle r s) = checkIns s ++ [e] ∧ CheckIn.pointsEarned e = 10.
Proof.
  destruct r as [env body | env validated | env reqUser id | reqUser id
                | env reqUser body]; simpl.
  - left. apply postRegister_checkIns.
  - by left.
  - left. unfold postAddCard. destruct reqUser; [|done].
    destruct (getCardById id s) as [card|]; [|done].
    destruct (Card.isActive card); simpl; [|done].
    by destruct (getUserCard _ id s).
  - left. unfold deleteRemoveCard. destruct reqUser; [|done].
    unfold removeCardFromUser. destruct (JsMap.delete _ _) as [[] m]; done.
  - destruct (postCheckIn_cases env reqUser body s)
      as [(status & error & ->)
         | (user & validated & card & userCard & -> & -> & Hv & Hc & Ha & Hw)].
    + by left.
    + right. rewrite (postCheckIn_accepted _ _ _ _ _ _ Hv Hc Ha Hw).
      eexists. destruct (getUserById _ s); simpl; split; reflexivity.
Qed.

(** C6.  The points policy is a function of its arguments whose value is
    the base value 10, which is not negative.  Every event that a request
    appends has [pointsEarned = 10].  Every successful check-in answers
    with the previous stored balance plus 10, and stores that balance.
    Three check-ins of an account of balance 0 on an active card of its
    wallet whose id passes the schema (the id of a card that the card
    route created does) succeed with totals 10, 20 and 30 and leave the
    balance 30; a check-in that the schema refuses is answered
    [400 Validation failed] and leaves the store as it is. *)
Theorem points_policy_base_value_ten {V : UuidCheck} :
  (∀ cardId userId,
     calculatePoints cardId userId = 10 ∧ 0 ≤ calculatePoints cardId userId) ∧
  (∀ r s,
     checkIns (handle r s) = checkIns s ∨
     ∃ e, checkIns (handle r s) = checkIns s ++ [e] ∧ CheckIn.pointsEarned e = 10) ∧
  (∀ env reqUser body s st r s',
     postCheckIn env reqUser body s = (Json st r, s') →
     ∃ user b,
       reqUser = Some user ∧
       balanceOf (JwtPayload.userId user) s = Some b ∧
       CheckInResponse.totalPoints r = b + 10 ∧
       balanceOf (JwtPayload.userId user) s' = Some (b + 10) ∧
       CheckIn.pointsEarned (CheckInResponse.checkIn r) = 10 ∧
       checkIns s' = checkIns s ++ [CheckInResponse.checkIn r]) ∧
  (∀ env1 env2 env3 user validated s card userCard u,
     let userId := JwtPayload.userId user in
     let cardId := CheckInRequest.cardId validated in
     isUuid cardId = true →
     getCardById cardId s = Some card →
     Card.isActive card = true →
     getUserCard userId cardId s = Some userCard →
     getUserById userId s = Some u →
     User.points u = 0 →
     ∃ r1 r2 r3 s1 s2 s3,
       postCheckIn env1 (Some user) (Some validated) s = (Json 201 r1, s1) ∧
       postCheckIn env2 (Some user) (Some validated) s1 = (Json 201 r2, s2) ∧
       postCheckIn env3 (Some user) (Some validated) s2 = (Json 201 r3, s3) ∧
       CheckInResponse.totalPoints r1 = 10 ∧
       CheckInResponse.totalPoints r2 = 20 ∧
       CheckInResponse.totalPoints r3 = 30 ∧
       balanceOf userId s3 = Some 30) ∧
  (∀ env user validated s,
     isUuid (CheckInRequest.cardId validated) = false →
     postCheckIn env (Some user) (Some validated) s = (ValidationFailed, s)).
Proof.
  split; [intros; by rewrite calculatePoints_base|].
  split; [apply handle_checkIns|].
  split; [|split].
  - intros env reqUser body s st r s' Hrun.
    destruct (postCheckIn_created_inv _ _ _ _ _ _ _ Hrun)
      as (user & validated & card & userCard & u & -> & -> & Hv & Hc & Ha & Hw & Hu).
    destruct (postCheckIn_step env user validated s card userCard u Hv Hc Ha Hw Hu)
      as (r0 & s0 & uc' & u' & Hrun' & Hev & Htot & Hlog & _ & _ & _ & Hu' & Hp').
    rewrite Hrun in Hrun'. injection Hrun' as _ <- <-.
    exists user, (User.points u). unfold balanceOf. rewrite Hu, Hu'. simpl.
    rewrite Hp', Hev in *. done.
  - intros env1 env2 env3 user validated s card uc0 u0 userId cardId Hv Hc Ha Hw Hu Hp.
    destruct (postCheckIn_step env1 user validated s card uc0 u0 Hv Hc Ha Hw Hu)
      as (r1 & s1 & uc1 & u1 & Hrun1 & _ & Ht1 & _ & Hc1 & Hw1 & _ & Hu1 & Hp1).
    destruct (postCheckIn_step env2 user validated s1 card uc1 u1 Hv Hc1 Ha Hw1 Hu1)
      as (r2 & s2 & uc2 & u2 & Hrun2 & _ & Ht2 & _ & Hc2 & Hw2 & _ & Hu2 & Hp2).
    destruct (postCheckIn_step env3 user validated s2 card uc2 u2 Hv Hc2 Ha Hw2 Hu2)
      as (r3 & s3 & uc3 & u3 & Hrun3 & _ & Ht3 & _ & _ & _ & _ & Hu3 & Hp3).
    exists r1, r2, r3, s1, s2, s3.
    split; [done|]. split; [done|]. split; [done|].
    unfold balanceOf. fold userId in Hu3. rewrite Hu3. simpl.
    repeat split; try f_equal; lia.
  - intros env user validated s Hv. apply postCheckIn_invalid.
    unfold checkInSchema. by rewrite Hv.
Qed.

Lemma points_policy_witness :
  ∃ r1 r2 r3 s1 s2 s3,
    postCheckIn (V := uuidV4Text) checkInEnv1 (Some alice) (Some tea) storeWallet
      = (Json 201 r1, s1) ∧
    postCheckIn (V := uuidV4Text) checkInEnv2 (Some alice) (Some tea) s1
      = (Json 201 r2, s2) ∧
    postCheckIn (V := uuidV4Text) checkInEnv3 (Some alice) (Some tea) s2
      = (Json 201 r3, s3) ∧
    CheckInResponse.totalPoints r1 = 10 ∧
    CheckInResponse.totalPoints r2 = 20 ∧
    CheckInResponse.totalPoints r3 = 30 ∧
    balanceOf "user-a" s3 = Some 30.
Proof.
  destruct (points_policy_base_value_ten (V := uuidV4Text)) as (_ & _ & _ & Hthree & _).
  eapply (Hthree checkInEnv1 checkInEnv2 checkInEnv3 alice tea storeWallet);
    vm_compute; reflexivity.
Defined.

(* ===================================================================== *)
(** * The ledger: balance against the log *)
(* ===================================================================== *)

Lemma earnedBy_append id e s :
  earnedBy id (withCheckIns (checkIns s ++ [e]) s) =
    earnedBy id s + (if decide (CheckIn.userId e = id) then CheckIn.pointsEarned e else 0).
Proof.
  unfold earnedBy, getCheckInsByUserId. simpl.
  rewrite filter_app. rewrite foldr_app.
  generalize (filter (λ c, CheckIn.userId c = id) (checkIns s)) as l.
  rewrite filter_cons, filter_nil.
  destruct (decide (CheckIn.userId e = id)); simpl.
  - induction l as [|x l IH]; simpl; [lia | rewrite IH; lia].
  - intros l. lia.
Qed.

Lemma earnedBy_same_log id s s' :
  checkIns s' = checkIns s → earnedBy id s' = earnedBy id s.
Proof. unfold earnedBy, getCheckInsByUserId. by intros ->. Qed.

(** The account that a registration writes has no points; the ledger
    equation stays when no event is recorded for its id. *)
Lemma registerCreate_ledgerOk env validated s :
  getCheckInsByUserId (RegisterEnv.uuid env) s = [] →
  ledgerOk s → ledgerOk (registerCreate env validated s).2.
Proof.
  intros Hfresh Hok id u. unfold getUserById. simpl.
  destruct (decide (RegisterEnv.uuid env = id)) as [<-|Hne].
  - rewrite JsMap_get_set_eq. intros [= <-]. simpl.
    rewrite (earnedBy_same_log _ s) by done.
    unfold earnedBy. by rewrite Hfresh.
  - rewrite JsMap_get_set_ne by done. intros Hu.
    rewrite (earnedBy_same_log _ s) by done. by apply Hok.
Qed.

(** Every request keeps the ledger equation of the stored accounts, when
    the id drawn by a registration has no event yet. *)
Lemma handle_ledgerOk {V : UuidCheck} r s :
  freshId r s → ledgerOk s → ledgerOk (handle r s).
Proof.
  intros Hfresh Hok.
  destruct r as [env body | env validated | env reqUser cid | reqUser cid
                | env reqUser body]; simpl.
  - unfold postRegister, registerLookup. destruct body as [validated|]; [|done].
    destruct (getUserByEmail _ s); [done|]. by apply registerCreate_ledgerOk.
  - by apply registerCreate_ledgerOk.
  - unfold postAddCard. destruct reqUser; [|done].
    destruct (getCardById cid s) as [card|]; [|done].
    destruct (Card.isActive card); simpl; [|done].
    destruct (getUserCard _ cid s); [done|]. simpl.
    intros id u Hu. rewrite (earnedBy_same_log _ s) by done. by apply Hok.
  - unfold deleteRemoveCard. destruct reqUser; [|done].
    unfold removeCardFromUser. destruct (JsMap.delete _ _) as [[] m]; simpl;
      intros id u Hu; rewrite (earnedBy_same_log _ s) by done; by apply Hok.
  - destruct (postCheckIn_cases env reqUser body s)
      as [(status & error & ->)
         | (user & validated & card & userCard & -> & -> & Hv & Hc & Ha & Hw)];
      [done|].
    rewrite (postCheckIn_accepted _ _ _ _ _ _ Hv Hc Ha Hw).
    destruct (getUserById (JwtPayload.userId user) s) as [u0|] eqn:Hu0; simpl.
    + intros id u.
      rewrite (earnedBy_same_log id
                 (withCheckIns (checkIns s ++
                    [checkInEvent env (JwtPayload.userId user) validated card]) s))
        by done.
      rewrite earnedBy_append. unfold getUserById. simpl.
      rewrite calculatePoints_base.
      destruct (decide (JwtPayload.userId user = id)) as [<-|Hne].
      * rewrite JsMap_get_set_eq. intros [= <-]. simpl.
        rewrite (Hok _ _ Hu0). lia.
      * rewrite JsMap_get_set_ne by done. intros Hu.
        rewrite (Hok _ _ Hu). lia.
    + intros id u Hu. change (getUserById id s = Some u) in Hu.
      rewrite earnedBy_append. simpl.
      destruct (decide (JwtPayload.userId user = id)) as [<-|Hne]; [congruence|].
      rewrite (Hok _ _ Hu). lia.
Qed.

(** A check-in that passes the schema and the three checks, by a
    principal without account: the event is appended, the answer is
    [404 User not found], and nothing else is written. *)
Lemma postCheckIn_without_account {V : UuidCheck} env user validated s card userCard :
  let userId := JwtPayload.userId user in
  let cardId := CheckInRequest.cardId validated in
  isUuid cardId = true →
  getCardById cardId s = Some card →
  Card.isActive card = true →
  getUserCard userId cardId s = Some userCard →
  getUserById userId s = None →
  postCheckIn env (Some user) (Some validated) s
    = (UserNotFound,
       withCheckIns (checkIns s ++ [checkInEvent env userId validated card]) s) ∧
  earnedBy userId (postCheckIn env (Some user) (Some validated) s).2
    = earnedBy userId s + 10 ∧
  balanceOf userId (postCheckIn env (Some user) (Some validated) s).2 = None.
Proof.
  intros userId cardId Hv Hc Ha Hw Hu.
  pose proof (postCheckIn_accepted env user validated s card userCard Hv Hc Ha Hw)
    as Hrun.
  cbv zeta in Hrun. fold userId cardId in Hrun. rewrite Hu in Hrun.
  split; [exact Hrun|]. rewrite Hrun. cbn [snd]. split.
  - rewrite earnedBy_append. cbn [checkInEvent CheckIn.userId CheckIn.pointsEarned].
    rewrite decide_True by done. by rewrite calculatePoints_base.
  - unfold balanceOf. change (getUserById userId (withCheckIns _ s))
      with (getUserById userId s). by rewrite Hu.
Qed.

(** C1.  The check-in route appends the event before it looks the account
    up.  For a principal without an account whose wallet holds a card, the
    request, which passes the schema, is answered [404 User not found] and
    the event stays in the log: the log then holds 10 points for the
    principal, and the store holds no balance for it.  The state is
    reached from a new store by the creation of the card and one wallet
    add. *)
Theorem checkin_without_account_appends_event :
  storeGhostWallet =
    serveAll (V := uuidV4Text)
      [ApiPostCard teaEnv (Some shop) (Some teaRequest);
       ApiLedger (ReqAddCard (AddCardEnv.mk "wallet-g-1" 1700000002000)
                    (Some ghost) teaId)]
      store0 ∧
  checkInSchema (V := uuidV4Text) (Some tea) = Some tea ∧
  earnedBy "user-g" storeGhostWallet = 0 ∧
  balanceOf "user-g" storeGhostWallet = None ∧
  ∃ s',
    postCheckIn (V := uuidV4Text) checkInEnv1 (Some ghost) (Some tea) storeGhostWallet
      = (UserNotFound, s') ∧
    checkIns s' =
      [CheckIn.mk "event-1" "user-g" teaId "business-user-s" 10 1700000003000
                  None None] ∧
    earnedBy "user-g" s' = 10 ∧
    balanceOf "user-g" s' = None.
Proof.
  split; [reflexivity|]. split; [reflexivity|].
  split; [reflexivity|]. split; [reflexivity|].
  eexists. split; [vm_compute; reflexivity|].
  split; [reflexivity|]. split; reflexivity.
Qed.

(** Along any sequence of requests on a new store, the balance of every
    stored account is the sum of the points of its events. *)
Lemma handleAll_ledgerOk {V : UuidCheck} rs s :
  freshIds rs s → ledgerOk s → ledgerOk (handleAll rs s).
Proof.
  revert s. induction rs as [|r rs IH]; intros s Hfresh Hok; simpl; [done|].
  destruct Hfresh as [Hr Hrs]. apply IH; [done|]. by apply handle_ledgerOk.
Qed.

Lemma newDataStore_ledgerOk now : ledgerOk (newDataStore now).
Proof. intros id u. by vm_compute. Qed.

(* ===================================================================== *)
(** * The wallet entry: [lastCheckIn] *)
(* ===================================================================== *)

(** A successful check-in stamps the event with the first reading of the
    clock and stores, as [lastCheckIn], the reading made for the wallet
    update: with a clock that does not go back, a value that is not before
    the timestamp of the event. *)
Lemma postCheckIn_lastCheckIn {V : UuidCheck} env reqUser body s st r s' :
  postCheckIn env reqUser body s = (Json st r, s') →
  ∃ user validated,
    reqUser = Some user ∧ body = Some validated ∧
    CheckIn.timestamp (CheckInResponse.checkIn r) = CheckInEnv.now1 env ∧
    lastCheckInOf (JwtPayload.userId user) (CheckInRequest.cardId validated) s'
      = Some (CheckInEnv.now3 env).
Proof.
  intros Hrun.
  destruct (postCheckIn_created_inv _ _ _ _ _ _ _ Hrun)
    as (user & validated & card & userCard & u & -> & -> & Hv & Hc & Ha & Hw & Hu).
  destruct (postCheckIn_step env user validated s card userCard u Hv Hc Ha Hw Hu)
    as (r0 & s0 & uc' & u' & Hrun' & Hev & _ & _ & _ & Hw' & Hlast & _).
  rewrite Hrun in Hrun'. injection Hrun' as _ <- <-.
  exists user, validated. split; [done|]. split; [done|].
  rewrite Hev. simpl. unfold lastCheckInOf. rewrite Hw'. simpl. done.
Qed.

(** C5.  The check-in route reads the clock once for the timestamp of the
    event and once more for [lastCheckIn].  When the clock advances by a
    millisecond in between, the check-in of Alice on the card of her
    wallet succeeds and the wallet entry holds a [lastCheckIn] that is not
    the timestamp of the appended event (it is one millisecond later). *)
Theorem checkin_lastCheckIn_differs_from_event_timestamp :
  storeWallet = serveAll (V := uuidV4Text) walletRequests store0 ∧
  checkInSchema (V := uuidV4Text) (Some tea) = Some tea ∧
  lastCheckInOf "user-a" teaId storeWallet = None ∧
  ∃ r s',
    postCheckIn (V := uuidV4Text) checkInEnvTick (Some alice) (Some tea) storeWallet
      = (Json 201 r, s') ∧
    checkIns s' = [CheckInResponse.checkIn r] ∧
    CheckIn.timestamp (CheckInResponse.checkIn r) = 1700000003000 ∧
    lastCheckInOf "user-a" teaId s' = Some 1700000003001 ∧
    lastCheckInOf "user-a" teaId s'
      ≠ Some (CheckIn.timestamp (CheckInResponse.checkIn r)).
Proof.
  split; [reflexivity|]. split; [reflexivity|]. split; [reflexivity|].
  eexists _, _. split; [vm_compute; reflexivity|].
  split; [reflexivity|]. split; [reflexivity|]. split; [reflexivity|].
  simpl. discriminate.
Qed.

(* ===================================================================== *)
(** * The event log *)
(* ===================================================================== *)






(** Sorting the array that [getAllCheckIns] returns would reorder the
    log. *)
Lemma sortArray_store_array_rewrites_log cmp s :
  checkIns (sortArray cmp (getAllCheckInsArray s) s).2 = jsSort cmp (checkIns s).
Proof. reflexivity. Qed.




(* ===================================================================== *)
(** * [Array.prototype.sort] *)
(* ===================================================================== *)

Lemma jsInsert_perm {A} (cmp : A → A → Z) x l : jsInsert cmp x l ≡ₚ x :: l.
Proof.
  induction l as [|y l IH]; simpl; [done|].
  destruct (decide (cmp x y ≤ 0)); [done|].
  rewrite IH. apply perm_swap.
Qed.

Lemma jsSort_perm {A} (cmp : A → A → Z) l : jsSort cmp l ≡ₚ l.
Proof.
  induction l as [|x l IH]; simpl; [done|].
  rewrite jsInsert_perm. by rewrite IH.
Qed.

Section sort_by_key.
Context {A : Type} (key : A → Z).

(** The comparator [(a, b) => key(b) - key(a)] and the order it sorts
    into: larger keys first. *)
Definition descBy (a b : A) : Z := key b - key a.
Definition notBelow (a b : A) : Prop := key b ≤ key a.

Lemma jsInsert_desc x l :
  StronglySorted notBelow l → StronglySorted notBelow (jsInsert descBy x l).
Proof.
  induction 1 as [|y l Hsorted IH Hall]; simpl.
  - repeat constructor.
  - unfold descBy at 1. destruct (decide (key y - key x ≤ 0)) as [Hle|Hgt].
    + constructor; [by constructor|].
      constructor; [unfold notBelow; lia|].
      eapply Forall_impl; [exact Hall|]. unfold notBelow. intros z Hz. lia.
    + constructor; [exact IH|].
      rewrite jsInsert_perm. constructor; [unfold notBelow; lia | exact Hall].
Qed.

Lemma jsSort_desc l : StronglySorted notBelow (jsSort descBy l).
Proof.
  induction l as [|x l IH]; simpl; [constructor | by apply jsInsert_desc].
Qed.

(** Stability: the elements of one key keep the order of the source
    array. *)
Lemma jsInsert_stable p x l :
  filter (λ a, key a = p) (jsInsert descBy x l) = filter (λ a, key a = p) (x :: l).
Proof.
  induction l as [|y l IH]; simpl; [done|].
  unfold descBy at 1. destruct (decide (key y - key x ≤ 0)) as [Hle|Hgt]; [done|].
  rewrite filter_cons, IH, !filter_cons.
  destruct (decide (key y = p)) as [Hy|Hy]; [|done].
  destruct (decide (key x = p)) as [Hx|Hx]; [lia | done].
Qed.

Lemma jsSort_stable p l :
  filter (λ a, key a = p) (jsSort descBy l) = filter (λ a, key a = p) l.
Proof.
  induction l as [|x l IH]; simpl; [done|].
  rewrite jsInsert_stable, !filter_cons, IH. done.
Qed.

End sort_by_key.

Lemma jsSlice0_take {A} (n : Z) (l : list A) :
  0 ≤ n → jsSlice0 n l = take (Z.to_nat n) l.
Proof.
  intros Hn. unfold jsSlice0. rewrite decide_False by lia.
  destruct (decide (n ≤ Z.of_nat (length l))).
  - by rewrite Z.min_l.
  - rewrite Z.min_r by lia. rewrite Nat2Z.id.
    rewrite !take_ge; [done | lia | lia].
Qed.

Lemma jsSlice0_prefix {A} (n : Z) (l : list A) : jsSlice0 n l `prefix_of` l.
Proof. unfold jsSlice0. apply prefix_take. Qed.

(* ===================================================================== *)
(** * The leaderboard *)
(* ===================================================================== *)

Lemma rankUsers_length limit l :
  length (rankUsers limit l) =
    length (jsSlice0 limit (jsSort byPointsDesc (filter isUserRole l))).
Proof. unfold rankUsers. apply length_imap. Qed.

Lemma rankUsers_lookup limit l i e :
  rankUsers limit l !! i = Some e ↔
  (i < length (rankUsers limit l))%nat ∧
  ∃ u, jsSort byPointsDesc (filter isUserRole l) !! i = Some u ∧
       e = toLeaderboardEntry i u.
Proof.
  rewrite rankUsers_length. unfold rankUsers.
  rewrite list_lookup_imap.
  set (ranked := jsSort byPointsDesc (filter isUserRole l)).
  destruct (jsSlice0_prefix limit ranked) as [rest Hrest].
  split.
  - intros He. destruct (jsSlice0 limit ranked !! i) as [u|] eqn:Hu; [|done].
    injection He as <-. split; [by eapply lookup_lt_Some|].
    exists u. split; [|done]. rewrite Hrest. by apply lookup_app_l_Some.
  - intros (Hi & u & Hu & ->).
    rewrite Hrest in Hu. rewrite lookup_app_l in Hu by done. by rewrite Hu.
Qed.

(** The order of the users map is the order of registration: a
    registration with a new id puts the account last, and the other
    requests keep the keys of the map where they are. *)
Lemma postRegister_appends_account env validated s :
  getUserByEmail (RegisterRequest.email validated) s = None →
  getUserById (RegisterEnv.uuid env) s = None →
  ∃ newUser,
    postRegister env (Some validated) s
      = (Json 201 (RegisterEnv.token env, newUser),
         withUsers (users s ++ [(RegisterEnv.uuid env, newUser)]) s) ∧
    User.points newUser = 0 ∧
    User.createdAt newUser = RegisterEnv.now1 env ∧
    getAllUsers (postRegister env (Some validated) s).2 = getAllUsers s ++ [newUser].
Proof.
  intros Hemail Hid. unfold postRegister, registerLookup. rewrite Hemail.
  unfold registerCreate, createUser. simpl. unfold getUserById in Hid.
  rewrite (JsMap_set_absent _ _ _ Hid).
  eexists. split; [reflexivity|]. split; [done|]. split; [done|].
  unfold getAllUsers, JsMap.values. simpl. by rewrite fmap_app.
Qed.

Lemma handle_keeps_user_order {V : UuidCheck} r s :
  (∀ env body, r ≠ ReqRegister env body) →
  (∀ env validated, r ≠ ReqRegisterCreate env validated) →
  JsMap.keys (users (handle r s)) = JsMap.keys (users s).
Proof.
  intros Hr Hr'.
  destruct r as [env body | env validated | env reqUser id | reqUser id
                | env reqUser body]; simpl.
  - by destruct (Hr env body).
  - by destruct (Hr' env validated).
  - unfold postAddCard. destruct reqUser; [|done].
    destruct (getCardById id s) as [card|]; [|done].
    destruct (Card.isActive card); simpl; [|done].
    by destruct (getUserCard _ id s).
  - unfold deleteRemoveCard. destruct reqUser; [|done].
    unfold removeCardFromUser. by destruct (JsMap.delete _ _) as [[] m].
  - destruct (postCheckIn_cases env reqUser body s)
      as [(status & error & ->)
         | (user & validated & card & userCard & -> & -> & Hv & Hc & Ha & Hw)];
      [done|].
    rewrite (postCheckIn_accepted _ _ _ _ _ _ Hv Hc Ha Hw).
    destruct (getUserById (JwtPayload.userId user) s) as [u|] eqn:Hu; simpl; [|done].
    apply JsMap_keys_set_present. unfold getUserById in Hu. by rewrite Hu.
Qed.

(** C3, amended.  The leaderboard takes the accounts of role [user] in the
    order of the users map, sorts them by points, larger first, with a
    stable sort, so that accounts with equal points keep the order in
    which they entered the map; the entry at index [i] is the account at
    index [i] of that sorted list with rank [i + 1] (ranks are positions,
    equal points get consecutive ranks); a limit [n >= 1] keeps the first
    [n] accounts, an absent, non-numeric or zero limit keeps the first 10,
    a negative limit [n] drops the last [-n]; and the result is a function
    of the users map alone. *)
Theorem leaderboard_sorted_stable_positional (limitQuery : option Z) (s : DataStore) :
  let candidates := filter isUserRole (getAllUsers s) in
  let board := getLeaderboard limitQuery s in
  ∃ ranked,
    ranked ≡ₚ candidates ∧
    StronglySorted (λ a b, User.points b ≤ User.points a) ranked ∧
    (∀ p, filter (λ u, User.points u = p) ranked
          = filter (λ u, User.points u = p) candidates) ∧
    (∀ i e, board !! i = Some e ↔
            (i < length board)%nat ∧
            ∃ u, ranked !! i = Some u ∧ e = toLeaderboardEntry i u) ∧
    (∀ i e, board !! i = Some e → UserLeaderboard.rank e = S i) ∧
    (∀ n, limitQuery = Some n → 0 < n →
          length board = (Z.to_nat n `min` length ranked)%nat) ∧
    (limitQuery = None ∨ limitQuery = Some 0 →
          length board = (10 `min` length ranked)%nat) ∧
    (∀ n, limitQuery = Some n → n < 0 →
          length board = (length ranked - Z.to_nat (- n))%nat) ∧
    (∀ s2, users s2 = users s → getLeaderboard limitQuery s2 = board).
Proof.
  intros candidates board.
  exists (jsSort byPointsDesc candidates).
  split; [apply jsSort_perm|].
  split; [apply (jsSort_desc User.points)|].
  split; [intros p; apply (jsSort_stable User.points)|].
  split; [intros i e; apply rankUsers_lookup|].
  split.
  { intros i e He. apply rankUsers_lookup in He as (_ & u & _ & ->).
    simpl. lia. }
  unfold board, getLeaderboard. rewrite rankUsers_length. fold candidates.
  split; [|split; [|split]].
  - intros n -> Hn. unfold parseIntOr. rewrite decide_False by lia.
    rewrite jsSlice0_take by lia. apply length_take.
  - intros Hq. assert (parseIntOr limitQuery 10 = 10) as ->.
    { by destruct Hq as [-> | ->]. }
    rewrite jsSlice0_take by lia. apply length_take.
  - intros n -> Hn. unfold parseIntOr. rewrite decide_False by lia.
    unfold jsSlice0. rewrite decide_True by lia. rewrite length_take. lia.
  - intros s2 Hs2. unfold getAllUsers. by rewrite Hs2.
Qed.

(** Two accounts with equal points get the ranks 1 and 2. *)
Lemma leaderboard_ranks_are_not_dense :
  ¬ (∀ limitQuery s e1 e2,
       e1 ∈ getLeaderboard limitQuery s → e2 ∈ getLeaderboard limitQuery s →
       UserLeaderboard.points e1 = UserLeaderboard.points e2 →
       UserLeaderboard.rank e1 = UserLeaderboard.rank e2).
Proof.
  intros Hdense.
  specialize (Hdense (Some 10) storeTwo
                (UserLeaderboard.mk "user-a" "Alice" "alice@example.com" 0 1)
                (UserLeaderboard.mk "user-b" "Bob" "bob@example.com" 0 2)).
  assert (getLeaderboard (Some 10) storeTwo =
            [UserLeaderboard.mk "user-a" "Alice" "alice@example.com" 0 1;
             UserLeaderboard.mk "user-b" "Bob" "bob@example.com" 0 2]) as Hboard
    by (vm_compute; reflexivity).
  rewrite Hboard in Hdense.
  discriminate Hdense; [elem_of_listed.. | reflexivity].
Qed.

(* ===================================================================== *)
(** * The statistics of a card *)
(* ===================================================================== *)

Lemma filter_cardId_length cardId events :
  length (filter (λ ci, CheckIn.cardId ci = cardId) events) = eventsOfCard cardId events.
Proof.
  induction events as [|e events IH]; simpl; [done|].
  rewrite filter_cons. destruct (decide (CheckIn.cardId e = cardId)); simpl; lia.
Qed.

(** [new Set(l).size] is the number of distinct elements of [l]. *)
Lemma newSetSize_distinct (l : list string) :
  ∃ ids, NoDup ids ∧ (∀ x, x ∈ ids ↔ x ∈ l) ∧ newSetSize l = length ids.
Proof.
  exists (elements (list_to_set l : gset string)).
  split; [apply NoDup_elements|]. split; [|done].
  intros x. rewrite elem_of_elements. apply elem_of_list_to_set.
Qed.

(** [Math.round(10 * T / U)] is the integer nearest to [10 T / U], the
    tie going up. *)
Lemma mathRound_tenths (T : Z) (p : positive) :
  let t := mathRound (inject_Z T / inject_Z (Z.pos p) * 10)%Q in
  2 * Z.pos p * t ≤ 20 * T + Z.pos p < 2 * Z.pos p * (t + 1).
Proof.
  unfold mathRound, Qfloor, Qdiv, Qmult, Qplus, Qinv, inject_Z. simpl.
  rewrite Pos.mul_1_l, Pos.mul_1_r, Pos2Z.inj_mul.
  replace (T * 1 * 10 * 2 + 1 * Z.pos p) with (20 * T + Z.pos p) by lia.
  replace (Z.pos p * 2) with (2 * Z.pos p) by lia.
  pose proof (Z.mul_div_le (20 * T + Z.pos p) (2 * Z.pos p)).
  pose proof (Z.mul_succ_div_gt (20 * T + Z.pos p) (2 * Z.pos p)).
  lia.
Qed.

(** C7.  [GET /analytics/cards] returns one entry for every card of the
    store, in the order of the cards map, and the statistics of the entry
    of a card report as [totalCheckIns] the count of the events of the log
    with the id of the card, as [uniqueUsers] the number of distinct
    [userId]s among these events, and as [avgCheckInsPerUser] the quotient
    of the two rounded to one decimal (a number of tenths, the nearest to
    the quotient, a tie going up), which is 0 when [uniqueUsers] is 0. *)
Theorem card_statistics (clock : nat → Date) (s : DataStore) :
  length (getCardAnalytics clock s) = length (getAllCards s) ∧
  ∀ (i : nat) (card : Card.t),
    getAllCards s !! i = Some card →
    ∃ stats : CardStats.t,
      getCardAnalytics clock s !! i = Some (card, stats) ∧
      let total := CardStats.totalCheckIns stats in
      let unique := CardStats.uniqueUsers stats in
      let avg := CardStats.avgCheckInsPerUser stats in
      total = eventsOfCard (Card.id card) (checkIns s) ∧
      (∃ ids, NoDup ids ∧
         (∀ u, u ∈ ids ↔
               ∃ e, e ∈ checkIns s ∧ CheckIn.cardId e = Card.id card
                    ∧ CheckIn.userId e = u) ∧
         unique = length ids) ∧
      (unique = 0%nat → (avg == 0)%Q) ∧
      ((0 < unique)%nat →
         ∃ tenths : Z,
           (avg == inject_Z tenths / 10)%Q ∧
           2 * Z.of_nat unique * tenths ≤ 20 * Z.of_nat total + Z.of_nat unique
             < 2 * Z.of_nat unique * (tenths + 1)).
Proof.
  split; [unfold getCardAnalytics; apply length_imap|].
  intros i card Hc. unfold getCardAnalytics. rewrite list_lookup_imap, Hc.
  eexists. split; [reflexivity|]. simpl.
  split; [apply filter_cardId_length|].
  split.
  { destruct (newSetSize_distinct
                (CheckIn.userId <$>
                   filter (λ ci, CheckIn.cardId ci = Card.id card) (getAllCheckIns s)))
      as (ids & Hnd & Hin & Hsz).
    exists ids. split; [done|]. split; [|done].
    intros u. rewrite Hin, list_elem_of_fmap. split.
    - intros (e & -> & He). apply list_elem_of_filter in He as [Hcard He].
      by exists e.
    - intros (e & He & Hcard & <-). exists e. split; [done|].
      apply list_elem_of_filter. done. }
  split.
  - intros ->. simpl. reflexivity.
  - intros Hpos. destruct (decide _) as [_|]; [|lia].
    unfold roundTo1, divCounts.
    set (u := newSetSize _) in *.
    destruct u as [|n]; [lia|].
    exists (mathRound
              (inject_Z (Z.of_nat (length
                 (filter (λ ci, CheckIn.cardId ci = Card.id card) (getAllCheckIns s))))
               / inject_Z (Z.pos (Pos.of_succ_nat n)) * 10)%Q).
    split; [reflexivity|].
    replace (Z.of_nat (S n)) with (Z.pos (Pos.of_succ_nat n)) by lia.
    apply mathRound_tenths.
Qed.

(** The four cards of the store in which the administrator checked in on
    the tea card: four entries, the last with one check-in of one user. *)
Lemma card_statistics_witness :
  length (getCardAnalytics (λ _, 1700000004000) storeRoot) = 4%nat ∧
  ∃ stats,
    getCardAnalytics (λ _, 1700000004000) storeRoot !! 3%nat = Some (teaCard, stats) ∧
    CardStats.totalCheckIns stats = 1%nat ∧
    CardStats.uniqueUsers stats = 1%nat.
Proof.
  destruct (card_statistics (λ _, 1700000004000) storeRoot) as [Hlen Hcards].
  split; [rewrite Hlen; reflexivity|].
  destruct (Hcards 3%nat teaCard eq_refl) as (stats & Hstats & Htotal & _).
  exists stats. split; [exact Hstats|]. split; [rewrite Htotal; reflexivity|].
  assert (getCardAnalytics (λ _, 1700000004000) storeRoot !! 3%nat
          = Some (teaCard, CardStats.mk 1 1 (10 # 10) 1 10)) as Hrun
    by (vm_compute; reflexivity).
  rewrite Hrun in Hstats. by injection Hstats as <-.
Defined.

(* ===================================================================== *)
(** * The daily series *)
(* ===================================================================== *)

Lemma buildDailyMap_count_from (l : list CheckIn.t) (m : JsMap.t Z nat) (day : Z) :
  default 0%nat
    (JsMap.get day
       (foldl (λ dailyMap ci,
                 let dateKey := formatDate (CheckIn.timestamp ci) in
                 JsMap.set dateKey
                   (default 0%nat (JsMap.get dateKey dailyMap) + 1)%nat dailyMap)
              m l))
  = (default 0%nat (JsMap.get day m)
     + length (filter (λ ci, formatDate (CheckIn.timestamp ci) = day) l))%nat.
Proof.
  revert m. induction l as [|ci l IH]; intros m; simpl; [lia|].
  rewrite IH, filter_cons.
  destruct (decide (formatDate (CheckIn.timestamp ci) = day)) as [->|Hne].
  - rewrite JsMap_get_set_eq. simpl. lia.
  - by rewrite JsMap_get_set_ne.
Qed.

Lemma buildDailyMap_count (l : list CheckIn.t) (day : Z) :
  default 0%nat (JsMap.get day (buildDailyMap l))
  = length (filter (λ ci, formatDate (CheckIn.timestamp ci) = day) l).
Proof. unfold buildDailyMap. by rewrite buildDailyMap_count_from. Qed.

(** The loop ends by its condition when the fuel exceeds the number of
    days left, and has then produced one entry per day. *)
Lemma dailyLoop_series (fuel : nat) (d end_ : Date) (m : JsMap.t Z nat) :
  (Z.to_nat ((end_ - d) / msPerDay + 1) < fuel)%nat →
  dailyLoop fuel d end_ m =
    Some (seriesFrom (λ day, default 0%nat (JsMap.get day m)) d
            (if decide (d ≤ end_) then Z.to_nat ((end_ - d) / msPerDay + 1) else 0%nat)).
Proof.
  revert d. induction fuel as [|fuel IH]; intros d Hfuel; [lia|].
  simpl. destruct (decide (d ≤ end_)) as [Hle|Hgt]; [|done].
  assert (0 < msPerDay) as HD by (by vm_compute).
  assert (0 ≤ (end_ - d) / msPerDay) as Hq by (apply Z.div_pos; lia).
  assert ((end_ - addDays d 1) / msPerDay = (end_ - d) / msPerDay - 1) as Hstep.
  { unfold addDays.
    replace (end_ - (d + 1 * msPerDay)) with (end_ - d + (-1) * msPerDay) by lia.
    rewrite Z.div_add by lia. lia. }
  rewrite IH by (rewrite Hstep; lia). simpl. f_equal.
  replace (Z.to_nat ((end_ - d) / msPerDay + 1))
    with (S (Z.to_nat ((end_ - d) / msPerDay))) by lia.
  simpl. f_equal.
  destruct (decide (addDays d 1 ≤ end_)) as [Hle'|Hgt'].
  - rewrite Hstep. f_equal. lia.
  - assert ((end_ - d) / msPerDay = 0) as ->; [|done].
    apply Z.div_small. unfold addDays in Hgt'. lia.
Qed.

Lemma seriesFrom_length count d n : length (seriesFrom count d n) = n.
Proof. revert d. induction n as [|n IH]; intros d; simpl; [done | by rewrite IH]. Qed.

Lemma seriesFrom_lookup count d n i :
  (i < n)%nat →
  seriesFrom count d n !! i =
    Some (DailyCheckIn.mk (formatDate d + Z.of_nat i) (count (formatDate d + Z.of_nat i))).
Proof.
  revert d i. induction n as [|n IH]; intros d i Hi; [lia|].
  assert (formatDate (addDays d 1) = formatDate d + 1) as Hnext.
  { unfold formatDate, addDays. rewrite Z.div_add by (by vm_compute). done. }
  destruct i as [|i]; simpl.
  - by rewrite Z.add_0_r.
  - rewrite IH by lia. rewrite Hnext.
    replace (formatDate d + 1 + Z.of_nat i) with (formatDate d + Z.pos (Pos.of_succ_nat i))
      by lia. done.
Qed.

(** The [dailyCheckIns] of the overview: one entry per calendar day from
    the day of [start] to the day of [end_], days without events
    included, each with the number of its events. *)
Lemma dailySeries_complete (start end_ : Date) (events : list CheckIn.t) :
  start ≤ end_ →
  start = startOfDay start →
  ∃ series,
    dailySeries start end_ events = Some series ∧
    length series = Z.to_nat (formatDate end_ - formatDate start + 1) ∧
    ∀ i, (i < length series)%nat →
      series !! i =
        Some (DailyCheckIn.mk (formatDate start + Z.of_nat i)
                (eventsOfDay start end_ events (formatDate start + Z.of_nat i))).
Proof.
  intros Hle Haligned.
  assert ((end_ - start) / msPerDay = formatDate end_ - formatDate start) as Hdays.
  { unfold formatDate. rewrite Haligned at 1. unfold startOfDay.
    replace (end_ - start `div` msPerDay * msPerDay)
      with (end_ + (- (start `div` msPerDay)) * msPerDay) by lia.
    rewrite Z.div_add by (by vm_compute). lia. }
  eexists. split.
  - unfold dailySeries. rewrite dailyLoop_series.
    + rewrite decide_True by done. reflexivity.
    + unfold dailyFuel. assert (0 ≤ (end_ - start) / msPerDay); [|lia].
      apply Z.div_pos; [lia | by vm_compute].
  - rewrite seriesFrom_length, Hdays. split; [done|].
    intros i Hi. rewrite seriesFrom_lookup by done.
    by rewrite buildDailyMap_count.
Qed.

(** The fuel of the series is enough for every range: the loop of the
    overview ends, with no entry when [end_] is before [start]. *)
Lemma dailySeries_returns (start end_ : Date) (events : list CheckIn.t) :
  ∃ series,
    dailySeries start end_ events = Some series ∧
    (end_ < start → series = []).
Proof.
  eexists. split.
  - unfold dailySeries. apply dailyLoop_series. unfold dailyFuel. lia.
  - intros Hlt. by rewrite decide_False by lia.
Qed.

(** [GET /analytics/overview] answers on every store, whatever the clock
    reads. *)
Lemma getOverview_returns (env : OverviewEnv.t) (s : DataStore) :
  ∃ r, getOverview env s = Some r.
Proof.
  unfold getOverview. destruct (getDateRange _ _ 30) as [start end_].
  destruct (dailySeries_returns start end_ (getAllCheckIns s)) as (series & -> & _).
  by eexists.
Qed.

Lemma formatDate_startOfDay d : formatDate (startOfDay d) = formatDate d.
Proof. unfold formatDate, startOfDay. apply Z.div_mul. by vm_compute. Qed.

Lemma formatDate_endOfDay d : formatDate (endOfDay d) = formatDate d.
Proof.
  unfold formatDate, endOfDay.
  rewrite Z.add_comm, Z.div_add by (by vm_compute).
  rewrite Z.div_small by (by vm_compute). lia.
Qed.

Lemma formatDate_addDays d n : formatDate (addDays d n) = formatDate d + n.
Proof. unfold formatDate, addDays. apply Z.div_add. by vm_compute. Qed.

Lemma startOfDay_idemp d : startOfDay d = startOfDay (startOfDay d).
Proof.
  unfold startOfDay at 2. fold (formatDate (startOfDay d)).
  by rewrite formatDate_startOfDay.
Qed.

(** The overview fills the days without events: when the range of
    [getDateRange] is not empty, its series has one entry for every day of
    the range, from thirty days before the day of the second reading of
    the clock to the day of the first. *)
Lemma getOverview_daily_complete (env : OverviewEnv.t) (s : DataStore) :
  formatDate (OverviewEnv.now3 env) - 30 ≤ formatDate (OverviewEnv.now2 env) →
  ∃ r,
    getOverview env s = Some r ∧
    length (AnalyticsResponse.dailyCheckIns r) =
      Z.to_nat (formatDate (OverviewEnv.now2 env)
                - (formatDate (OverviewEnv.now3 env) - 30) + 1) ∧
    ∀ i, (i < length (AnalyticsResponse.dailyCheckIns r))%nat →
      ∃ count,
        AnalyticsResponse.dailyCheckIns r !! i =
          Some (DailyCheckIn.mk (formatDate (OverviewEnv.now3 env) - 30 + Z.of_nat i)
                  count).
Proof.
  intros Hdays. cbv beta iota zeta delta [getOverview getDateRange].
  set (start := startOfDay (addDays (OverviewEnv.now3 env) (Z.opp 30))).
  set (end_ := endOfDay (OverviewEnv.now2 env)).
  assert (formatDate start = formatDate (OverviewEnv.now3 env) - 30) as Hs.
  { unfold start. rewrite formatDate_startOfDay, formatDate_addDays. lia. }
  assert (formatDate end_ = formatDate (OverviewEnv.now2 env)) as He
    by apply formatDate_endOfDay.
  assert (start ≤ end_) as Hle.
  { unfold start, end_, startOfDay, endOfDay.
    fold (formatDate (addDays (OverviewEnv.now3 env) (Z.opp 30))).
    fold (formatDate (OverviewEnv.now2 env)).
    rewrite formatDate_addDays.
    assert (0 < msPerDay) by (by vm_compute). nia. }
  destruct (dailySeries_complete start end_ (getAllCheckIns s) Hle
              (startOfDay_idemp _))
    as (series & -> & Hlen & Hlookup).
  eexists. split; [reflexivity|]. simpl.
  rewrite Hlen, Hs, He. split; [done|].
  intros i Hi. eexists. rewrite (Hlookup i) by lia. by rewrite Hs.
Qed.

(** Without an event in the log the daily route returns no entry. *)
Lemma getDaily_empty_log env daysQuery s :
  checkIns s = [] → getDaily env daysQuery s = [].
Proof.
  intros Hlog. unfold getDaily. destruct (getDateRange _ _ _) as [start end_].
  unfold getCheckInsInDateRange. rewrite Hlog. reflexivity.
Qed.

(** C4.  [GET /analytics/daily] lists the days that have an event and no
    other day.  With [days = 30], on a clock reading of day 19675, the
    range runs from day 19645 to day 19675, 31 days; for the log with one
    event, of day 19675, the route returns one entry, and for the empty
    log none, where the overview returns the 31 entries of the same
    range. *)
Theorem daily_route_lists_only_days_with_events :
  let now := 1700000004000 in
  let range := getDateRange now now 30 in
  formatDate range.1 = 19645 ∧
  formatDate range.2 = 19675 ∧
  getDaily (DailyEnv.mk now now) (Some 30) storeOneEvent
    = [DailyTrend.mk 19675 1 [("Tea Card", 1%nat)]] ∧
  getDaily (DailyEnv.mk now now) (Some 30) store0 = [] ∧
  ∃ r, getOverview (OverviewEnv.mk now now now) storeOneEvent = Some r ∧
       length (AnalyticsResponse.dailyCheckIns r) = 31%nat.
Proof.
  cbv zeta. split; [reflexivity|]. split; [reflexivity|].
  split; [vm_compute; reflexivity|]. split; [vm_compute; reflexivity|].
  destruct (getOverview_daily_complete
              (OverviewEnv.mk 1700000004000 1700000004000 1700000004000)
              storeOneEvent) as (r & Hr & Hlen & _); [by vm_compute|].
  exists r. split; [exact Hr|]. rewrite Hlen. reflexivity.
Qed.

(* ===================================================================== *)
(** * The views of the accounts *)
(* ===================================================================== *)

Lemma rankUsers_from_user_role limit l e :
  e ∈ rankUsers limit l →
  ∃ u, u ∈ l ∧ User.role u = RoleUser ∧
       UserLeaderboard.userId e = User.id u ∧
       UserLeaderboard.points e = User.points u.
Proof.
  intros He. apply list_elem_of_lookup in He as [i He].
  apply rankUsers_lookup in He as (_ & u & Hu & ->).
  exists u. apply list_elem_of_lookup_2 in Hu.
  rewrite jsSort_perm in Hu. apply list_elem_of_filter in Hu as [Hrole Hin].
  done.
Qed.

Lemma getOverview_fields env s r :
  getOverview env s = Some r →
  AnalyticsResponse.totalUsers r = length (filter isUserRole (getAllUsers s)) ∧
  AnalyticsResponse.topUsers r = rankUsers 10 (getAllUsers s) ∧
  AnalyticsResponse.activeUsers r =
    newSetSize (CheckIn.userId <$>
      filter (λ ci, addDays (OverviewEnv.now1 env) (-30) ≤ CheckIn.timestamp ci)
             (checkIns s)).
Proof.
  unfold getOverview. destruct (getDateRange _ _ 30) as [start end_].
  destruct (dailySeries start end_ (getAllCheckIns s)) as [daily|]; simpl; [|done].
  by intros [= <-].
Qed.

(** C9, amended.  The leaderboard and the [topUsers] of the overview list
    accounts of role [user] only, the two [totalUsers] count these
    accounts, and all four are functions of the accounts of role [user]:
    an account of another role changes none of them, whatever its points.
    The counts taken from the log ([activeUsers] of the overview, which
    answers on every store; [usersWithCheckIns], [activeLastWeek] and
    [activeLastMonth] of the user activity) are counts of the distinct
    [userId]s of the events, whatever the role of the account. *)
Theorem user_views_by_role (s : DataStore) :
  (∀ q e, e ∈ getLeaderboard q s →
     ∃ u, u ∈ getAllUsers s ∧ User.role u = RoleUser ∧
          UserLeaderboard.userId e = User.id u ∧
          UserLeaderboard.points e = User.points u) ∧
  (∀ env, ∃ r,
     getOverview env s = Some r ∧
     (∀ e, e ∈ AnalyticsResponse.topUsers r →
        ∃ u, u ∈ getAllUsers s ∧ User.role u = RoleUser ∧
             UserLeaderboard.userId e = User.id u ∧
             UserLeaderboard.points e = User.points u) ∧
     AnalyticsResponse.totalUsers r = length (filter isUserRole (getAllUsers s)) ∧
     AnalyticsResponse.activeUsers r
       = newSetSize (CheckIn.userId <$>
           filter (λ ci, OverviewEnv.now1 env - 2592000000 ≤ CheckIn.timestamp ci)
                  (checkIns s))) ∧
  (∀ now, UserActivity.totalUsers (getUserActivity now s)
          = length (filter isUserRole (getAllUsers s))) ∧
  (∀ s2, filter isUserRole (getAllUsers s2) = filter isUserRole (getAllUsers s) →
     (∀ q, getLeaderboard q s2 = getLeaderboard q s) ∧
     (∀ now, UserActivity.totalUsers (getUserActivity now s2)
             = UserActivity.totalUsers (getUserActivity now s)) ∧
     (∀ env, ∃ r r2,
        getOverview env s = Some r ∧ getOverview env s2 = Some r2 ∧
        AnalyticsResponse.topUsers r2 = AnalyticsResponse.topUsers r ∧
        AnalyticsResponse.totalUsers r2 = AnalyticsResponse.totalUsers r)) ∧
  (∀ now,
     UserActivity.usersWithCheckIns (getUserActivity now s)
       = newSetSize (CheckIn.userId <$> checkIns s) ∧
     UserActivity.activeLastWeek (getUserActivity now s)
       = newSetSize (CheckIn.userId <$>
           filter (λ ci, now - 604800000 ≤ CheckIn.timestamp ci) (checkIns s)) ∧
     UserActivity.activeLastMonth (getUserActivity now s)
       = newSetSize (CheckIn.userId <$>
           filter (λ ci, now - 2592000000 ≤ CheckIn.timestamp ci) (checkIns s))) ∧
  (∀ now, ∃ ids,
     NoDup ids ∧
     (∀ id, id ∈ ids ↔ ∃ e, e ∈ checkIns s ∧ CheckIn.userId e = id) ∧
     UserActivity.usersWithCheckIns (getUserActivity now s) = length ids).
Proof.
  split; [intros q e; apply rankUsers_from_user_role|].
  split.
  { intros env. destruct (getOverview_returns env s) as [r Hr].
    exists r. split; [exact Hr|].
    apply getOverview_fields in Hr as (Hn & Htop & Hactive).
    split; [|split; [exact Hn | exact Hactive]].
    intros e He. rewrite Htop in He. by apply rankUsers_from_user_role in He. }
  split; [done|]. split; [|split; [done|]].
  2:{ intros now.
      destruct (newSetSize_distinct (CheckIn.userId <$> checkIns s))
        as (ids & Hnd & Hin & Hsz).
      exists ids. split; [done|]. split; [|done].
      intros id. rewrite Hin, list_elem_of_fmap. split.
      - intros (e & -> & He). by exists e.
      - intros (e & He & <-). by exists e. }
  intros s2 Hsame. split; [|split].
  - intros q. unfold getLeaderboard, rankUsers. by rewrite Hsame.
  - intros now. simpl. by rewrite Hsame.
  - intros env.
    destruct (getOverview_returns env s) as [r Hr].
    destruct (getOverview_returns env s2) as [r2 Hr2].
    exists r, r2. split; [exact Hr|]. split; [exact Hr2|].
    apply getOverview_fields in Hr as (Hn & Htop & _).
    apply getOverview_fields in Hr2 as (Hn2 & Htop2 & _).
    rewrite Hn, Hn2, Htop, Htop2. unfold rankUsers. by rewrite Hsame.
Qed.

(** The store in which the administrator checked in on the tea card holds
    no account of role [user]: the overview and the user activity count
    no user, and one active user. *)
Lemma storeRoot_views :
  users storeRoot
    = [("user-r", User.mk "user-r" "root@example.com" "$2b$10$hash-r" "Root" RoleAdmin
                          10 1700000001000 1700000003000)] ∧
  checkIns storeRoot
    = [CheckIn.mk "event-1" "user-r" teaId "business-user-s" 10 1700000003000
                  None None] ∧
  (∃ r, getOverview (OverviewEnv.mk 1700000004000 1700000004000 1700000004000) storeRoot
          = Some r ∧
        AnalyticsResponse.totalUsers r = 0%nat ∧
        AnalyticsResponse.topUsers r = [] ∧
        AnalyticsResponse.activeUsers r = 1%nat) ∧
  UserActivity.totalUsers (getUserActivity 1700000004000 storeRoot) = 0%nat ∧
  UserActivity.usersWithCheckIns (getUserActivity 1700000004000 storeRoot) = 1%nat.
Proof.
  split; [reflexivity|]. split; [reflexivity|]. split; [|split; reflexivity].
  destruct (getOverview_returns
              (OverviewEnv.mk 1700000004000 1700000004000 1700000004000) storeRoot)
    as [r Hr].
  exists r. split; [exact Hr|].
  apply getOverview_fields in Hr as (-> & -> & ->).
  split; [reflexivity|]. split; reflexivity.
Qed.

(** The administrator who checked in is counted by the user activity,
    which counts no account of role [user]. *)
Lemma user_activity_counts_other_roles :
  ¬ (∀ now s,
       UserActivity.usersWithCheckIns (getUserActivity now s)
         = newSetSize (CheckIn.userId <$> checkInsOfUsers s)).
Proof.
  intros Hall. specialize (Hall 1700000004000 storeRoot).
  vm_compute in Hall. discriminate Hall.
Qed.

(* ===================================================================== *)
(** * More facts about [JsMap]: keys without repetition *)
(* ===================================================================== *)

Section jsmap_keys.
Context {K V : Type} `{EqDecision K}.
Implicit Types (k : K) (v : V) (m : JsMap.t K V).

Lemma JsMap_keys_set k v m :
  JsMap.keys (JsMap.set k v m) =
    if JsMap.has k m then JsMap.keys m else JsMap.keys m ++ [k].
Proof.
  unfold JsMap.has.
  destruct (JsMap.get k m) as [v0|] eqn:Hg.
  - apply JsMap_keys_set_present. by rewrite Hg.
  - rewrite (JsMap_set_absent _ _ _ Hg). unfold JsMap.keys. by rewrite fmap_app.
Qed.

Lemma JsMap_set_NoDup k v m :
  NoDup (JsMap.keys m) → NoDup (JsMap.keys (JsMap.set k v m)).
Proof.
  intros Hnd. rewrite JsMap_keys_set. unfold JsMap.has.
  destruct (JsMap.get k m) as [v0|] eqn:Hg; [done|].
  apply NoDup_app. split; [done|]. split; [|apply NoDup_singleton].
  intros x Hx Hx'. apply list_elem_of_singleton in Hx' as ->.
  by apply JsMap_get_None_keys in Hg.
Qed.

Lemma JsMap_delete_sublist k m :
  JsMap.keys (JsMap.delete k m).2 `sublist_of` JsMap.keys m.
Proof.
  unfold JsMap.keys. induction m as [|[k0 v0] m IH]; simpl; [done|].
  destruct (decide (k = k0)) as [->|Hne]; simpl.
  - by apply sublist_cons.
  - destruct (JsMap.delete k m) as [b r]. simpl in *. by apply sublist_skip.
Qed.

Lemma JsMap_delete_NoDup k m :
  NoDup (JsMap.keys m) → NoDup (JsMap.keys (JsMap.delete k m).2).
Proof. intros Hnd. eapply sublist_NoDup; [exact Hnd | apply JsMap_delete_sublist]. Qed.

(** After [delete], the key is gone. *)
Lemma JsMap_get_delete_eq k m :
  NoDup (JsMap.keys m) → JsMap.get k (JsMap.delete k m).2 = None.
Proof.
  unfold JsMap.keys. induction m as [|[k0 v0] m IH]; simpl; [done|].
  intros Hnd. apply NoDup_cons in Hnd as [Hk0 Hnd].
  destruct (decide (k = k0)) as [->|Hne]; simpl.
  - by apply JsMap_get_None_keys.
  - destruct (JsMap.delete k m) as [b r] eqn:E. simpl in *.
    rewrite decide_False by done. by apply IH.
Qed.

(** The flag of [delete] tells whether the key was there. *)
Lemma JsMap_delete_flag k m :
  (JsMap.delete k m).1 = JsMap.has k m.
Proof.
  unfold JsMap.has. induction m as [|[k0 v0] m IH]; simpl; [done|].
  destruct (decide (k = k0)) as [->|Hne]; simpl; [done|].
  destruct (JsMap.delete k m) as [b r]. simpl in *. done.
Qed.

(** Deleting the key that was just added to a map without it gives the
    map back. *)
Lemma JsMap_delete_set_absent k v m :
  JsMap.get k m = None → JsMap.delete k (JsMap.set k v m) = (true, m).
Proof.
  induction m as [|[k0 v0] m IH]; simpl.
  - intros _. by rewrite decide_True.
  - destruct (decide (k = k0)) as [->|Hne]; [done|].
    intros Hg. simpl. rewrite decide_False by done. by rewrite (IH Hg).
Qed.

Lemma JsMap_get_elem_NoDup k v m :
  NoDup (JsMap.keys m) → (k, v) ∈ m → JsMap.get k m = Some v.
Proof.
  unfold JsMap.keys. induction m as [|[k0 v0] m IH]; simpl.
  - intros _ Hin. by apply elem_of_nil in Hin.
  - intros Hnd Hin. apply NoDup_cons in Hnd as [Hk0 Hnd].
    apply elem_of_cons in Hin as [[= -> ->]|Hin].
    + by rewrite decide_True.
    + destruct (decide (k = k0)) as [->|Hne]; [|by apply IH].
      exfalso. apply Hk0. apply list_elem_of_fmap. by exists (k0, v).
Qed.

End jsmap_keys.

(* ===================================================================== *)
(** * Every writing route, and what all of them keep *)
(* ===================================================================== *)

(** What the routes keep, however their steps interleave: no map holds a
    key twice, an account and a card are stored under their own id, and
    every event carries ten points. *)
Record storeInv (s : DataStore) : Prop := mkStoreInv {
  inv_users_keys : NoDup (JsMap.keys (users s));
  inv_cards_keys : NoDup (JsMap.keys (cards s));
  inv_wallet_keys : NoDup (JsMap.keys (userCards s));
  inv_users_keyed : ∀ k u, (k, u) ∈ users s → User.id u = k;
  inv_cards_keyed : ∀ k c, (k, c) ∈ cards s → Card.id c = k;
  inv_points : Forall (λ e, CheckIn.pointsEarned e = 10) (checkIns s);
}.

(** No two accounts share an email: kept as long as no registration is
    overlapped by another step. *)
Definition emailsUnique (s : DataStore) : Prop :=
  NoDup (User.email <$> getAllUsers s).

Section jsmap_elements.
Context {K V : Type} `{EqDecision K}.
Implicit Types (k : K) (v : V) (m : JsMap.t K V).

Lemma JsMap_elem_of_set x k v m :
  x ∈ JsMap.set k v m → x = (k, v) ∨ x ∈ m.
Proof.
  induction m as [|[k0 v0] m IH]; simpl.
  - intros Hx. apply list_elem_of_singleton in Hx. by left.
  - destruct (decide (k = k0)) as [->|Hne].
    + intros Hx. apply elem_of_cons in Hx as [->|Hx]; [by left|].
      right. by apply list_elem_of_further.
    + intros Hx. apply elem_of_cons in Hx as [->|Hx].
      * right. apply list_elem_of_here.
      * destruct (IH Hx) as [->|Hm]; [by left|].
        right. by apply list_elem_of_further.
Qed.

Lemma JsMap_elem_of_delete x k m : x ∈ (JsMap.delete k m).2 → x ∈ m.
Proof.
  induction m as [|[k0 v0] m IH]; simpl; [done|].
  destruct (decide (k = k0)) as [->|Hne]; simpl.
  - intros Hx. by apply list_elem_of_further.
  - destruct (JsMap.delete k m) as [b r]. simpl in *.
    intros Hx. apply elem_of_cons in Hx as [->|Hx].
    + apply list_elem_of_here.
    + apply list_elem_of_further. by apply IH.
Qed.

(** Replacing the value of a key by one with the same image under [f]
    leaves the images of the values as they are. *)
Lemma JsMap_fmap_values_set_same {B} (f : V → B) k v u m :
  JsMap.get k m = Some u → f v = f u →
  f <$> JsMap.values (JsMap.set k v m) = f <$> JsMap.values m.
Proof.
  unfold JsMap.values. intros Hg Hf.
  induction m as [|[k0 v0] m IH]; simpl in *; [done|].
  destruct (decide (k = k0)) as [->|Hne]; simpl.
  - injection Hg as ->. by rewrite Hf.
  - f_equal. by apply IH.
Qed.

(** Writing a value whose image under [f] is new keeps the images
    distinct. *)
Lemma JsMap_NoDup_fmap_values_set {B} (f : V → B) k v m :
  NoDup (f <$> JsMap.values m) →
  (∀ x, x ∈ JsMap.values m → f x ≠ f v) →
  NoDup (f <$> JsMap.values (JsMap.set k v m)).
Proof.
  unfold JsMap.values. induction m as [|[k0 v0] m IH]; simpl.
  - intros _ _. apply NoDup_singleton.
  - intros Hnd Hnew. apply NoDup_cons in Hnd as [Hv0 Hnd].
    destruct (decide (k = k0)) as [->|Hne]; simpl.
    + apply NoDup_cons. split; [|done].
      intros Hin. apply list_elem_of_fmap in Hin as (x & Hfx & Hx).
      apply (Hnew x); [by apply list_elem_of_further | done].
    + apply NoDup_cons. split.
      * intros Hin. apply list_elem_of_fmap in Hin as (x & Hfx & Hx).
        apply list_elem_of_fmap in Hx as ([k1 v1] & -> & Hx).
        apply JsMap_elem_of_set in Hx as [[= -> ->]|Hx]; simpl in *.
        -- apply (Hnew v0); [apply list_elem_of_here | done].
        -- apply Hv0. rewrite Hfx. apply list_elem_of_fmap. exists v1.
           split; [done|]. apply list_elem_of_fmap. by exists (k1, v1).
      * apply IH; [done|]. intros x Hx. apply Hnew. by apply list_elem_of_further.
Qed.

End jsmap_elements.

Lemma getUserByEmail_None email s :
  getUserByEmail email s = None →
  ∀ u, u ∈ getAllUsers s → User.email u ≠ email.
Proof.
  unfold getUserByEmail, getAllUsers. intros Hfind u Hu Heq.
  apply list_elem_of_In in Hu.
  pose proof (find_none _ _ Hfind u Hu) as Hb. simpl in Hb.
  by rewrite bool_decide_eq_false in Hb.
Qed.

Lemma getUserByEmail_Some email s u :
  getUserByEmail email s = Some u → u ∈ getAllUsers s ∧ User.email u = email.
Proof.
  unfold getUserByEmail, getAllUsers. intros Hfind.
  apply find_some in Hfind as [Hin Hb]. simpl in Hb.
  rewrite bool_decide_eq_true in Hb. split; [by apply list_elem_of_In | done].
Qed.

Lemma inv_createUser user s : storeInv s → storeInv (createUser user s).2.
Proof.
  intros []. constructor; simpl; try done.
  - by apply JsMap_set_NoDup.
  - intros k u Hin. apply JsMap_elem_of_set in Hin as [[= -> ->]|Hin]; eauto.
Qed.

Lemma emailsUnique_createUser user s :
  emailsUnique s →
  (∀ u, u ∈ getAllUsers s → User.email u ≠ User.email user) →
  emailsUnique (createUser user s).2.
Proof. intros Hnd Hnew. by apply (JsMap_NoDup_fmap_values_set User.email). Qed.

(** An update of an account that does not name [id]. *)
Lemma inv_updateUser id updates now s :
  PartialUser.id updates = None →
  storeInv s → storeInv (updateUser id updates now s).2.
Proof.
  intros Hid Hinv. unfold updateUser.
  destruct (JsMap.get id (users s)) as [user|] eqn:Hu; [|done].
  destruct Hinv. constructor; simpl; try done.
  - by apply JsMap_set_NoDup.
  - intros k u Hin. apply JsMap_elem_of_set in Hin as [[= -> ->]|Hin]; eauto.
    unfold mergeUser. simpl. rewrite Hid. simpl.
    apply inv_users_keyed0. by apply JsMap_get_Some_elem.
Qed.

(** An update of an account that does not name [email]. *)
Lemma emailsUnique_updateUser id updates now s :
  PartialUser.email updates = None →
  emailsUnique s → emailsUnique (updateUser id updates now s).2.
Proof.
  intros Hemail Hnd. unfold updateUser.
  destruct (JsMap.get id (users s)) as [user|] eqn:Hu; [|done].
  unfold emailsUnique, getAllUsers. simpl.
  rewrite (JsMap_fmap_values_set_same User.email id _ user); [done..|].
  unfold mergeUser. simpl. by rewrite Hemail.
Qed.

Lemma inv_createCard card s : storeInv s → storeInv (createCard card s).2.
Proof.
  intros []. constructor; simpl; try done.
  - by apply JsMap_set_NoDup.
  - intros k c Hin. apply JsMap_elem_of_set in Hin as [[= -> ->]|Hin]; eauto.
Qed.

Lemma inv_updateCard id updates now s :
  PartialCard.id updates = None →
  storeInv s → storeInv (updateCard id updates now s).2.
Proof.
  intros Hid Hinv. unfold updateCard.
  destruct (JsMap.get id (cards s)) as [card|] eqn:Hc; [|done].
  destruct Hinv. constructor; simpl; try done.
  - by apply JsMap_set_NoDup.
  - intros k c Hin. apply JsMap_elem_of_set in Hin as [[= -> ->]|Hin]; eauto.
    unfold mergeCard. simpl. rewrite Hid. simpl.
    apply inv_cards_keyed0. by apply JsMap_get_Some_elem.
Qed.

Lemma inv_deleteCard id s : storeInv s → storeInv (deleteCard id s).2.
Proof.
  intros []. unfold deleteCard.
  pose proof (JsMap_delete_NoDup id (cards s) inv_cards_keys0) as Hnd.
  pose proof (λ x, JsMap_elem_of_delete x id (cards s)) as Hsub.
  destruct (JsMap.delete id (cards s)) as [b m]. simpl in *.
  constructor; simpl; try done. intros k c Hin. eauto.
Qed.

Lemma inv_addCardToUser userCard s :
  storeInv s → storeInv (addCardToUser userCard s).2.
Proof.
  intros []. constructor; simpl; try done. by apply JsMap_set_NoDup.
Qed.

Lemma inv_updateUserCard userId cardId updates s :
  storeInv s → storeInv (updateUserCard userId cardId updates s).2.
Proof.
  intros Hinv. unfold updateUserCard.
  destruct (JsMap.get _ (userCards s)); [|done].
  destruct Hinv. constructor; simpl; try done. by apply JsMap_set_NoDup.
Qed.

Lemma inv_removeCardFromUser userId cardId s :
  storeInv s → storeInv (removeCardFromUser userId cardId s).2.
Proof.
  intros []. unfold removeCardFromUser.
  pose proof (JsMap_delete_NoDup (userCardKey userId cardId) (userCards s)
                inv_wallet_keys0) as Hnd.
  destruct (JsMap.delete _ (userCards s)) as [b m]. simpl in *.
  by constructor.
Qed.

Lemma inv_createCheckIn e s :
  CheckIn.pointsEarned e = 10 → storeInv s → storeInv (createCheckIn e s).2.
Proof.
  intros He []. constructor; simpl; try done.
  apply Forall_app. split; [done|]. by constructor.
Qed.

Lemma newDataStore_inv now : storeInv (newDataStore now).
Proof.
  constructor.
  - vm_compute. constructor.
  - refine (bool_decide_unpack _ _). by vm_compute.
  - vm_compute. constructor.
  - intros k u Hin. vm_compute in Hin. by apply elem_of_nil in Hin.
  - assert (Forall (λ p, Card.id p.2 = p.1) (cards (newDataStore now))) as Hall
      by (vm_compute; repeat constructor).
    intros k c Hin. by apply (proj1 (Forall_forall _ _) Hall (k, c)).
  - vm_compute. constructor.
Qed.

Lemma handle_inv {V : UuidCheck} r s : storeInv s → storeInv (handle r s).
Proof.
  intros Hinv.
  destruct r as [env body | env validated | env reqUser id | reqUser id
                | env reqUser body]; simpl.
  - unfold postRegister, registerLookup. destruct body as [validated|]; [|done].
    destruct (getUserByEmail _ s) eqn:Hemail; [done|].
    exact (inv_createUser (User.mk _ _ _ _ _ _ _ _) s Hinv).
  - exact (inv_createUser (User.mk _ _ _ _ _ _ _ _) s Hinv).
  - unfold postAddCard. destruct reqUser; [|done].
    destruct (getCardById id s) as [card|]; [|done].
    destruct (Card.isActive card); simpl; [|done].
    destruct (getUserCard _ id s); [done|].
    exact (inv_addCardToUser (UserCard.mk _ _ _ _ _) s Hinv).
  - unfold deleteRemoveCard. destruct reqUser as [user|]; [|done].
    pose proof (inv_removeCardFromUser (JwtPayload.userId user) id s Hinv) as H1.
    destruct (removeCardFromUser _ id s) as [[] s1]; done.
  - destruct (postCheckIn_cases env reqUser body s)
      as [(status & error & ->)
         | (user & validated & card & userCard & -> & -> & Hv & Hc & Ha & Hw)];
      [done|].
    rewrite (postCheckIn_accepted _ _ _ _ _ _ Hv Hc Ha Hw).
    destruct (getUserById (JwtPayload.userId user) s) as [u|] eqn:Hu; simpl.
    + unfold getUserById in Hu. destruct Hinv. constructor; simpl; try done.
      * by apply JsMap_set_NoDup.
      * by apply JsMap_set_NoDup.
      * intros k u' Hin. apply JsMap_elem_of_set in Hin as [[= -> ->]|Hin]; eauto.
        simpl. apply inv_users_keyed0. by apply JsMap_get_Some_elem.
      * apply Forall_app. split; [done|]. by constructor.
    + by apply (inv_createCheckIn _ s).
Qed.

Lemma serve_inv {V : UuidCheck} r s : storeInv s → storeInv (serve r s).
Proof.
  intros Hinv. destruct r as [r | env reqUser body | now reqUser id body | reqUser id]; simpl.
  - by apply handle_inv.
  - unfold postCard. destruct (requireRole _ reqUser); [done|].
    destruct body; [|done]. exact (inv_createCard (Card.mk _ _ _ _ _ _ _ _ _ _) s Hinv).
  - unfold putCard. destruct (requireRole _ reqUser); [done|].
    destruct body as [validated|]; [|done].
    destruct (getCardById id s) as [card|]; [|done].
    destruct (foreignCard reqUser card); [done|].
    pose proof (inv_updateCard id (cardUpdates validated) now s eq_refl Hinv) as H1.
    by destruct (updateCard id (cardUpdates validated) now s).
  - unfold deleteCardRoute. destruct (requireRole _ reqUser); [done|].
    pose proof (inv_deleteCard id s Hinv) as H1.
    by destruct (deleteCard id s) as [[] s1].
Qed.

Lemma serveAll_inv {V : UuidCheck} rs s : storeInv s → storeInv (serveAll rs s).
Proof.
  revert s. induction rs as [|r rs IH]; intros s Hinv; simpl; [done|].
  by apply IH, serve_inv.
Qed.

(* ===================================================================== *)
(** * The wallet *)
(* ===================================================================== *)

Lemma withUserCards_same s : withUserCards (userCards s) s = s.
Proof. by destruct s. Qed.

(** A [201] of the add route: the card is in the store and active, the
    wallet had no entry, and the entry is stored under the key of the
    pair. *)
Lemma postAddCard_created_inv env reqUser id s st body s1 :
  postAddCard env reqUser id s = (Json st body, s1) →
  ∃ user card,
    reqUser = Some user ∧
    getCardById id s = Some card ∧ Card.isActive card = true ∧
    getUserCard (JwtPayload.userId user) id s = None ∧
    st = 201 ∧
    body = (UserCard.mk (AddCardEnv.uuid env) (JwtPayload.userId user) id
                        (AddCardEnv.now env) None, card) ∧
    s1 = withUserCards
           (JsMap.set (userCardKey (JwtPayload.userId user) id) body.1 (userCards s)) s.
Proof.
  unfold postAddCard. destruct reqUser as [user|]; [|done].
  destruct (getCardById id s) as [card|] eqn:Hc; [|done].
  destruct (Card.isActive card) eqn:Ha; simpl; [|done].
  destruct (getUserCard _ id s) eqn:Hw; [done|].
  intros [= <- <- <-]. by exists user, card.
Qed.

(** X1.  A card that was added to a wallet cannot be added again: the
    second request of the same user for the same card is answered
    [400 Card already in wallet] and changes nothing; the wallet holds the
    entry made by the first request, without a last check-in. *)
Theorem wallet_add_twice_is_rejected
    (env env' : AddCardEnv.t) (user : JwtPayload.t) (id : string)
    (s s1 : DataStore) (st : Z) (body : UserCard.t * Card.t) :
  postAddCard env (Some user) id s = (Json st body, s1) →
  postAddCard env' (Some user) id s1 = (AlreadyInWallet, s1) ∧
  getUserCard (JwtPayload.userId user) id s1 = Some body.1 ∧
  UserCard.addedAt body.1 = AddCardEnv.now env ∧
  UserCard.lastCheckIn body.1 = None.
Proof.
  intros Hadd.
  apply postAddCard_created_inv in Hadd
    as (user' & card & [= <-] & Hc & Ha & Hw & -> & -> & ->).
  cbn [fst].
  set (uc := UserCard.mk _ _ _ _ _).
  set (s1 := withUserCards _ s).
  assert (getUserCard (JwtPayload.userId user) id s1 = Some uc) as Hget
    by apply JsMap_get_set_eq.
  split; [|done].
  unfold postAddCard. rewrite Hget.
  change (getCardById id s1) with (getCardById id s).
  by rewrite Hc, Ha.
Qed.

Lemma wallet_add_twice_witness :
  postAddCard (AddCardEnv.mk "wallet-a-2" 1700000007000) (Some alice) teaId
    storeWallet = (AlreadyInWallet, storeWallet).
Proof.
  refine (proj1 (wallet_add_twice_is_rejected
                   (AddCardEnv.mk "wallet-a-1" 1700000002000) _ alice teaId
                   storeTea storeWallet 201
                   (UserCard.mk "wallet-a-1" "user-a" teaId 1700000002000 None,
                    teaCard) _)).
  vm_compute. reflexivity.
Defined.

(** X2.  Removing a card right after it was added gives back the store as
    it was before the add, and is answered [200]. *)
Theorem wallet_add_then_remove_restores_store
    (env : AddCardEnv.t) (user : JwtPayload.t) (id : string)
    (s s1 : DataStore) (st : Z) (body : UserCard.t * Card.t) :
  postAddCard env (Some user) id s = (Json st body, s1) →
  deleteRemoveCard (Some user) id s1 = (Json 200 "Card removed from wallet", s).
Proof.
  intros Hadd.
  apply postAddCard_created_inv in Hadd
    as (user' & card & [= <-] & Hc & Ha & Hw & -> & -> & ->).
  unfold deleteRemoveCard, removeCardFromUser. simpl.
  rewrite JsMap_delete_set_absent by exact Hw. simpl.
  by destruct s.
Qed.

Lemma wallet_add_then_remove_witness :
  deleteRemoveCard (Some alice) teaId storeWallet
    = (Json 200 "Card removed from wallet", storeTea).
Proof.
  refine (wallet_add_then_remove_restores_store
            (AddCardEnv.mk "wallet-a-1" 1700000002000) alice teaId
            storeTea storeWallet 201
            (UserCard.mk "wallet-a-1" "user-a" teaId 1700000002000 None,
             teaCard) _).
  vm_compute. reflexivity.
Defined.

(** X3.  In every store that the routes reach from a new store, once a
    user removes a card from the wallet the entry is gone: a second removal
    is answered [404 Card not in wallet], and a check-in of the user on
    that card is refused with an error and appends nothing; the removal
    itself keeps the accounts, their points and the log. *)
Theorem wallet_remove_blocks_checkin {V : UuidCheck}
    (now : Date) (rs : list ApiRequest) (user : JwtPayload.t) (id : string) :
  let s := serveAll rs (newDataStore now) in
  let s1 := (deleteRemoveCard (Some user) id s).2 in
  getUserCard (JwtPayload.userId user) id s1 = None ∧
  deleteRemoveCard (Some user) id s1 = (CardNotInWallet, s1) ∧
  (∀ env location metadata,
     ∃ status error,
       postCheckIn env (Some user) (Some (CheckInRequest.mk id location metadata)) s1
         = (Err status error, s1)) ∧
  users s1 = users s ∧ checkIns s1 = checkIns s ∧ cards s1 = cards s.
Proof.
  intros s s1.
  assert (storeInv s) as Hinv by apply serveAll_inv, newDataStore_inv.
  assert (getUserCard (JwtPayload.userId user) id s1 = None) as Hgone.
  { unfold s1, deleteRemoveCard, removeCardFromUser, getUserCard.
    pose proof (JsMap_get_delete_eq (userCardKey (JwtPayload.userId user) id)
                  (userCards s) (inv_wallet_keys s Hinv)) as Hdel.
    destruct (JsMap.delete _ (userCards s)) as [[] m]; simpl in *; done. }
  split; [done|]. split; [|split].
  - unfold deleteRemoveCard at 1, removeCardFromUser.
    unfold getUserCard in Hgone. rewrite (JsMap_delete_absent _ _ Hgone).
    simpl. by rewrite withUserCards_same.
  - intros env location metadata.
    destruct (postCheckIn_cases env (Some user)
                (Some (CheckInRequest.mk id location metadata)) s1)
      as [Herr | (user' & validated & card & userCard & [= <-] & [= <-] & _ & _ & _ & Hw)];
      [done|].
    simpl in Hw. congruence.
  - unfold s1, deleteRemoveCard, removeCardFromUser.
    by destruct (JsMap.delete _ (userCards s)) as [[] m].
Qed.

Lemma append_inj_same_length (a b c d : string) :
  String.length a = String.length b → a +:+ c = b +:+ d → a = b ∧ c = d.
Proof.
  revert b. induction a as [|x a IH]; intros [|y b]; simpl; try done.
  intros [= Hlen] [= -> Hrest]. by destruct (IH b Hlen Hrest) as [-> ->].
Qed.

Lemma userCardKey_inj_same_length u1 c1 u2 c2 :
  String.length u1 = String.length u2 →
  userCardKey u1 c1 = userCardKey u2 c2 → u1 = u2 ∧ c1 = c2.
Proof.
  unfold userCardKey. intros Hlen Hkey.
  destruct (append_inj_same_length _ _ _ _ Hlen Hkey) as [-> Hrest].
  injection Hrest as Hc. change (c1 = c2) in Hc. by rewrite Hc.
Qed.

(** X4.  For two user ids of the same length (a [uuidv4()] always has 36
    characters), the key [`${userId}-${cardId}`] tells the pairs apart:
    adding, updating or removing the wallet entry of one (user, card) pair
    changes the entry of no other pair. *)
Theorem wallet_entries_are_separate (u1 c1 u2 c2 : string) (s : DataStore) :
  String.length u1 = String.length u2 →
  (u1, c1) ≠ (u2, c2) →
  (∀ userCard, UserCard.userId userCard = u1 → UserCard.cardId userCard = c1 →
     getUserCard u2 c2 (addCardToUser userCard s).2 = getUserCard u2 c2 s) ∧
  (∀ updates,
     getUserCard u2 c2 (updateUserCard u1 c1 updates s).2 = getUserCard u2 c2 s) ∧
  getUserCard u2 c2 (removeCardFromUser u1 c1 s).2 = getUserCard u2 c2 s.
Proof.
  intros Hlen Hpair.
  assert (userCardKey u1 c1 ≠ userCardKey u2 c2) as Hkey.
  { intros Heq. apply Hpair.
    by destruct (userCardKey_inj_same_length _ _ _ _ Hlen Heq) as [-> ->]. }
  split; [|split].
  - intros userCard <- <-. unfold getUserCard, addCardToUser. simpl.
    by apply JsMap_get_set_ne.
  - intros updates. unfold getUserCard, updateUserCard.
    destruct (JsMap.get (userCardKey u1 c1) (userCards s)); [|done]. simpl.
    by apply JsMap_get_set_ne.
  - unfold getUserCard, removeCardFromUser.
    pose proof (JsMap_get_delete_ne (userCardKey u1 c1) (userCardKey u2 c2)
                  (userCards s) Hkey) as Hdel.
    by destruct (JsMap.delete (userCardKey u1 c1) (userCards s)).
Qed.

Lemma wallet_entries_are_separate_witness :
  getUserCard "user-a" teaId (removeCardFromUser "user-b" teaId storeWallet).2
    = getUserCard "user-a" teaId storeWallet.
Proof.
  refine (proj2 (proj2 (wallet_entries_are_separate
                          "user-b" teaId "user-a" teaId storeWallet _ _))).
  - reflexivity.
  - discriminate.
Defined.

(** X23.  The demo cards of a new store can be added to a wallet, but no
    check-in on them is ever recorded: their ids ([card-1], [card-2],
    [card-3]) are not UUIDs, so that, for a test of the schema that
    refuses them, the check-in route answers [400 Validation failed] in
    every store, whether the card is in the wallet or not, and changes
    nothing. *)
Theorem demo_cards_refuse_checkin {V : UuidCheck} (now : Date) (card : Card.t) :
  card ∈ demoCards now →
  isUuid (Card.id card) = false →
  (∀ env user,
     postAddCard env (Some user) (Card.id card) (newDataStore now)
       = (Json 201 (UserCard.mk (AddCardEnv.uuid env) (JwtPayload.userId user)
                                (Card.id card) (AddCardEnv.now env) None, card),
          (addCardToUser
             (UserCard.mk (AddCardEnv.uuid env) (JwtPayload.userId user)
                          (Card.id card) (AddCardEnv.now env) None)
             (newDataStore now)).2)) ∧
  (∀ env user location metadata s,
     postCheckIn env (Some user)
       (Some (CheckInRequest.mk (Card.id card) location metadata)) s
     = (ValidationFailed, s)).
Proof.
  intros Hcard Hv. split.
  - intros env user. unfold demoCards in Hcard.
    repeat (apply elem_of_cons in Hcard as [-> | Hcard]); [done..|].
    by apply elem_of_nil in Hcard.
  - intros env user location metadata s. apply postCheckIn_invalid.
    unfold checkInSchema. simpl. by rewrite Hv.
Qed.

(** Alice adds the coffee card of the new store to her wallet; her
    check-in on it is refused by the schema. *)
Lemma demo_cards_refuse_checkin_witness :
  let s1 :=
    (postAddCard (AddCardEnv.mk "wallet-a-0" 1700000001200) (Some alice) "card-1"
       storeAlice).2 in
  getUserCard "user-a" "card-1" s1
    = Some (UserCard.mk "wallet-a-0" "user-a" "card-1" 1700000001200 None) ∧
  postCheckIn (V := uuidV4Text) checkInEnv1 (Some alice) (Some coffee) s1
    = (ValidationFailed, s1).
Proof.
  intros s1. split; [reflexivity|].
  refine (proj2 (demo_cards_refuse_checkin (V := uuidV4Text) 1700000000000
                   (Card.mk "card-1" "business-1" "Coffee Loyalty Card"
                      (Some "Buy 10 coffees, get 1 free!") (Some "☕") (Some "#6F4E37")
                      true None 1700000000000 1700000000000) _ _)
                checkInEnv1 alice None None s1).
  - apply list_elem_of_here.
  - reflexivity.
Defined.

(** Without the condition on the lengths two pairs can share a key. *)
Lemma userCardKey_collision : userCardKey "a-b" "c" = userCardKey "a" "b-c".
Proof. reflexivity. Qed.

(* ===================================================================== *)
(** * Accounts: registration, login, profile *)
(* ===================================================================== *)

Lemma NoDup_fmap_elem_inj {A B} (f : A → B) (l : list A) x y :
  NoDup (f <$> l) → x ∈ l → y ∈ l → f x = f y → x = y.
Proof.
  induction l as [|a l IH]; simpl; intros Hnd Hx Hy Hf.
  - by apply elem_of_nil in Hx.
  - apply NoDup_cons in Hnd as [Ha Hnd].
    apply elem_of_cons in Hx as [->|Hx]; apply elem_of_cons in Hy as [->|Hy].
    + done.
    + exfalso. apply Ha. rewrite Hf. by apply list_elem_of_fmap_2.
    + exfalso. apply Ha. rewrite <- Hf. by apply list_elem_of_fmap_2.
    + by apply IH.
Qed.

Lemma find_values_set {V} (P : V → bool) (k : string) (v : V) (m : JsMap.t string V) :
  (∀ x, x ∈ JsMap.values m → P x = false) → P v = true →
  find P (JsMap.values (JsMap.set k v m)) = Some v.
Proof.
  unfold JsMap.values. intros Hnone Hv.
  induction m as [|[k0 v0] m IH]; simpl.
  - by rewrite Hv.
  - destruct (decide (k = k0)) as [->|Hne]; simpl.
    + by rewrite Hv.
    + rewrite (Hnone v0) by apply list_elem_of_here.
      apply IH. intros x Hx. apply Hnone. by apply list_elem_of_further.
Qed.

(** A [201] of a registration that no other step overlaps: no account had
    the email, and the new account is written under the drawn id. *)
Lemma postRegister_created_inv env body s st r s1 :
  postRegister env body s = (Json st r, s1) →
  ∃ validated,
    body = Some validated ∧
    getUserByEmail (RegisterRequest.email validated) s = None ∧
    st = 201 ∧
    r = (RegisterEnv.token env,
         User.mk (RegisterEnv.uuid env) (RegisterRequest.email validated)
                 (RegisterEnv.hashedPassword env) (RegisterRequest.name validated)
                 (RegisterRequest.role validated) 0
                 (RegisterEnv.now1 env) (RegisterEnv.now2 env)) ∧
    s1 = withUsers (JsMap.set (RegisterEnv.uuid env) r.2 (users s)) s.
Proof.
  unfold postRegister, registerLookup. destruct body as [validated|]; [|done].
  destruct (getUserByEmail _ s) eqn:Hemail; [done|].
  intros [= <- <- <-]. by exists validated.
Qed.

(** A registration that finds its email free runs its second part on the
    store of the lookup when no other step overlaps it. *)
Lemma postRegister_free env validated s :
  getUserByEmail (RegisterRequest.email validated) s = None →
  registerLookup (Some validated) s = inr validated ∧
  postRegister env (Some validated) s = registerCreate env validated s.
Proof. unfold postRegister, registerLookup. by intros ->. Qed.

(** Every step but the second part of an overlapped registration keeps
    the emails distinct. *)
Lemma serve_emailsUnique {V : UuidCheck} r s :
  resumesRegistration r = false → emailsUnique s → emailsUnique (serve r s).
Proof.
  intros Hr Hnd.
  destruct r as [[env body | env validated | env reqUser id | reqUser id
                 | env reqUser body]
                | env reqUser body | now reqUser id body | reqUser id]; simpl.
  - unfold postRegister, registerLookup. destruct body as [validated|]; [|done].
    destruct (getUserByEmail _ s) eqn:Hemail; [done|].
    refine (emailsUnique_createUser (User.mk _ _ _ _ _ _ _ _) s Hnd _).
    by apply getUserByEmail_None.
  - discriminate Hr.
  - unfold postAddCard. destruct reqUser; [|done].
    destruct (getCardById id s) as [card|]; [|done].
    destruct (Card.isActive card); simpl; [|done].
    by destruct (getUserCard _ id s).
  - unfold deleteRemoveCard. destruct reqUser as [user|]; [|done].
    unfold removeCardFromUser. by destruct (JsMap.delete _ _) as [[] m].
  - destruct (postCheckIn_cases env reqUser body s)
      as [(status & error & ->)
         | (user & validated & card & userCard & -> & -> & Hv & Hc & Ha & Hw)];
      [done|].
    rewrite (postCheckIn_accepted _ _ _ _ _ _ Hv Hc Ha Hw).
    destruct (getUserById (JwtPayload.userId user) s) as [u|] eqn:Hu; simpl; [|done].
    unfold emailsUnique, getAllUsers. simpl.
    by rewrite (JsMap_fmap_values_set_same User.email _ _ u).
  - unfold postCard. destruct (requireRole _ reqUser); [done|]. by destruct body.
  - unfold putCard. destruct (requireRole _ reqUser); [done|].
    destruct body as [validated|]; [|done].
    destruct (getCardById id s) as [card|] eqn:Hc; [|done].
    destruct (foreignCard reqUser card); [done|].
    unfold updateCard. unfold getCardById in Hc. by rewrite Hc.
  - unfold deleteCardRoute. destruct (requireRole _ reqUser); [done|].
    unfold deleteCard. by destruct (JsMap.delete id (cards s)) as [[] m].
Qed.

Lemma serveAll_emailsUnique {V : UuidCheck} rs s :
  noOverlap rs = true → emailsUnique s → emailsUnique (serveAll rs s).
Proof.
  revert s. induction rs as [|r rs IH]; intros s Hrs Hnd; simpl; [done|].
  apply andb_prop in Hrs as [Hr Hrs]. apply negb_true_iff in Hr.
  apply IH; [done|]. by apply serve_emailsUnique.
Qed.

(** X5.  As long as no registration is overlapped by another step (no
    request is served while a registration awaits [bcrypt.hash]), no two
    accounts of a store that the routes reach from a new store share an
    email: the lookup by email of an account's email finds that account,
    and a registration with the email of an account is answered
    [400 Email already registered] and changes nothing. *)
Theorem emails_stay_unique {V : UuidCheck} (now : Date) (rs : list ApiRequest) :
  noOverlap rs = true →
  let s := serveAll rs (newDataStore now) in
  NoDup (User.email <$> getAllUsers s) ∧
  (∀ u, u ∈ getAllUsers s → getUserByEmail (User.email u) s = Some u) ∧
  (∀ u env validated,
     u ∈ getAllUsers s → RegisterRequest.email validated = User.email u →
     postRegister env (Some validated) s = (EmailTaken, s)).
Proof.
  intros Hrs s.
  assert (emailsUnique s) as Hnd.
  { apply serveAll_emailsUnique; [done|]. vm_compute. constructor. }
  assert (∀ u, u ∈ getAllUsers s → getUserByEmail (User.email u) s = Some u) as Hfind.
  { intros u Hu.
    destruct (getUserByEmail (User.email u) s) as [u'|] eqn:Hg.
    - apply getUserByEmail_Some in Hg as [Hu' Heq]. f_equal.
      by apply (NoDup_fmap_elem_inj User.email (getAllUsers s)).
    - by destruct (getUserByEmail_None _ _ Hg u Hu). }
  split; [done|]. split; [done|].
  intros u env validated Hu Hemail. unfold postRegister, registerLookup.
  by rewrite Hemail, (Hfind u Hu).
Qed.

Lemma emails_stay_unique_witness :
  postRegister
    (RegisterEnv.mk "$2b$10$hash-c" "user-c" 1700000007000 1700000007000 "jwt-c")
    (Some (RegisterRequest.mk "alice@example.com" "secret-c" "Alicia" RoleUser))
    storeAlice
  = (EmailTaken, storeAlice).
Proof.
  refine (proj2 (proj2 (emails_stay_unique (V := uuidV4Text) 1700000000000
            [ApiLedger (ReqRegister
               (RegisterEnv.mk "$2b$10$hash-a" "user-a" 1700000001000 1700000001000
                               "jwt-a")
               (Some (RegisterRequest.mk "alice@example.com" "secret-a" "Alice"
                                         RoleUser)))]
            eq_refl))
          (User.mk "user-a" "alice@example.com" "$2b$10$hash-a" "Alice" RoleUser 0
                   1700000001000 1700000001000)
          (RegisterEnv.mk "$2b$10$hash-c" "user-c" 1700000007000 1700000007000 "jwt-c")
          (RegisterRequest.mk "alice@example.com" "secret-c" "Alicia" RoleUser)
          _ eq_refl).
  apply list_elem_of_here.
Defined.

(** The lookup by email returns the first account, in the order of the
    map, that holds the email. *)
Lemma find_app_None {A} (P : A → bool) (l k : list A) :
  find P l = None → find P (l ++ k) = find P k.
Proof.
  induction l as [|x l IH]; simpl; [done|]. destruct (P x); [done | apply IH].
Qed.

(** X22.  Two registrations with one email overlap when each looks the
    email up before the other has written its account.  Both lookups find
    the email free, both registrations are answered [201], and the store
    then holds two accounts with that email, under the two ids drawn; the
    lookup by email, and so the login, finds the account written first. *)
Theorem overlapping_registrations_share_email {V : UuidCheck}
    (env1 env2 : RegisterEnv.t) (v1 v2 : RegisterRequest.t) (s : DataStore) :
  RegisterRequest.email v1 = RegisterRequest.email v2 →
  getUserByEmail (RegisterRequest.email v1) s = None →
  getUserById (RegisterEnv.uuid env1) s = None →
  getUserById (RegisterEnv.uuid env2) s = None →
  RegisterEnv.uuid env1 ≠ RegisterEnv.uuid env2 →
  let run1 := registerCreate env1 v1 s in
  let run2 := registerCreate env2 v2 run1.2 in
  registerLookup (Some v1) s = inr v1 ∧
  registerLookup (Some v2) s = inr v2 ∧
  run2.2 = handleAll [ReqRegisterCreate env1 v1; ReqRegisterCreate env2 v2] s ∧
  ∃ u1 u2,
    run1.1 = Json 201 (RegisterEnv.token env1, u1) ∧
    run2.1 = Json 201 (RegisterEnv.token env2, u2) ∧
    getAllUsers run2.2 = getAllUsers s ++ [u1; u2] ∧
    User.email u1 = RegisterRequest.email v1 ∧
    User.email u2 = RegisterRequest.email v1 ∧
    User.id u1 = RegisterEnv.uuid env1 ∧
    User.id u2 = RegisterEnv.uuid env2 ∧
    getUserByEmail (RegisterRequest.email v1) run2.2 = Some u1 ∧
    ¬ emailsUnique run2.2.
Proof.
  intros Hsame Hfree Hid1 Hid2 Hne run1 run2.
  split; [by apply postRegister_free|].
  split; [apply postRegister_free; [exact env2 | by rewrite <- Hsame]|].
  split; [done|].
  eexists _, _. split; [reflexivity|]. split; [reflexivity|].
  assert (getAllUsers run2.2 = getAllUsers s ++
            [User.mk (RegisterEnv.uuid env1) (RegisterRequest.email v1)
                     (RegisterEnv.hashedPassword env1) (RegisterRequest.name v1)
                     (RegisterRequest.role v1) 0
                     (RegisterEnv.now1 env1) (RegisterEnv.now2 env1);
             User.mk (RegisterEnv.uuid env2) (RegisterRequest.email v2)
                     (RegisterEnv.hashedPassword env2) (RegisterRequest.name v2)
                     (RegisterRequest.role v2) 0
                     (RegisterEnv.now1 env2) (RegisterEnv.now2 env2)]) as Husers.
  { unfold run2, run1, registerCreate, createUser, getAllUsers, JsMap.values. simpl.
    unfold getUserById in Hid1, Hid2.
    rewrite (JsMap_set_absent _ _ _ Hid1).
    rewrite JsMap_set_absent.
    - by rewrite !fmap_app, <- app_assoc.
    - rewrite <- (JsMap_set_absent _ _ _ Hid1).
      by rewrite JsMap_get_set_ne. }
  split; [exact Husers|].
  split; [reflexivity|]. split; [symmetry; exact Hsame|].
  split; [reflexivity|]. split; [reflexivity|].
  split.
  - unfold getUserByEmail. change (JsMap.values (users run2.2)) with (getAllUsers run2.2).
    rewrite Husers. rewrite find_app_None by exact Hfree. simpl.
    by rewrite bool_decide_eq_true_2.
  - unfold emailsUnique. rewrite Husers, fmap_app. simpl. rewrite Hsame.
    intros Hnd. apply NoDup_app in Hnd as (_ & _ & Hnd).
    apply NoDup_cons in Hnd as [Hin _]. apply Hin. apply list_elem_of_here.
Qed.

(** Carol and Carla register with one email, on the store with Alice's
    account; each lookup is made before either account is written. *)
Lemma overlapping_registrations_witness :
  ∃ u1 u2,
    getAllUsers
      (handleAll (V := uuidV4Text)
         [ReqRegisterCreate
            (RegisterEnv.mk "$2b$10$hash-c" "user-c" 1700000007000 1700000007000 "jwt-c")
            (RegisterRequest.mk "carol@example.com" "secret-c" "Carol" RoleUser);
          ReqRegisterCreate
            (RegisterEnv.mk "$2b$10$hash-d" "user-d" 1700000007001 1700000007001 "jwt-d")
            (RegisterRequest.mk "carol@example.com" "secret-d" "Carla" RoleUser)]
         storeAlice)
    = getAllUsers storeAlice ++ [u1; u2] ∧
    User.id u1 = "user-c" ∧ User.id u2 = "user-d" ∧
    User.email u1 = "carol@example.com" ∧ User.email u2 = "carol@example.com".
Proof.
  destruct (overlapping_registrations_share_email (V := uuidV4Text)
              (RegisterEnv.mk "$2b$10$hash-c" "user-c" 1700000007000 1700000007000
                              "jwt-c")
              (RegisterEnv.mk "$2b$10$hash-d" "user-d" 1700000007001 1700000007001
                              "jwt-d")
              (RegisterRequest.mk "carol@example.com" "secret-c" "Carol" RoleUser)
              (RegisterRequest.mk "carol@example.com" "secret-d" "Carla" RoleUser)
              storeAlice)
    as (_ & _ & Hrun & u1 & u2 & _ & _ & Husers & He1 & He2 & Hi1 & Hi2 & _);
    [reflexivity | reflexivity | reflexivity | reflexivity | discriminate |].
  exists u1, u2. rewrite <- Hrun. by repeat split.
Defined.

(** X6.  When a registration writes its account at a moment at which no
    account holds its email (so it is for a registration that no other
    step overlaps and that is answered [201]), a login with that email
    and a password that [bcrypt] accepts for the stored hash is answered
    [200] with a token signed for the id, the email and the role of the
    new account and with that account, which has no points; a password
    that [bcrypt] rejects is answered [401]; and the profile route returns
    the account to the principal of the token. *)
Theorem register_then_login
    (bcryptCompare : string → string → bool) (jwtSign : JwtPayload.t → string)
    (env : RegisterEnv.t) (validated : RegisterRequest.t) (s : DataStore) :
  getUserByEmail (RegisterRequest.email validated) s = None →
  let created := registerCreate env validated s in
  let principal :=
    JwtPayload.mk (RegisterEnv.uuid env) (RegisterRequest.email validated)
                  (RegisterRequest.role validated) in
  postRegister env (Some validated) s = created ∧
  ∃ newUser,
    created.1 = Json 201 (RegisterEnv.token env, newUser) ∧
    (∀ password,
       postLogin bcryptCompare jwtSign
         (Some (LoginRequest.mk (RegisterRequest.email validated) password)) created.2
       = if bcryptCompare password (RegisterEnv.hashedPassword env)
         then Json 200 (jwtSign principal, userWithoutPassword newUser)
         else Err 401 "Invalid email or password") ∧
    PublicUser.points (userWithoutPassword newUser) = 0 ∧
    getMe (Some principal) created.2 = Json 200 (userWithoutPassword newUser).
Proof.
  intros Hemail created principal.
  split; [by apply postRegister_free|].
  eexists. split; [reflexivity|].
  unfold created, registerCreate. cbn [snd createUser].
  set (newUser := User.mk _ _ _ _ _ _ _ _).
  set (s1 := withUsers _ s).
  assert (getUserByEmail (RegisterRequest.email validated) s1 = Some newUser) as Hfind.
  { unfold getUserByEmail, s1. simpl. apply find_values_set.
    - intros x Hx. apply bool_decide_eq_false.
      by apply (getUserByEmail_None _ s Hemail).
    - by apply bool_decide_eq_true. }
  split; [|split; [done|]].
  - intros password. unfold postLogin. simpl. rewrite Hfind. simpl.
    by destruct (bcryptCompare password (RegisterEnv.hashedPassword env)).
  - unfold getMe, getUserById, s1. simpl. by rewrite JsMap_get_set_eq.
Qed.

Lemma register_then_login_witness :
  postLogin (λ password hash, bool_decide (hash = "$2b$10$" +:+ password))
    (λ payload, "jwt-" +:+ JwtPayload.userId payload)
    (Some (LoginRequest.mk "alice@example.com" "hash-a")) storeAlice
  = Json 200 ("jwt-user-a",
              PublicUser.mk "user-a" "alice@example.com" "Alice" RoleUser 0
                            1700000001000 1700000001000).
Proof.
  destruct (register_then_login
              (λ password hash, bool_decide (hash = "$2b$10$" +:+ password))
              (λ payload, "jwt-" +:+ JwtPayload.userId payload)
              (RegisterEnv.mk "$2b$10$hash-a" "user-a" 1700000001000
                              1700000001000 "jwt-a")
              (RegisterRequest.mk "alice@example.com" "secret-a" "Alice" RoleUser)
              store0)
    as (_ & newUser & Hcreated & Hlogin & _); [reflexivity|].
  injection Hcreated as <-.
  exact (Hlogin "hash-a").
Defined.

(* ===================================================================== *)
(** * The management of the cards *)
(* ===================================================================== *)

Lemma businessIdOf_inj a b : businessIdOf a = businessIdOf b → a = b.
Proof.
  unfold businessIdOf. intros Heq.
  by destruct (append_inj_same_length "business-" "business-" a b eq_refl Heq).
Qed.

(** X7.  The routes that manage the cards refuse whom they must, and a
    refusal changes nothing: a principal of role [user] cannot create,
    update or delete a card ([403]), a principal of role [business] cannot
    delete one ([403]) and cannot update the card of another business
    ([403 You can only update your own cards]), and a request without
    principal is answered [401]. *)
Theorem card_management_refusals
    (env : CreateCardEnv.t) (now : Date) (id : string)
    (created : option CreateCardRequest.t) (updated : UpdateCardRequest.t)
    (s : DataStore) :
  (∀ user, JwtPayload.role user = RoleUser →
     postCard env (Some user) created s = (Err 403 "Insufficient permissions", s) ∧
     putCard now (Some user) id (Some updated) s
       = (Err 403 "Insufficient permissions", s) ∧
     deleteCardRoute (Some user) id s = (Err 403 "Insufficient permissions", s)) ∧
  (∀ user, JwtPayload.role user = RoleBusiness →
     deleteCardRoute (Some user) id s = (Err 403 "Insufficient permissions", s) ∧
     ∀ card, getCardById id s = Some card →
       Card.businessId card ≠ businessIdOf (JwtPayload.userId user) →
       putCard now (Some user) id (Some updated) s
         = (Err 403 "You can only update your own cards", s)) ∧
  postCard env None created s = (Err 401 "Authentication required", s) ∧
  putCard now None id (Some updated) s = (Err 401 "Authentication required", s) ∧
  deleteCardRoute None id s = (Err 401 "Authentication required", s).
Proof.
  split; [|split; [|done]].
  - intros user Hrole. unfold postCard, putCard, deleteCardRoute, requireRole.
    by rewrite Hrole.
  - intros user Hrole. split.
    + unfold deleteCardRoute, requireRole. by rewrite Hrole.
    + intros card Hc Hforeign. unfold putCard, requireRole. rewrite Hrole. simpl.
      rewrite Hc. unfold foreignCard. rewrite Hrole. simpl.
      by rewrite bool_decide_eq_false_2.
Qed.




(** X9.  In every store that the routes reach from a new store, after an
    administrator deletes a card the card is not found any more: the card
    route and the wallet add answer [404 Card not found], and so does the
    check-in route when the id passes its schema, as the id of a card
    that the card route created does; for any other id, such as the id of
    a demo card, the check-in route answers [400 Validation failed], as it
    did before the deletion.  The deletion removes only the card: the
    accounts, the log and the wallet entries stay, and the wallet route
    lists the entries of the deleted card without card. *)
Theorem card_delete_leaves_wallets_and_log {V : UuidCheck}
    (now : Date) (rs : list ApiRequest) (admin : JwtPayload.t) (id : string) :
  JwtPayload.role admin = RoleAdmin →
  let s := serveAll rs (newDataStore now) in
  let s1 := (deleteCardRoute (Some admin) id s).2 in
  getCardById id s1 = None ∧
  getCard id s1 = CardNotFound ∧
  (∀ env user location metadata,
     postCheckIn env (Some user) (Some (CheckInRequest.mk id location metadata)) s1
     = (if isUuid id then CardNotFound else ValidationFailed, s1)) ∧
  (∀ env user, postAddCard env (Some user) id s1 = (CardNotFound, s1)) ∧
  users s1 = users s ∧ checkIns s1 = checkIns s ∧ userCards s1 = userCards s ∧
  (∀ id', id' ≠ id → getCardById id' s1 = getCardById id' s) ∧
  (∀ user,
     getMyWallet (Some user) s1 =
       Json 200 ((λ uc, (uc, if decide (UserCard.cardId uc = id) then None
                             else getCardById (UserCard.cardId uc) s))
                   <$> getUserCards (JwtPayload.userId user) s)).
Proof.
  intros Hrole s s1.
  assert (storeInv s) as Hinv by apply serveAll_inv, newDataStore_inv.
  assert (cards s1 = (JsMap.delete id (cards s)).2 ∧ users s1 = users s ∧
          checkIns s1 = checkIns s ∧ userCards s1 = userCards s) as (Hcards & Hu & Hl & Hw).
  { unfold s1, deleteCardRoute, requireRole. rewrite Hrole. simpl.
    unfold deleteCard. by destruct (JsMap.delete id (cards s)) as [[] m]. }
  assert (getCardById id s1 = None) as Hgone.
  { unfold getCardById. rewrite Hcards.
    apply JsMap_get_delete_eq, (inv_cards_keys s Hinv). }
  assert (∀ id', id' ≠ id → getCardById id' s1 = getCardById id' s) as Hother.
  { intros id' Hne. unfold getCardById. rewrite Hcards.
    by apply JsMap_get_delete_ne. }
  split; [done|]. split; [unfold getCard; by rewrite Hgone|].
  split.
  { intros env user location metadata. unfold postCheckIn, checkInSchema. simpl.
    destruct (isUuid id); [|done]. simpl. by rewrite Hgone. }
  split; [intros; unfold postAddCard; by rewrite Hgone|].
  do 4 (split; [done|]).
  intros user. unfold getMyWallet, getUserCards. rewrite Hw. f_equal.
  apply list_fmap_ext. intros i uc _. f_equal.
  destruct (decide (UserCard.cardId uc = id)) as [->|Hne]; [done | by apply Hother].
Qed.

(** The administrator deletes the tea card of Alice's wallet: her next
    check-in is answered [404 Card not found]. *)
Lemma card_delete_witness :
  let s1 :=
    (deleteCardRoute (Some root) teaId
       (serveAll (V := uuidV4Text) walletRequests (newDataStore 1700000000000))).2 in
  postCheckIn (V := uuidV4Text) checkInEnv1 (Some alice) (Some tea) s1
    = (CardNotFound, s1).
Proof.
  exact (proj1 (proj2 (proj2
           (card_delete_leaves_wallets_and_log (V := uuidV4Text) 1700000000000
              walletRequests root teaId eq_refl)))
           checkInEnv1 alice None None).
Defined.

(* ===================================================================== *)
(** * The history of a user ([GET /checkins/my]) *)
(* ===================================================================== *)

Lemma StronglySorted_sublist {A} (R : relation A) (l1 l2 : list A) :
  l1 `sublist_of` l2 → StronglySorted R l2 → StronglySorted R l1.
Proof.
  induction 1 as [|x l1 l2 Hsub IH|x l1 l2 Hsub IH]; intros Hsorted.
  - constructor.
  - apply StronglySorted_inv in Hsorted as [Hs Hall]. constructor; [by apply IH|].
    apply Forall_forall. intros y Hy.
    apply (proj1 (Forall_forall _ _) Hall). by eapply elem_of_sublist.
  - apply StronglySorted_inv in Hsorted as [Hs _]. by apply IH.
Qed.

(** [slice(a, b)] for [0 <= a <= b]. *)
Lemma jsSlice_take_drop {A} (a b : Z) (l : list A) :
  0 ≤ a → a ≤ b →
  jsSlice a b l = take (Z.to_nat (b - a)) (drop (Z.to_nat a) l).
Proof.
  intros Ha Hab. unfold jsSlice. rewrite !decide_False by lia.
  destruct (decide (Z.of_nat (length l) ≤ a)) as [Hlen|Hlen].
  - rewrite (Z.min_r a) by lia. rewrite (Z.min_r b) by lia.
    rewrite Nat2Z.id, drop_all, (drop_ge l (Z.to_nat a)) by lia.
    by rewrite !take_nil.
  - rewrite (Z.min_l a) by lia.
    destruct (decide (b ≤ Z.of_nat (length l))).
    + by rewrite Z.min_l by lia.
    + rewrite Z.min_r by lia.
      rewrite !take_ge; [done | rewrite length_drop; lia | rewrite length_drop; lia].
Qed.

(** The events of a user, newest first. *)
Definition historyOf (userId : string) (s : DataStore) : list CheckIn.t :=
  jsSort byTimestampDesc (getCheckInsByUserId userId s).

(** The events of the page that the route returns. *)
Definition historyPage (user : JwtPayload.t) (limit offset : Z) (s : DataStore)
    : list CheckIn.t :=
  match (getMyCheckIns (Some user) (Some limit) (Some offset) s).1 with
  | Json _ (data, _) => EnrichedCheckIn.checkIn <$> data
  | Err _ _ => []
  end.

(** [ci => ({ ...ci, cardName: card?.name, cardLogo: card?.logo })] *)
Definition enrichWithCard (s : DataStore) (ci : CheckIn.t) : EnrichedCheckIn.t :=
  let card := getCardById (CheckIn.cardId ci) s in
  EnrichedCheckIn.mk ci (Card.name <$> card) (card ≫= Card.logo).

Lemma getMyCheckIns_page user limit offset s :
  0 < limit → 0 ≤ offset →
  getMyCheckIns (Some user) (Some limit) (Some offset) s =
    (Json 200
       (enrichWithCard s <$>
          take (Z.to_nat limit)
            (drop (Z.to_nat offset) (historyOf (JwtPayload.userId user) s)),
        Pagination.mk (length (historyOf (JwtPayload.userId user) s)) limit offset
          (bool_decide
             (offset + limit < Z.of_nat (length (historyOf (JwtPayload.userId user) s))))),
     s).
Proof.
  intros Hl Ho. unfold getMyCheckIns. cbv zeta.
  assert (parseIntOr (Some limit) 50 = limit) as ->
    by (unfold parseIntOr; rewrite decide_False; [done | lia]).
  assert (parseIntOr (Some offset) 0 = offset) as ->
    by (unfold parseIntOr; destruct (decide (offset = 0)); [lia | done]).
  cbn [sortArray getCheckInsByUserIdArray readArray].
  fold (historyOf (JwtPayload.userId user) s).
  rewrite jsSlice_take_drop by lia.
  replace (offset + limit - offset) with limit by lia. reflexivity.
Qed.


(** X10.  For a limit [limit > 0] and an offset [offset >= 0], the
    history route answers [200] and leaves the store as it was; [total] is
    the number of the events of the user; the page is made of the events
    of the user sorted newest first, without the first [offset] and cut
    after [limit]; every entry carries the name of its card as the store
    has it now; and [hasMore] tells whether events follow the page. *)
Theorem history_page (user : JwtPayload.t) (limit offset : Z) (s : DataStore) :
  0 < limit → 0 ≤ offset →
  ∃ data total hasMore,
    getMyCheckIns (Some user) (Some limit) (Some offset) s
      = (Json 200 (data, Pagination.mk total limit offset hasMore), s) ∧
    total = length (getCheckInsByUserId (JwtPayload.userId user) s) ∧
    EnrichedCheckIn.checkIn <$> data =
      take (Z.to_nat limit)
        (drop (Z.to_nat offset) (historyOf (JwtPayload.userId user) s)) ∧
    (Z.of_nat (length data) ≤ limit) ∧
    StronglySorted (λ a b, CheckIn.timestamp b ≤ CheckIn.timestamp a)
      (EnrichedCheckIn.checkIn <$> data) ∧
    (∀ e, e ∈ data →
       CheckIn.userId (EnrichedCheckIn.checkIn e) = JwtPayload.userId user ∧
       EnrichedCheckIn.checkIn e ∈ checkIns s ∧
       EnrichedCheckIn.cardName e =
         Card.name <$> getCardById (CheckIn.cardId (EnrichedCheckIn.checkIn e)) s) ∧
    (hasMore = true ↔ offset + limit < Z.of_nat total).
Proof.
  intros Hl Ho.
  set (page := take (Z.to_nat limit)
                 (drop (Z.to_nat offset) (historyOf (JwtPayload.userId user) s))).
  assert (page `sublist_of` historyOf (JwtPayload.userId user) s) as Hsub.
  { etransitivity; [apply sublist_take | apply sublist_drop]. }
  assert (EnrichedCheckIn.checkIn <$> (enrichWithCard s <$> page) = page) as Hpage.
  { rewrite <- list_fmap_compose. apply list_fmap_id. }
  eexists _, _, _. split; [by apply getMyCheckIns_page|].
  fold page.
  split; [apply Permutation_length, jsSort_perm|].
  split; [exact Hpage|].
  split; [rewrite length_fmap; unfold page; rewrite length_take; lia|].
  split.
  { rewrite Hpage. eapply StronglySorted_sublist; [exact Hsub|].
    apply (jsSort_desc CheckIn.timestamp). }
  split.
  { intros e He. apply list_elem_of_fmap in He as (ci & -> & Hci). simpl.
    assert (ci ∈ getCheckInsByUserId (JwtPayload.userId user) s) as Hin.
    { rewrite <- (jsSort_perm byTimestampDesc). by eapply elem_of_sublist. }
    apply list_elem_of_filter in Hin as [Huser Hin]. done. }
  rewrite bool_decide_eq_true.
  unfold historyOf. by rewrite (Permutation_length (jsSort_perm _ _)).
Qed.

Lemma history_page_witness :
  historyPage alice 1 0 storeOneEvent
    = [CheckIn.mk "event-1" "user-a" teaId "business-user-s" 10 1700000003000
                  None None].
Proof.
  destruct (history_page alice 1 0 storeOneEvent)
    as (data & total & hasMore & Hrun & _ & Hdata & _); [lia | lia |].
  unfold historyPage. rewrite Hrun. simpl. rewrite Hdata. reflexivity.
Defined.



(* ===================================================================== *)
(** * More on the leaderboard *)
(* ===================================================================== *)

Lemma take_imap {A B} (f : nat → A → B) (n : nat) (l : list A) :
  take n (imap f l) = imap f (take n l).
Proof.
  revert f n. induction l as [|x l IH]; intros f [|n]; simpl; try done.
  by rewrite IH.
Qed.

Lemma getLeaderboard_positive n s :
  0 < n →
  getLeaderboard (Some n) s =
    imap toLeaderboardEntry
      (take (Z.to_nat n) (jsSort byPointsDesc (filter isUserRole (getAllUsers s)))).
Proof.
  intros Hn. unfold getLeaderboard, parseIntOr, rankUsers.
  rewrite decide_False by lia. by rewrite jsSlice0_take by lia.
Qed.

(** X12.  A shorter leaderboard is the beginning of a longer one: for
    limits [0 < n <= m], the leaderboard of limit [n] is made of the first
    [n] entries of the leaderboard of limit [m], with the same ranks; and
    the [topUsers] of the overview are the leaderboard of limit 10. *)
Theorem leaderboard_limits_nest (n m : Z) (s : DataStore) :
  0 < n → n ≤ m →
  getLeaderboard (Some n) s = take (Z.to_nat n) (getLeaderboard (Some m) s) ∧
  getLeaderboard None s = getLeaderboard (Some 10) s ∧
  ∀ env r, getOverview env s = Some r →
    AnalyticsResponse.topUsers r = getLeaderboard (Some 10) s.
Proof.
  intros Hn Hm. split; [|split; [done|]].
  - rewrite !getLeaderboard_positive by lia.
    rewrite take_imap, take_take. f_equal. f_equal. lia.
  - intros env r Hr. by apply getOverview_fields in Hr as (_ & -> & _).
Qed.

Lemma leaderboard_limits_nest_witness :
  getLeaderboard (Some 1) storeTwo = take 1 (getLeaderboard (Some 2) storeTwo).
Proof.
  refine (proj1 (leaderboard_limits_nest 1 2 storeTwo _ _)); lia.
Defined.

Lemma keyed_values_keys {V} (f : V → string) (m : JsMap.t string V) :
  (∀ k v, (k, v) ∈ m → f v = k) → f <$> JsMap.values m = JsMap.keys m.
Proof.
  unfold JsMap.values, JsMap.keys. induction m as [|[k v] m IH]; simpl; [done|].
  intros Hkeyed. rewrite (Hkeyed k v) by apply list_elem_of_here.
  f_equal. apply IH. intros k' v' Hin. apply Hkeyed. by apply list_elem_of_further.
Qed.

Lemma fmap_imap_entry_userId (l : list User.t) :
  UserLeaderboard.userId <$> imap toLeaderboardEntry l = User.id <$> l.
Proof.
  rewrite fmap_imap.
  assert (∀ (g : nat → User.t → string) (l : list User.t),
            (∀ i u, g i u = User.id u) → imap g l = User.id <$> l) as Himap.
  { intros g l0. revert g. induction l0 as [|u l0 IH]; intros g Hg; simpl; [done|].
    rewrite Hg. f_equal. apply IH. intros i u'. apply Hg. }
  by apply Himap.
Qed.

(** X13.  In every store that the routes reach from a new store the
    leaderboard lists no account twice, and the entry of an account shows
    the points, the name and the email that the store holds under the id
    of the entry, for an account of role [user]. *)
Theorem leaderboard_lists_accounts_once {V : UuidCheck}
    (now : Date) (rs : list ApiRequest) (limitQuery : option Z) :
  let s := serveAll rs (newDataStore now) in
  NoDup (UserLeaderboard.userId <$> getLeaderboard limitQuery s) ∧
  ∀ e, e ∈ getLeaderboard limitQuery s →
    ∃ u, getUserById (UserLeaderboard.userId e) s = Some u ∧
         User.role u = RoleUser ∧
         UserLeaderboard.points e = User.points u ∧
         UserLeaderboard.userName e = User.name u ∧
         UserLeaderboard.userEmail e = User.email u.
Proof.
  intros s.
  assert (storeInv s) as Hinv by apply serveAll_inv, newDataStore_inv.
  assert (NoDup (User.id <$> getAllUsers s)) as Hids.
  { unfold getAllUsers. rewrite (keyed_values_keys User.id).
    - apply (inv_users_keys s Hinv).
    - apply (inv_users_keyed s Hinv). }
  split.
  - unfold getLeaderboard, rankUsers. rewrite fmap_imap_entry_userId.
    eapply sublist_NoDup; [|apply fmap_sublist; unfold jsSlice0; apply sublist_take].
    rewrite jsSort_perm.
    eapply sublist_NoDup; [exact Hids | apply fmap_sublist, sublist_filter].
  - intros e He. apply list_elem_of_lookup in He as [i He].
    apply rankUsers_lookup in He as (_ & u & Hu & ->).
    apply list_elem_of_lookup_2 in Hu. rewrite jsSort_perm in Hu.
    apply list_elem_of_filter in Hu as [Hrole Hu].
    exists u. split; [|done]. simpl.
    unfold getAllUsers, JsMap.values in Hu.
    apply list_elem_of_fmap in Hu as ([k u'] & -> & Hin). simpl.
    rewrite (inv_users_keyed s Hinv k u' Hin).
    apply JsMap_get_elem_NoDup; [apply (inv_users_keys s Hinv) | done].
Qed.

(* ===================================================================== *)
(** * Counts of distinct users *)
(* ===================================================================== *)

Lemma newSetSize_mono (l k : list string) :
  (∀ x, x ∈ l → x ∈ k) → (newSetSize l ≤ newSetSize k)%nat.
Proof.
  intros Hsub. unfold newSetSize. apply subseteq_size.
  intros x. rewrite !elem_of_list_to_set. apply Hsub.
Qed.

Lemma newSetSize_le_length (l : list string) : (newSetSize l ≤ length l)%nat.
Proof.
  destruct (newSetSize_distinct l) as (ids & Hnd & Hin & ->).
  apply submseteq_length, NoDup_submseteq; [done|]. intros x. by rewrite Hin.
Qed.

Lemma newSetSize_zero (l : list string) : newSetSize l = 0%nat ↔ l = [].
Proof.
  split; [|by intros ->].
  destruct (newSetSize_distinct l) as (ids & _ & Hin & ->).
  destruct ids as [|i ids]; [|done]. intros _.
  destruct l as [|x l]; [done|].
  exfalso. eapply elem_of_nil. apply Hin. apply list_elem_of_here.
Qed.

Lemma userIds_of_narrower_filter (P Q : CheckIn.t → Prop)
    `{∀ x, Decision (P x)} `{∀ x, Decision (Q x)} (l : list CheckIn.t) :
  (∀ ci, P ci → Q ci) →
  ∀ x, x ∈ CheckIn.userId <$> filter P l → x ∈ CheckIn.userId <$> filter Q l.
Proof.
  intros HPQ x Hx. apply list_elem_of_fmap in Hx as (ci & -> & Hci).
  apply list_elem_of_filter in Hci as [HP Hin].
  apply list_elem_of_fmap_2, list_elem_of_filter. auto.
Qed.

(** X14.  The counts of the user activity are nested: the users active in
    the last week are at most the users active in the last month, who are
    at most the users with a check-in, who are at most the events of the
    log; and no user is active when the log is empty. *)
Theorem user_activity_windows_nest (now : Date) (s : DataStore) :
  let activity := getUserActivity now s in
  (UserActivity.activeLastWeek activity ≤ UserActivity.activeLastMonth activity)%nat ∧
  (UserActivity.activeLastMonth activity ≤ UserActivity.usersWithCheckIns activity)%nat ∧
  (UserActivity.usersWithCheckIns activity ≤ length (checkIns s))%nat ∧
  (checkIns s = [] → UserActivity.usersWithCheckIns activity = 0%nat).
Proof.
  cbv zeta. unfold getUserActivity. simpl. split; [|split; [|split]].
  - apply newSetSize_mono, userIds_of_narrower_filter. intros ci. lia.
  - apply newSetSize_mono. intros x Hx.
    apply list_elem_of_fmap in Hx as (ci & -> & Hci).
    apply list_elem_of_filter in Hci as [_ Hin]. by apply list_elem_of_fmap_2.
  - etransitivity; [apply newSetSize_le_length|]. by rewrite length_fmap.
  - unfold getAllCheckIns. by intros ->.
Qed.

Lemma filter_length_le {A} (P : A → Prop) `{∀ x, Decision (P x)} (l : list A) :
  (length (filter P l) ≤ length l)%nat.
Proof. apply sublist_length, sublist_filter. Qed.

(** X15.  In the statistics of a card the distinct users are at most the
    check-ins, the check-ins of the last seven days are at most all
    check-ins, there is no user exactly when there is no check-in, and the
    average of check-ins per user is 0 for a card without check-in and at
    least 1 for any other. *)
Theorem card_statistics_bounds (now : Date) (allCheckIns : list CheckIn.t) (card : Card.t) :
  let stats := (cardAnalyticsOf now allCheckIns card).2 in
  (CardStats.uniqueUsers stats ≤ CardStats.totalCheckIns stats)%nat ∧
  (CardStats.last7Days stats ≤ CardStats.totalCheckIns stats)%nat ∧
  (CardStats.uniqueUsers stats = 0%nat ↔ CardStats.totalCheckIns stats = 0%nat) ∧
  (CardStats.totalCheckIns stats = 0%nat →
     (CardStats.avgCheckInsPerUser stats == 0)%Q) ∧
  ((0 < CardStats.totalCheckIns stats)%nat →
     (1 <= CardStats.avgCheckInsPerUser stats)%Q).
Proof.
  cbv zeta. unfold cardAnalyticsOf. simpl.
  set (cardCheckIns := filter (λ ci, CheckIn.cardId ci = Card.id card) allCheckIns).
  assert (newSetSize (CheckIn.userId <$> cardCheckIns) ≤ length cardCheckIns)%nat as Hle.
  { etransitivity; [apply newSetSize_le_length|]. by rewrite length_fmap. }
  assert (newSetSize (CheckIn.userId <$> cardCheckIns) = 0%nat
          ↔ length cardCheckIns = 0%nat) as Hzero.
  { rewrite newSetSize_zero. split.
    - intros Hnil. apply fmap_nil_inv in Hnil. by rewrite Hnil.
    - intros Hlen. apply nil_length_inv in Hlen. by rewrite Hlen. }
  split; [done|]. split; [apply filter_length_le|]. split; [done|]. split.
  - intros Hnone. apply Hzero in Hnone. rewrite Hnone. simpl. reflexivity.
  - intros Hsome.
    assert (newSetSize (CheckIn.userId <$> cardCheckIns) ≠ 0%nat) as Hne
      by (intros H0; apply Hzero in H0; lia).
    destruct (newSetSize (CheckIn.userId <$> cardCheckIns)) as [|n]; [done|].
    rewrite decide_True by lia.
    unfold roundTo1, divCounts.
    replace (Z.of_nat (S n)) with (Z.pos (Pos.of_succ_nat n)) by lia.
    pose proof (mathRound_tenths (Z.of_nat (length cardCheckIns)) (Pos.of_succ_nat n))
      as Hround. cbv zeta in Hround.
    set (t := mathRound _) in *.
    assert (10 ≤ t) as Ht by nia.
    unfold Qle, Qdiv, Qmult, Qinv, inject_Z. simpl. lia.
Qed.

(* ===================================================================== *)
(** * Points in the stores that the routes reach *)
(* ===================================================================== *)

Lemma points_sum_foldl (l : list CheckIn.t) (acc : Z) :
  Forall (λ e, CheckIn.pointsEarned e = 10) l →
  foldl (λ sum ci, sum + CheckIn.pointsEarned ci) acc l = acc + 10 * Z.of_nat (length l).
Proof.
  revert acc. induction l as [|e l IH]; intros acc Hall; simpl; [lia|].
  apply Forall_cons in Hall as [He Hall]. rewrite IH by done. rewrite He. lia.
Qed.

Lemma points_sum_foldr (l : list CheckIn.t) :
  Forall (λ e, CheckIn.pointsEarned e = 10) l →
  foldr (λ e acc, CheckIn.pointsEarned e + acc) 0 l = 10 * Z.of_nat (length l).
Proof.
  induction 1 as [|e l He Hall IH]; simpl; [lia|]. rewrite IH, He. lia.
Qed.

Lemma Forall_filter_keep {A} (P Q : A → Prop) `{∀ x, Decision (Q x)} (l : list A) :
  Forall P l → Forall P (filter Q l).
Proof.
  rewrite !Forall_forall. intros Hall x Hx.
  apply list_elem_of_filter in Hx as [_ Hx]. by apply Hall.
Qed.

(** X16.  In every store that the routes reach from a new store, the
    points earned on a card are ten times its check-ins, and the points
    that the log holds for a user are ten times the events of the user. *)
Theorem points_are_ten_per_checkin {V : UuidCheck}
    (now : Date) (rs : list ApiRequest) (clock : nat → Date) :
  let s := serveAll rs (newDataStore now) in
  (∀ card stats, (card, stats) ∈ getCardAnalytics clock s →
     CardStats.totalPointsEarned stats = 10 * Z.of_nat (CardStats.totalCheckIns stats)) ∧
  (∀ userId, earnedBy userId s = 10 * Z.of_nat (length (getCheckInsByUserId userId s))).
Proof.
  intros s.
  assert (storeInv s) as Hinv by apply serveAll_inv, newDataStore_inv.
  pose proof (inv_points s Hinv) as Hten.
  split.
  - intros card stats Hin. unfold getCardAnalytics in Hin.
    apply list_elem_of_lookup in Hin as [i Hi]. rewrite list_lookup_imap in Hi.
    destruct (getAllCards s !! i) as [c|]; [|done].
    simpl in Hi. injection Hi as -> <-. simpl.
    rewrite points_sum_foldl; [lia|]. by apply Forall_filter_keep.
  - intros userId. unfold earnedBy. apply points_sum_foldr.
    unfold getCheckInsByUserId. by apply Forall_filter_keep.
Qed.

(** Freshness of the ids drawn by the registrations of a sequence of
    requests. *)
Fixpoint apiFreshIds {V : UuidCheck} (rs : list ApiRequest) (s : DataStore) : Prop :=
  match rs with
  | [] => True
  | r :: rs' =>
      match r with ApiLedger r0 => freshId r0 s | _ => True end
      ∧ apiFreshIds rs' (serve r s)
  end.

Lemma serve_card_routes_keep_ledger {V : UuidCheck} r s :
  (∀ r0, r ≠ ApiLedger r0) →
  users (serve r s) = users s ∧ checkIns (serve r s) = checkIns s ∧
  userCards (serve r s) = userCards s.
Proof.
  intros Hr. destruct r as [r0 | env reqUser body | now reqUser id body | reqUser id]; simpl.
  - by destruct (Hr r0).
  - unfold postCard. destruct (requireRole _ reqUser); [done|]. by destruct body.
  - unfold putCard. destruct (requireRole _ reqUser); [done|].
    destruct body as [validated|]; [|done].
    destruct (getCardById id s) as [card|] eqn:Hc; [|done].
    destruct (foreignCard reqUser card); [done|].
    unfold updateCard. unfold getCardById in Hc. by rewrite Hc.
  - unfold deleteCardRoute. destruct (requireRole _ reqUser); [done|].
    unfold deleteCard. by destruct (JsMap.delete id (cards s)) as [[] m].
Qed.

Lemma serve_ledgerOk {V : UuidCheck} r s :
  match r with ApiLedger r0 => freshId r0 s | _ => True end →
  ledgerOk s → ledgerOk (serve r s).
Proof.
  intros Hfresh Hok.
  assert ((∀ r0, r ≠ ApiLedger r0) → ledgerOk (serve r s)) as Hcards.
  { intros Hother.
    destruct (serve_card_routes_keep_ledger r s Hother) as (Hu & Hl & _).
    intros id u. unfold getUserById. rewrite Hu.
    rewrite (earnedBy_same_log id s) by done. apply Hok. }
  destruct r as [r0| | |]; [by apply handle_ledgerOk | by apply Hcards..].
Qed.

Lemma serveAll_ledgerOk {V : UuidCheck} rs s :
  apiFreshIds rs s → ledgerOk s → ledgerOk (serveAll rs s).
Proof.
  revert s. induction rs as [|r rs IH]; intros s Hfresh Hok; simpl; [done|].
  destruct Hfresh as [Hr Hrs]. apply IH; [done|]. by apply serve_ledgerOk.
Qed.

(** X17.  Along any sequence of requests on a new store in which every
    registration draws an id without events, the balance of every stored
    account is the sum of the points of its events, which is ten times
    their number; a balance is never negative. *)
Theorem balance_is_ten_per_event {V : UuidCheck}
    (now : Date) (rs : list ApiRequest) (id : string) (u : User.t) :
  apiFreshIds rs (newDataStore now) →
  getUserById id (serveAll rs (newDataStore now)) = Some u →
  User.points u = earnedBy id (serveAll rs (newDataStore now)) ∧
  User.points u =
    10 * Z.of_nat (length (getCheckInsByUserId id (serveAll rs (newDataStore now)))) ∧
  0 ≤ User.points u.
Proof.
  intros Hfresh Hu.
  pose proof (serveAll_ledgerOk rs _ Hfresh (newDataStore_ledgerOk now) id u Hu) as Hbal.
  assert (storeInv (serveAll rs (newDataStore now))) as Hinv
    by apply serveAll_inv, newDataStore_inv.
  assert (earnedBy id (serveAll rs (newDataStore now)) =
          10 * Z.of_nat (length (getCheckInsByUserId id (serveAll rs (newDataStore now)))))
    as Hten.
  { unfold earnedBy. apply points_sum_foldr. unfold getCheckInsByUserId.
    apply Forall_filter_keep, (inv_points _ Hinv). }
  split; [done|]. rewrite Hbal, Hten. split; [done | lia].
Qed.

(** Alice registers, the shop creates its card, Alice adds it to her
    wallet and checks in: her balance and her events hold ten points. *)
Lemma balance_is_ten_per_event_witness :
  let s :=
    serveAll (V := uuidV4Text)
      (walletRequests ++ [ApiLedger (ReqCheckIn checkInEnv1 (Some alice) (Some tea))])
      (newDataStore 1700000000000) in
  balanceOf "user-a" s = Some 10 ∧ earnedBy "user-a" s = 10.
Proof.
  intros s.
  destruct (balance_is_ten_per_event (V := uuidV4Text) 1700000000000
              (walletRequests
                 ++ [ApiLedger (ReqCheckIn checkInEnv1 (Some alice) (Some tea))])
              "user-a"
              (User.mk "user-a" "alice@example.com" "$2b$10$hash-a" "Alice" RoleUser 10
                       1700000001000 1700000003000))
    as (Hbal & _).
  - simpl. repeat split; reflexivity.
  - vm_compute. reflexivity.
  - split; [vm_compute; reflexivity|]. fold s in Hbal. rewrite <- Hbal. reflexivity.
Defined.

(* ===================================================================== *)
(** * The range of dates and the series of the overview *)
(* ===================================================================== *)

Lemma formatDate_bounds (t k : Z) :
  (k * msPerDay ≤ t ↔ k ≤ formatDate t) ∧
  (t ≤ k * msPerDay + (msPerDay - 1) ↔ formatDate t ≤ k).
Proof.
  unfold formatDate.
  assert (0 < msPerDay) as HD by (by vm_compute).
  pose proof (Z.mul_div_le t msPerDay HD).
  pose proof (Z.mul_succ_div_gt t msPerDay HD).
  split; split; intros; nia.
Qed.

Lemma getDateRange_days (nowEnd nowStart days t : Z) :
  (getDateRange nowEnd nowStart days).1 ≤ t ∧ t ≤ (getDateRange nowEnd nowStart days).2
  ↔ formatDate nowStart - days ≤ formatDate t ∧ formatDate t ≤ formatDate nowEnd.
Proof.
  unfold getDateRange. cbn [fst snd]. unfold startOfDay, endOfDay.
  fold (formatDate (addDays nowStart (- days))). fold (formatDate nowEnd).
  rewrite formatDate_addDays.
  destruct (formatDate_bounds t (formatDate nowStart + - days)) as [Hlo _].
  destruct (formatDate_bounds t (formatDate nowEnd)) as [_ Hhi].
  rewrite Hlo, Hhi. lia.
Qed.

(** X18.  The range of [getDateRange(days)] is made of whole calendar
    days: it starts at midnight, [days] days before the day of the second
    reading of the clock, and ends with the last millisecond of the day of
    the first reading; a date lies in it exactly when its day lies between
    these two days.  With both readings on one day the range has
    [days + 1] days. *)
Theorem date_range_covers_whole_days (nowEnd nowStart days : Z) :
  let range := getDateRange nowEnd nowStart days in
  range.1 `mod` msPerDay = 0 ∧
  range.2 `mod` msPerDay = msPerDay - 1 ∧
  formatDate range.1 = formatDate nowStart - days ∧
  formatDate range.2 = formatDate nowEnd ∧
  (∀ t, range.1 ≤ t ∧ t ≤ range.2
        ↔ formatDate nowStart - days ≤ formatDate t ∧ formatDate t ≤ formatDate nowEnd) ∧
  (formatDate nowEnd = formatDate nowStart →
     formatDate range.2 - formatDate range.1 + 1 = days + 1).
Proof.
  cbv zeta.
  assert (formatDate (getDateRange nowEnd nowStart days).1 = formatDate nowStart - days)
    as Hstart.
  { unfold getDateRange. cbn [fst]. rewrite formatDate_startOfDay, formatDate_addDays. lia. }
  assert (formatDate (getDateRange nowEnd nowStart days).2 = formatDate nowEnd) as Hend.
  { unfold getDateRange. cbn [snd]. apply formatDate_endOfDay. }
  split; [|split; [|split; [done|split; [done|split]]]].
  - unfold getDateRange, startOfDay. cbn [fst]. apply Z.mod_mul. by vm_compute.
  - unfold getDateRange, endOfDay. cbn [snd].
    rewrite Z.add_comm, Z.mod_add by (by vm_compute).
    apply Z.mod_small. by vm_compute.
  - intros t. apply getDateRange_days.
  - intros Hsame. rewrite Hstart, Hend. lia.
Qed.

Lemma filter_filter_implied {A} (P Q : A → Prop)
    `{∀ x, Decision (P x)} `{∀ x, Decision (Q x)} (l : list A) :
  (∀ x, P x → Q x) → filter P (filter Q l) = filter P l.
Proof.
  intros HPQ. induction l as [|x l IH]; [done|].
  rewrite !filter_cons. destruct (decide (Q x)) as [HQ|HQ].
  - rewrite filter_cons. destruct (decide (P x)); by rewrite IH.
  - rewrite decide_False; [done|]. intros HP. by apply HQ, HPQ.
Qed.

Lemma date_range_start_end (nowEnd nowStart days : Z) :
  formatDate (getDateRange nowEnd nowStart days).1 = formatDate nowStart - days ∧
  formatDate (getDateRange nowEnd nowStart days).2 = formatDate nowEnd ∧
  (formatDate nowStart - days ≤ formatDate nowEnd →
     (getDateRange nowEnd nowStart days).1 ≤ (getDateRange nowEnd nowStart days).2) ∧
  (getDateRange nowEnd nowStart days).1
    = startOfDay (getDateRange nowEnd nowStart days).1.
Proof.
  unfold getDateRange. cbn [fst snd].
  split; [rewrite formatDate_startOfDay, formatDate_addDays; lia|].
  split; [apply formatDate_endOfDay|].
  split; [|apply startOfDay_idemp].
  intros Hle. unfold startOfDay, endOfDay.
  fold (formatDate (addDays nowStart (- days))). fold (formatDate nowEnd).
  rewrite formatDate_addDays.
  assert (0 < msPerDay) by (by vm_compute). nia.
Qed.

(** X19.  On a server in UTC, when [getDateRange] reads the clock twice
    on one day, the [dailyCheckIns] of the overview has 31 entries, one
    for each UTC day from thirty days before that day to that day, in this
    order, and the entry of a day counts all events of the log whose
    timestamp falls on that day: days without event are present with
    count 0. *)
Theorem overview_daily_counts (env : OverviewEnv.t) (s : DataStore) :
  formatDate (OverviewEnv.now2 env) = formatDate (OverviewEnv.now3 env) →
  ∃ r,
    getOverview env s = Some r ∧
    length (AnalyticsResponse.dailyCheckIns r) = 31%nat ∧
    ∀ i, (i < 31)%nat →
      AnalyticsResponse.dailyCheckIns r !! i =
        Some (DailyCheckIn.mk
                (formatDate (OverviewEnv.now3 env) - 30 + Z.of_nat i)
                (length (filter (λ ci, formatDate (CheckIn.timestamp ci)
                                       = formatDate (OverviewEnv.now3 env) - 30 + Z.of_nat i)
                                (checkIns s)))).
Proof.
  intros Hsame. cbv beta iota zeta delta [getOverview].
  pose proof (date_range_start_end (OverviewEnv.now2 env) (OverviewEnv.now3 env) 30)
    as (Hs & He & Hle & Haligned).
  pose proof (getDateRange_days (OverviewEnv.now2 env) (OverviewEnv.now3 env) 30) as Hin.
  destruct (getDateRange (OverviewEnv.now2 env) (OverviewEnv.now3 env) 30)
    as [start end_] eqn:Hrange.
  cbn [fst snd] in *.
  destruct (dailySeries_complete start end_ (getAllCheckIns s)) as (series & -> & Hlen & Hlookup).
  { apply Hle. lia. }
  { exact Haligned. }
  eexists. split; [reflexivity|]. simpl.
  assert (length series = 31%nat) as Hlen31 by (rewrite Hlen, Hs, He; lia).
  split; [done|].
  intros i Hi. rewrite (Hlookup i) by lia. rewrite Hs. f_equal. f_equal.
  unfold eventsOfDay. f_equal. apply filter_filter_implied.
  intros ci Hday. apply Hin. lia.
Qed.

Lemma overview_daily_counts_witness :
  ∃ r,
    getOverview (OverviewEnv.mk 1700000004000 1700000004000 1700000004000) storeOneEvent
      = Some r ∧
    AnalyticsResponse.dailyCheckIns r !! 30%nat = Some (DailyCheckIn.mk 19675 1) ∧
    AnalyticsResponse.dailyCheckIns r !! 29%nat = Some (DailyCheckIn.mk 19674 0).
Proof.
  destruct (overview_daily_counts
              (OverviewEnv.mk 1700000004000 1700000004000 1700000004000) storeOneEvent)
    as (r & Hr & _ & Hlookup); [reflexivity|].
  exists r. split; [exact Hr|].
  split; [rewrite (Hlookup 30%nat) by lia | rewrite (Hlookup 29%nat) by lia];
    vm_compute; reflexivity.
Defined.

(* ===================================================================== *)
(** * The daily route ([GET /analytics/daily]) *)
(* ===================================================================== *)

(** [Array.from(cards.values()).reduce((sum, count) => sum + count, 0)] *)
Definition sumCounts (cards : JsMap.t string nat) : nat :=
  foldl (λ sum count, sum + count)%nat 0%nat (JsMap.values cards).

(** The total held for a day by the map of the route. *)
Definition dayTotal (m : JsMap.t Z (JsMap.t string nat)) (day : Z) : nat :=
  match JsMap.get day m with
  | Some cards => sumCounts cards
  | None => 0%nat
  end.

(** One step of the [forEach] of the route. *)
Definition groupStep (s : DataStore) (dailyByCard : JsMap.t Z (JsMap.t string nat))
    (ci : CheckIn.t) : JsMap.t Z (JsMap.t string nat) :=
  let dateKey := formatDate (CheckIn.timestamp ci) in
  let card := getCardById (CheckIn.cardId ci) s in
  let dailyByCard :=
    if negb (JsMap.has dateKey dailyByCard)
    then JsMap.set dateKey JsMap.empty dailyByCard
    else dailyByCard in
  let dayMap := default JsMap.empty (JsMap.get dateKey dailyByCard) in
  let cardName := cardNameOr card in
  JsMap.set dateKey
    (JsMap.set cardName (default 0%nat (JsMap.get cardName dayMap) + 1)%nat dayMap)
    dailyByCard.

Lemma foldl_add_from (l : list nat) (a : nat) :
  foldl (λ sum count, sum + count)%nat a l
  = (a + foldl (λ sum count, sum + count)%nat 0%nat l)%nat.
Proof.
  revert a. induction l as [|x l IH]; intros a; simpl; [lia|].
  rewrite (IH (a + x)%nat), (IH x). lia.
Qed.

Lemma sumCounts_cons k v (m : JsMap.t string nat) :
  sumCounts ((k, v) :: m) = (v + sumCounts m)%nat.
Proof. unfold sumCounts. simpl. apply foldl_add_from. Qed.

Lemma sumCounts_increment name (cards : JsMap.t string nat) :
  sumCounts (JsMap.set name (default 0%nat (JsMap.get name cards) + 1)%nat cards)
  = (sumCounts cards + 1)%nat.
Proof.
  induction cards as [|[k v] cards IH]; simpl; [done|].
  destruct (decide (name = k)) as [->|Hne]; simpl.
  - rewrite !sumCounts_cons. lia.
  - rewrite !sumCounts_cons, IH. lia.
Qed.

Lemma groupStep_total s m ci day :
  dayTotal (groupStep s m ci) day =
    (dayTotal m day
     + if decide (formatDate (CheckIn.timestamp ci) = day) then 1 else 0)%nat.
Proof.
  unfold groupStep, dayTotal, JsMap.has.
  set (d := formatDate (CheckIn.timestamp ci)).
  destruct (decide (d = day)) as [<-|Hne].
  - rewrite JsMap_get_set_eq.
    destruct (JsMap.get d m) as [cards|] eqn:Hg; simpl.
    + rewrite Hg. simpl. apply sumCounts_increment.
    + rewrite JsMap_get_set_eq. simpl. reflexivity.
  - rewrite JsMap_get_set_ne by done.
    destruct (JsMap.get d m) as [cards|] eqn:Hg; simpl.
    + by rewrite Nat.add_0_r.
    + rewrite JsMap_get_set_ne by done. by rewrite Nat.add_0_r.
Qed.

Lemma groupStep_keys s m ci :
  JsMap.keys (groupStep s m ci) =
    if JsMap.has (formatDate (CheckIn.timestamp ci)) m then JsMap.keys m
    else JsMap.keys m ++ [formatDate (CheckIn.timestamp ci)].
Proof.
  unfold groupStep. set (d := formatDate (CheckIn.timestamp ci)).
  rewrite JsMap_keys_set.
  destruct (JsMap.has d m) eqn:Hhas; simpl.
  - by rewrite Hhas.
  - unfold JsMap.has at 1. rewrite JsMap_get_set_eq.
    rewrite JsMap_keys_set. by rewrite Hhas.
Qed.

Lemma has_true_keys {V} (k : Z) (m : JsMap.t Z V) :
  JsMap.has k m = true ↔ k ∈ JsMap.keys m.
Proof.
  unfold JsMap.has. destruct (JsMap.get k m) eqn:Hg.
  - split; [|done]. intros _.
    destruct (decide (k ∈ JsMap.keys m)) as [|Hn]; [done|].
    apply JsMap_get_None_keys in Hn. congruence.
  - split; [done|]. intros Hin. by apply JsMap_get_None_keys in Hg.
Qed.

(** The map of the route after the events [l], from the map [m]: the
    total of a day grows by the events of that day, the keys stay distinct,
    and the days of the events are among the keys. *)
Lemma groupFold s (l : list CheckIn.t) (m : JsMap.t Z (JsMap.t string nat)) :
  let m' := foldl (groupStep s) m l in
  (∀ day, dayTotal m' day =
          (dayTotal m day
           + length (filter (λ ci, formatDate (CheckIn.timestamp ci) = day) l))%nat) ∧
  (NoDup (JsMap.keys m) → NoDup (JsMap.keys m')) ∧
  (∀ day, day ∈ JsMap.keys m' ↔
          day ∈ JsMap.keys m ∨ ∃ ci, ci ∈ l ∧ formatDate (CheckIn.timestamp ci) = day).
Proof.
  revert m. induction l as [|ci l IH]; intros m; simpl.
  - split; [intros; lia|]. split; [done|]. intros day. split; [by left|].
    intros [?|(ci & Hci & _)]; [done | by apply elem_of_nil in Hci].
  - destruct (IH (groupStep s m ci)) as (Htot & Hnd & Hkeys).
    split; [|split].
    + intros day. rewrite Htot, groupStep_total, filter_cons.
      destruct (decide (formatDate (CheckIn.timestamp ci) = day)); simpl; lia.
    + intros Hm. apply Hnd. rewrite groupStep_keys.
      destruct (JsMap.has _ m) eqn:Hhas; [done|].
      apply NoDup_app. split; [done|]. split; [|apply NoDup_singleton].
      intros x Hx Hx'. apply list_elem_of_singleton in Hx' as ->.
      apply has_true_keys in Hx. congruence.
    + intros day. rewrite Hkeys, groupStep_keys.
      destruct (JsMap.has (formatDate (CheckIn.timestamp ci)) m) eqn:Hhas.
      * apply has_true_keys in Hhas. split.
        -- intros [?|(c & Hc & Hd)]; [by left|]. right. exists c.
           split; [by apply list_elem_of_further | done].
        -- intros [?|(c & Hc & Hd)]; [by left|].
           apply elem_of_cons in Hc as [->|Hc]; [left; by rewrite <- Hd|].
           right. by exists c.
      * rewrite elem_of_app, list_elem_of_singleton. split.
        -- intros [[? | ->]|(c & Hc & Hd)]; [by left | |].
           ++ right. exists ci. split; [apply list_elem_of_here | done].
           ++ right. exists c. split; [by apply list_elem_of_further | done].
        -- intros [?|(c & Hc & Hd)]; [by left; left|].
           apply elem_of_cons in Hc as [->|Hc]; [left; by right|].
           right. by exists c.
Qed.

Lemma jsSort_ext {A} (cmp cmp' : A → A → Z) (l : list A) :
  (∀ a b, cmp a b = cmp' a b) → jsSort cmp l = jsSort cmp' l.
Proof.
  intros Hext. induction l as [|x l IH]; simpl; [done|]. rewrite IH.
  generalize (jsSort cmp' l) as k. induction k as [|y k IHk]; simpl; [done|].
  rewrite Hext. destruct (decide (cmp' x y ≤ 0)); [done | by rewrite IHk].
Qed.

Lemma StronglySorted_weaken {A} (R R' : relation A) (l : list A) :
  (∀ a b, R a b → R' a b) → StronglySorted R l → StronglySorted R' l.
Proof.
  intros HRR'. induction 1 as [|x l Hsorted IH Hall]; constructor; [done|].
  eapply Forall_impl; [exact Hall | apply HRR'].
Qed.

Lemma StronglySorted_strict {A} (key : A → Z) (l : list A) :
  StronglySorted (λ a b, key a ≤ key b) l → NoDup (key <$> l) →
  StronglySorted (λ a b, key a < key b) l.
Proof.
  induction 1 as [|x l Hsorted IH Hall]; simpl; intros Hnd; [constructor|].
  apply NoDup_cons in Hnd as [Hx Hnd]. constructor; [by apply IH|].
  apply Forall_forall. intros y Hy.
  pose proof (proj1 (Forall_forall _ _) Hall y Hy) as Hle. simpl in Hle.
  assert (key x ≠ key y); [|lia].
  intros Heq. apply Hx. rewrite Heq. by apply list_elem_of_fmap_2.
Qed.

(** X20.  The daily route returns its entries by strictly increasing
    date, one for each day on which the range holds an event and none for
    any other day; the total of an entry is the number of the events of
    the range on its day, at least one, and the sum of its counts by
    card. *)
Theorem daily_route_entries (env : DailyEnv.t) (daysQuery : option Z) (s : DataStore) :
  let range := getDateRange (DailyEnv.now1 env) (DailyEnv.now2 env)
                 (parseIntOr daysQuery 30) in
  let result := getDaily env daysQuery s in
  StronglySorted (λ a b, DailyTrend.date a < DailyTrend.date b) result ∧
  (∀ e, e ∈ result →
     DailyTrend.total e
       = eventsOfDay range.1 range.2 (checkIns s) (DailyTrend.date e) ∧
     (0 < DailyTrend.total e)%nat ∧
     DailyTrend.total e = sumCounts (DailyTrend.byCard e)) ∧
  (∀ day, (0 < eventsOfDay range.1 range.2 (checkIns s) day)%nat →
     ∃ e, e ∈ result ∧ DailyTrend.date e = day).
Proof.
  cbv zeta. unfold getDaily.
  destruct (getDateRange _ _ _) as [start end_]. cbn [fst snd].
  set (l := getCheckInsInDateRange start end_ s).
  change (groupByDateAndCard s l) with (foldl (groupStep s) JsMap.empty l).
  destruct (groupFold s l JsMap.empty) as (Htot & Hnd & Hkeys).
  cbv zeta in Htot, Hnd, Hkeys.
  set (m := foldl (groupStep s) JsMap.empty l) in *.
  specialize (Hnd (NoDup_nil_2)).
  assert (∀ day, eventsOfDay start end_ (checkIns s) day
                 = length (filter (λ ci, formatDate (CheckIn.timestamp ci) = day) l))
    as Hevents by done.
  assert (∀ day, dayTotal m day = eventsOfDay start end_ (checkIns s) day) as Hday.
  { intros day. rewrite Htot, Hevents. unfold dayTotal. simpl. lia. }
  assert (∀ day, day ∈ JsMap.keys m ↔ (0 < eventsOfDay start end_ (checkIns s) day)%nat)
    as Hlisted.
  { intros day. rewrite Hkeys, Hevents. split.
    - intros [Hin|(ci & Hci & Hd)]; [by apply elem_of_nil in Hin|].
      assert (ci ∈ filter (λ ci, formatDate (CheckIn.timestamp ci) = day) l) as Hf
        by (by apply list_elem_of_filter).
      destruct (filter _ l); [by apply elem_of_nil in Hf | simpl; lia].
    - intros Hpos. right.
      destruct (filter (λ ci, formatDate (CheckIn.timestamp ci) = day) l)
        as [|ci k] eqn:Hf; [simpl in Hpos; lia|].
      assert (ci ∈ filter (λ ci, formatDate (CheckIn.timestamp ci) = day) l) as Hci
        by (rewrite Hf; apply list_elem_of_here).
      apply list_elem_of_filter in Hci as [Hd Hci]. by exists ci. }
  set (entries := toDailyTrend <$> JsMap.entries m).
  assert (DailyTrend.date <$> entries = JsMap.keys m) as Hdates.
  { unfold entries, JsMap.entries, JsMap.keys. rewrite <- list_fmap_compose.
    apply list_fmap_ext. by intros i [d cards] _. }
  rewrite (jsSort_ext _ (descBy (λ e, - DailyTrend.date e)))
    by (intros a b; unfold descBy; lia).
  set (sorted := jsSort _ entries).
  assert (sorted ≡ₚ entries) as Hperm by apply jsSort_perm.
  split; [|split].
  - apply (StronglySorted_strict DailyTrend.date).
    + eapply StronglySorted_weaken; [|apply (jsSort_desc (λ e, - DailyTrend.date e))].
      intros a b. unfold notBelow. lia.
    + rewrite Hperm, Hdates. exact Hnd.
  - intros e He. rewrite Hperm in He.
    apply list_elem_of_fmap in He as ([d cards] & -> & Hin). simpl.
    unfold JsMap.entries in Hin.
    pose proof (JsMap_get_elem_NoDup d cards m Hnd Hin) as Hget.
    assert (sumCounts cards = eventsOfDay start end_ (checkIns s) d) as Hsum.
    { rewrite <- Hday. unfold dayTotal. by rewrite Hget. }
    split; [exact Hsum|]. split; [|done].
    change (foldl _ 0%nat (JsMap.values cards)) with (sumCounts cards).
    rewrite Hsum. apply Hlisted. apply list_elem_of_fmap. by exists (d, cards).
  - intros day Hpos. apply Hlisted in Hpos.
    rewrite <- Hdates in Hpos. apply list_elem_of_fmap in Hpos as (e & -> & He).
    exists e. split; [by rewrite Hperm | done].
Qed.

(* ===================================================================== *)
(** * The token of a request ([authenticateToken]) *)
(* ===================================================================== *)

(** A word: a string without space. *)
Fixpoint noSpace (s : string) : bool :=
  match s with
  | EmptyString => true
  | String c s' => negb (bool_decide (c = space)) && noSpace s'
  end.

Lemma jsSplit_nonempty sep s : jsSplit sep s ≠ [].
Proof.
  induction s as [|c s IH]; [done|]. cbn [jsSplit].
  destruct (decide (c = sep)); [done|]. by destruct (jsSplit sep s).
Qed.

Lemma jsSplit_word (w : string) :
  noSpace w = true → jsSplit space w = [w].
Proof.
  induction w as [|c w IH]; [done|].
  cbn [jsSplit noSpace]. intros Hw. apply andb_prop in Hw as [Hc Hw].
  apply negb_true_iff, bool_decide_eq_false in Hc.
  rewrite decide_False by done. by rewrite IH.
Qed.

Lemma jsSplit_word_space (w rest : string) :
  noSpace w = true →
  jsSplit space (w +:+ String space rest) = w :: jsSplit space rest.
Proof.
  induction w as [|c w IH]; intros Hw.
  - change ("" +:+ String space rest) with (String space rest). cbn [jsSplit].
    by rewrite decide_True.
  - change (String c w +:+ String space rest) with (String c (w +:+ String space rest)).
    cbn [jsSplit noSpace] in *. apply andb_prop in Hw as [Hc Hw].
    apply negb_true_iff, bool_decide_eq_false in Hc.
    rewrite decide_False by done. by rewrite IH.
Qed.

(** X21.  [authenticateToken] takes the second word of the
    [Authorization] header as the token, whatever the first word is (the
    scheme is not compared with [Bearer]) and whatever follows the second
    word: the principal is the payload that [jwt.verify] returns for that
    word, and the request is answered [403] when the verification fails.
    A header that is absent, has one word only or has an empty second word
    is answered [401]. *)
Theorem authenticate_token_second_word
    (jwtVerify : string → option JwtPayload.t) (scheme token : string) :
  noSpace scheme = true → noSpace token = true → token ≠ "" →
  let outcome : Response unit + JwtPayload.t :=
    match jwtVerify token with
    | Some payload => inr payload
    | None => inl (Err 403 "Invalid or expired token")
    end in
  authenticateToken jwtVerify (Some (scheme +:+ " " +:+ token)) = outcome ∧
  (∀ more, authenticateToken jwtVerify (Some (scheme +:+ " " +:+ token +:+ " " +:+ more))
           = outcome) ∧
  authenticateToken (A := unit) jwtVerify (Some scheme)
    = inl (Err 401 "Access token required") ∧
  authenticateToken (A := unit) jwtVerify (Some (scheme +:+ " "))
    = inl (Err 401 "Access token required") ∧
  authenticateToken (A := unit) jwtVerify None = inl (Err 401 "Access token required").
Proof.
  intros Hs Ht Hne outcome.
  assert (∀ rest, scheme +:+ String space rest ≠ "") as Hnonempty.
  { intros rest. destruct scheme; done. }
  assert (∀ rest, jsSplit space rest !! 0%nat = Some token →
            authenticateToken jwtVerify (Some (scheme +:+ String space rest)) = outcome)
    as Hsecond.
  { intros rest Hrest. unfold authenticateToken, bearerToken.
    rewrite decide_False by apply Hnonempty.
    rewrite jsSplit_word_space by done. simpl. rewrite Hrest.
    by rewrite decide_False. }
  split; [|split; [|split; [|split; [|done]]]].
  - apply (Hsecond token). by rewrite jsSplit_word.
  - intros more. apply (Hsecond (token +:+ String space more)).
    by rewrite jsSplit_word_space.
  - unfold authenticateToken, bearerToken.
    destruct (decide (scheme = "")); [done|]. by rewrite jsSplit_word.
  - unfold authenticateToken, bearerToken.
    rewrite decide_False by apply Hnonempty.
    by rewrite jsSplit_word_space.
Qed.

Lemma authenticate_token_witness :
  authenticateToken (A := unit)
    (λ token, if decide (token = "jwt-a") then Some alice else None)
    (Some "Basic jwt-a")
  = inr alice.
Proof.
  refine (proj1 (authenticate_token_second_word
                   (λ token, if decide (token = "jwt-a") then Some alice else None)
                   "Basic" "jwt-a" _ _ _)); [reflexivity | reflexivity | discriminate].
Defined.
